(** * ElectroHMI: telemetry simulation, status classification and driver state

    A shallow embedding of the simulation core of the dashboard
    ([src/App.tsx], the constants of [constants.ts], the types of
    [types.ts]) and of the diagnostics call ([src/services/geminiService.ts]).

    JavaScript's [number] is IEEE 754 binary64.  The arithmetic of the
    program is written once, over an interface [JsNum], and read in two
    ways: [binary64] (the specification floats of the standard library at
    precision 53 and maximal exponent 1024, with NaN, signed zeros and
    infinities) is what the program computes; [exact] (rationals, no
    rounding) is the idealised reading, used for the rate at which the
    temperature recurrence approaches its limit. *)

From Stdlib Require Import ZArith List Bool String Ascii Lia.
From Stdlib Require Import QArith Qabs Qminmax Qpower Qround Lqa.
From Stdlib Require Import Floats.SpecFloat.
From Stdlib Require Import DecimalString.
Import ListNotations.
Close Scope Q_scope.

Set Implicit Arguments.

(** ** Numbers *)

Declare Scope num_scope.
Delimit Scope num_scope with num.

Class JsNum (N : Type) : Type := {
  of_Z : Z -> N;                (* an integer literal *)
  dec : Z -> Z -> N;            (* the decimal literal [a/b], as in 0.05 = 5/100 *)
  nadd : N -> N -> N;
  nsub : N -> N -> N;
  nmul : N -> N -> N;
  ndiv : N -> N -> N;
  Math_abs : N -> N;
  Math_max : N -> N -> N;
  ngt : N -> N -> bool          (* the comparison [>] *)
}.

Infix "+" := nadd : num_scope.
Infix "-" := nsub : num_scope.
Infix "*" := nmul : num_scope.
Infix "/" := ndiv : num_scope.
Infix ">?" := ngt : num_scope.

Module B64.

Definition prec : Z := 53.
Definition emax : Z := 1024.

Definition number : Type := spec_float.

Definition NaN : number := S754_nan.

(** The double nearest to an integer. *)
Definition ofZ (z : Z) : number := binary_normalize prec emax z 0 false.

Definition add : number -> number -> number := SFadd prec emax.
Definition sub : number -> number -> number := SFsub prec emax.
Definition mul : number -> number -> number := SFmul prec emax.
Definition div : number -> number -> number := SFdiv prec emax.

(** A decimal literal: the correctly rounded quotient of two integers
    that are themselves doubles. *)
Definition ofDec (a b : Z) : number := div (ofZ a) (ofZ b).

Definition abs : number -> number := SFabs.

(** [x > y]: false as soon as one side is NaN. *)
Definition gtb (x y : number) : bool := SFltb y x.
Definition geb (x y : number) : bool := SFleb y x.
Definition ltb (x y : number) : bool := SFltb x y.
Definition leb (x y : number) : bool := SFleb x y.

(** [Math.max] of two arguments: NaN if either is NaN, and [+0] is
    larger than [-0]. *)
Definition max (x y : number) : number :=
  match SFcompare x y with
  | None => NaN
  | Some Lt => y
  | Some Gt => x
  | Some Eq => match x with S754_zero true => y | _ => x end
  end.

Definition isNaN (x : number) : bool :=
  match x with S754_nan => true | _ => false end.

(** The doubles: canonical mantissa and exponent in range. *)
Definition valid (x : number) : bool := valid_binary prec emax x.

(** A positive finite double: the shape of every threshold. *)
Definition positiveFinite (c : number) : Prop :=
  exists m e, c = S754_finite false m e.

(** The magnitude of [m * 2^e]: the [D] with [2^(D-1) <= m * 2^e < 2^D]. *)
Definition magnitude (m : positive) (e : Z) : Z := (Zpos (digits2_pos m) + e)%Z.

(** What rounding a value of sign [s] and magnitude [D] can give: never
    NaN; an infinity only above [2^971]; a zero only below [2^-1073];
    otherwise a finite double of that sign and of magnitude [D] or
    [D + 1]. *)
Definition roundedShape (s : bool) (D : Z) (r : number) : Prop :=
  match r with
  | S754_zero s' => s' = s /\ (D < -1073)%Z
  | S754_infinity s' => s' = s /\ (971 < D)%Z
  | S754_nan => False
  | S754_finite s' m' e' =>
      s' = s /\ (magnitude m' e' <= Z.max D (-1074) + 1)%Z /\
      (-1073 <= D -> D <= magnitude m' e')%Z
  end.

(** A zero or a finite double of absolute value below [2^k]. *)
Definition finiteBelowb (k : Z) (x : number) : bool :=
  match x with
  | S754_zero _ => true
  | S754_finite _ m e => (magnitude m e <=? k)%Z
  | _ => false
  end.

Definition finiteBelow (k : Z) (x : number) : Prop :=
  match x with
  | S754_zero _ => True
  | S754_finite _ m e => (magnitude m e <= k)%Z
  | _ => False
  end.

(** A finite double that is positive and at least [2^(k-1)]. *)
Definition positiveAboveb (k : Z) (x : number) : bool :=
  match x with
  | S754_finite false m e => (k <=? magnitude m e)%Z
  | _ => false
  end.

Definition positiveAbove (k : Z) (x : number) : Prop :=
  match x with
  | S754_finite false m e => (k <= magnitude m e)%Z
  | _ => False
  end.

(** Not NaN, and of sign [s]. *)
Definition hasSign (s : bool) (x : number) : Prop :=
  match x with
  | S754_zero s' | S754_infinity s' | S754_finite s' _ _ => s' = s
  | S754_nan => False
  end.

Definition half : number := ofDec 5 10.

(** The noise of a step, [Math.random() - 0.5]: a double in [-0.5, 0.5). *)
Definition inNoiseRange (n : number) : bool :=
  valid n && leb (SFopp half) n && ltb n half.

(** What [Math.random] returns: a double in [0, 1). *)
Definition inUnitInterval (r : number) : bool :=
  valid r && leb (S754_zero false) r && ltb r (ofZ 1).

(** A finite double of absolute value at least [2^(k-1)]. *)
Definition finiteAbove (k : Z) (x : number) : Prop :=
  match x with
  | S754_finite _ m e => (k <= magnitude m e)%Z
  | _ => False
  end.

(** The target load of the specification: a double in [0, 120]. *)
Definition inLoadRange (load : number) : bool :=
  valid load && leb (S754_zero false) load && leb load (ofZ 120).

(** The voltage, the current and the efficiency of a step at the target
    load [load] and the noise [n], before they are floored or capped: the
    local constants [loadFactor], [voltageBase], [currentBase] and (the
    first) [eff] of [simulateStep]. *)
Definition loadFactor (load : number) : number := div load (ofZ 100).
Definition voltageBase (load n : number) : number :=
  add (sub (ofZ 240) (mul (loadFactor load) (ofZ 5))) (mul n (ofDec 15 10)).
Definition currentBase (load n : number) : number :=
  add (mul (ofZ 30) (loadFactor load)) (mul n (ofDec 2 10)).
Definition efficiencyBase (load n : number) : number :=
  add (sub (ofZ 95) (mul (abs (sub (loadFactor load) half)) (ofZ 10)))
      (mul n (ofDec 5 10)).

(** The steady state of the temperature as [simulateStep] computes it (its
    local constant [targetTemp]), and the temperature one step later when
    the noise is 0 and the steady state is [T]:
    [temp + (T - temp) * 0.05 + 0 * 0.1]. *)
Definition targetTemp (load : number) : number :=
  add (ofZ 25) (mul (loadFactor load) (ofZ 60)).
Definition approach (T temp : number) : number :=
  add (add temp (mul (sub T temp) (ofDec 5 100))) (mul (ofZ 0) (ofDec 1 10)).

(** The steady state as the specification writes it, [25 + load*0.6],
    evaluated in binary64. *)
Definition steadyFormula (load : number) : number :=
  add (ofZ 25) (mul load (ofDec 6 10)).

(** [2^-36], about 1.5e-11: how close to the steady state a quiet run
    is shown to come. *)
Definition tolerance : number := div (ofZ 1) (ofZ (2 ^ 36)).

(** *** Values

    The value of [m * 2^e] in units of [2^-2148], an integer for every
    double and every exact product of two doubles; the absolute value and
    the value of a double in those units. *)
Definition units (m e : Z) : Z := (m * 2 ^ (e + 2148))%Z.

Definition absUnits (x : number) : Z :=
  match x with
  | S754_finite _ m e => units (Zpos m) e
  | _ => 0%Z
  end.

Definition valZ (x : number) : Z :=
  match x with
  | S754_finite s m e => cond_Zopp s (units (Zpos m) e)
  | _ => 0%Z
  end.

(** A zero or a finite double (canonical, in range). *)
Definition real (x : number) : Prop := valid x = true /\ finiteBelow 1001 x.

(** Something was lost in the shifts so far. *)
Definition inexact (mrs : shr_record) : bool := shr_r mrs || shr_s mrs.

End B64.

#[export] Instance binary64 : JsNum B64.number := {|
  of_Z := B64.ofZ;
  dec := B64.ofDec;
  nadd := B64.add;
  nsub := B64.sub;
  nmul := B64.mul;
  ndiv := B64.div;
  Math_abs := B64.abs;
  Math_max := B64.max;
  ngt := B64.gtb
|}.

#[export] Instance exact : JsNum Q := {|
  of_Z := inject_Z;
  dec := fun a b => (inject_Z a / inject_Z b)%Q;
  nadd := Qplus;
  nsub := Qminus;
  nmul := Qmult;
  ndiv := Qdiv;
  Math_abs := Qabs;
  Math_max := Qmax;
  ngt := fun x y => negb (Qle_bool x y)
|}.

(** ** types.ts *)

Inductive SystemStatus : Set := NOMINAL | WARNING | CRITICAL.

Record TelemetryData (N : Type) : Type := {
  timestamp : N;
  voltage : N;
  current : N;
  power : N;
  temperature : N;
  frequency : N;
  efficiency : N;
  status : SystemStatus
}.

Record SystemState (N : Type) : Type := {
  isConnected : bool;
  simulationActive : bool;
  targetLoad : N;
  data : TelemetryData N;
  history : list (TelemetryData N)
}.

(** ** constants.ts *)

Section Constants.
Context {N : Type} `{JsNum N}.

Definition MAX_HISTORY_LENGTH : nat := 60.

Definition NOMINAL_VOLTAGE : N := of_Z 240.
Definition NOMINAL_FREQUENCY : N := of_Z 60.

Definition THRESHOLDS_temperature_warning : N := of_Z 60.
Definition THRESHOLDS_temperature_critical : N := of_Z 85.
Definition THRESHOLDS_power_warning : N := of_Z 3600.
Definition THRESHOLDS_power_critical : N := of_Z 6000.

(** [timestamp: Date.now()] is read once, when the module is loaded. *)
Definition MOCK_INITIAL_DATA (loaded_at : N) : TelemetryData N := {|
  timestamp := loaded_at;
  voltage := NOMINAL_VOLTAGE;
  current := of_Z 0;
  power := of_Z 0;
  temperature := of_Z 25;
  frequency := NOMINAL_FREQUENCY;
  efficiency := of_Z 100;
  status := NOMINAL
|}.
End Constants.

(** ** App.tsx: the simulation step *)

(** The two impure calls of [simulateStep], [Math.random()] and
    [Date.now()], read a world: the values [Math.random] is going to
    return and how many of them were consumed, and the same for the
    readings of the clock. *)
Record World (N : Type) : Type := {
  random_draws : nat -> N;
  draws_used : nat;
  clock_readings : nat -> N;
  clock_reads : nat
}.

Definition IO (N A : Type) : Type := World N -> A * World N.

Definition ret {N A} (a : A) : IO N A := fun w => (a, w).

Definition bind {N A B} (c : IO N A) (k : A -> IO N B) : IO N B :=
  fun w => let (a, w') := c w in k a w'.

Notation "x <- c ;; k" := (bind c (fun x => k))
  (at level 61, c at next level, right associativity).

Definition Math_random {N} : IO N N :=
  fun w => (random_draws w (draws_used w),
            {| random_draws := random_draws w;
               draws_used := S (draws_used w);
               clock_readings := clock_readings w;
               clock_reads := clock_reads w |}).

Definition Date_now {N} : IO N N :=
  fun w => (clock_readings w (clock_reads w),
            {| random_draws := random_draws w;
               draws_used := draws_used w;
               clock_readings := clock_readings w;
               clock_reads := S (clock_reads w) |}).

Section Simulation.
Context {N : Type} `{JsNum N}.
Local Open Scope num_scope.

(** Lines 62-68: the status decided from [power] and [temp]. *)
Definition classify (power temp : N) : SystemStatus :=
  if (power >? THRESHOLDS_power_critical) || (temp >? THRESHOLDS_temperature_critical)
  then CRITICAL
  else if (power >? THRESHOLDS_power_warning) || (temp >? THRESHOLDS_temperature_warning)
  then WARNING
  else NOMINAL.

(** Lines 40-79: the body of [simulateStep] once [noise] is drawn; [now]
    is the value of [Date.now()] in the returned object. *)
Definition stepWithNoise (noise now : N) (currentData : TelemetryData N)
    (targetLoad : N) : TelemetryData N :=
  let loadFactor := targetLoad / of_Z 100 in
  let voltageBase := NOMINAL_VOLTAGE - (loadFactor * of_Z 5) + (noise * dec 15 10) in
  let maxCurrent := of_Z 30 in
  let currentBase := (maxCurrent * loadFactor) + (noise * dec 2 10) in
  let power := voltageBase * currentBase in
  let targetTemp := of_Z 25 + (loadFactor * of_Z 60) in
  let tempChange := (targetTemp - temperature currentData) * dec 5 100 in
  let temp := temperature currentData + tempChange + (noise * dec 1 10) in
  let eff := of_Z 95 - (Math_abs (loadFactor - dec 5 10) * of_Z 10) + (noise * dec 5 10) in
  let eff := if eff >? of_Z 100 then of_Z 100 else eff in
  let status := classify power temp in
  {| timestamp := now;
     voltage := Math_max (of_Z 0) voltageBase;
     current := Math_max (of_Z 0) currentBase;
     power := Math_max (of_Z 0) power;
     temperature := temp;
     frequency := NOMINAL_FREQUENCY + (noise * dec 1 10);
     efficiency := eff;
     status := status |}.

Definition simulateStep (currentData : TelemetryData N) (targetLoad : N)
    : IO N (TelemetryData N) :=
  r <- Math_random ;;
  let noise := r - dec 5 10 in
  now <- Date_now ;;
  ret (stepWithNoise noise now currentData targetLoad).
End Simulation.

(** ** App.tsx: the driver state and its handlers *)

Section Driver.
Context {N : Type} `{JsNum N}.

(** [useState] at lines 24-30; [Array(60).fill(x)] holds 60 times [x]. *)
Definition initialState (loaded_at : N) : SystemState N := {|
  isConnected := true;
  simulationActive := true;
  targetLoad := of_Z 40;
  data := MOCK_INITIAL_DATA loaded_at;
  history := repeat (MOCK_INITIAL_DATA loaded_at) MAX_HISTORY_LENGTH
|}.

(** The state updater of lines 88-92; [slice(1)] drops the first element. *)
Definition tick (prev : SystemState N) : IO N (SystemState N) :=
  newData <- simulateStep (data prev) (targetLoad prev) ;;
  let newHistory := tl (history prev) ++ [newData] in
  ret {| isConnected := isConnected prev;
         simulationActive := simulationActive prev;
         targetLoad := targetLoad prev;
         data := newData;
         history := newHistory |}.

(** The effect of lines 83-97: the interval exists, and so the updater
    runs at a period boundary, only while the simulation is active and
    the unit connected. *)
Definition onInterval (s : SystemState N) : IO N (SystemState N) :=
  if simulationActive s && isConnected s then tick s else ret s.

Definition togglePower (prev : SystemState N) : SystemState N :=
  {| isConnected := isConnected prev;
     simulationActive := negb (simulationActive prev);
     targetLoad := targetLoad prev;
     data := data prev;
     history := history prev |}.

(** [k] period boundaries in a row. *)
Fixpoint ticks (k : nat) (s : SystemState N) : IO N (SystemState N) :=
  match k with
  | O => ret s
  | S k' => s' <- onInterval s ;; ticks k' s'
  end.

(** The samples the first [k] ticks of a running simulation produce,
    oldest first, each computed from the one before. *)
Fixpoint produced (k : nat) (d : TelemetryData N) (load : N) (w : World N)
    : list (TelemetryData N) :=
  match k with
  | O => []
  | S k' => let (d', w') := simulateStep d load w in d' :: produced k' d' load w'
  end.
End Driver.

(** [parseInt(string)] with no radix: leading white space is skipped, a
    sign is read, the prefix 0x or 0X selects radix 16, and the longest
    run of digits is the value; no digit at all gives NaN.

    A text is held as a string of bytes.  An ASCII character is the byte
    of its code; a character beyond ASCII is the bytes of its UTF-8
    encoding.  The sign, the prefix and the digits of [parseInt] are ASCII
    characters, its white space is not all ASCII. *)
Module ParseInt.
Local Open Scope char_scope.
Local Open Scope Z_scope.

(** A text of ASCII characters only: each byte is a character. *)
Definition asciiText (input : string) : bool :=
  forallb (fun c => N.ltb (N_of_ascii c) 128) (list_ascii_of_string input).

(** The white space and the line terminators of one byte: TAB, LF, VT,
    FF, CR and the space. *)
Definition isWhiteSpace (c : ascii) : bool :=
  let n := N_of_ascii c in
  (N.leb 9 n && N.leb n 13) || N.eqb n 32.

(** Of two bytes: U+00A0, the no-break space (C2 A0). *)
Definition isWhiteSpace2 (c1 c2 : ascii) : bool :=
  N.eqb (N_of_ascii c1) 194 && N.eqb (N_of_ascii c2) 160.

(** Of three bytes: U+1680 (E1 9A 80), U+2000 to U+200A (E2 80 80 to
    E2 80 8A), the line and paragraph separators U+2028 and U+2029
    (E2 80 A8, E2 80 A9), U+202F (E2 80 AF), U+205F (E2 81 9F), U+3000
    (E3 80 80) and the byte order mark U+FEFF (EF BB BF). *)
Definition isWhiteSpace3 (c1 c2 c3 : ascii) : bool :=
  let n1 := N_of_ascii c1 in
  let n2 := N_of_ascii c2 in
  let n3 := N_of_ascii c3 in
  (N.eqb n1 225 && N.eqb n2 154 && N.eqb n3 128)
  || (N.eqb n1 226 && N.eqb n2 128
      && ((N.leb 128 n3 && N.leb n3 138) || N.eqb n3 168 || N.eqb n3 169
          || N.eqb n3 175))
  || (N.eqb n1 226 && N.eqb n2 129 && N.eqb n3 159)
  || (N.eqb n1 227 && N.eqb n2 128 && N.eqb n3 128)
  || (N.eqb n1 239 && N.eqb n2 187 && N.eqb n3 191).

Fixpoint trimStart (s : list ascii) : list ascii :=
  match s with
  | [] => []
  | c1 :: s1 =>
      if isWhiteSpace c1 then trimStart s1
      else
        match s1 with
        | [] => s
        | c2 :: s2 =>
            if isWhiteSpace2 c1 c2 then trimStart s2
            else
              match s2 with
              | [] => s
              | c3 :: s3 => if isWhiteSpace3 c1 c2 c3 then trimStart s3 else s
              end
        end
  end.

Definition digitValue (c : ascii) : option Z :=
  let n := Z.of_N (N_of_ascii c) in
  if (48 <=? n) && (n <=? 57) then Some (n - 48)
  else if (97 <=? n) && (n <=? 122) then Some (n - 87)
  else if (65 <=? n) && (n <=? 90) then Some (n - 55)
  else None.

(** The digits of the longest prefix in radix [R], read left to right
    with the value [acc] so far; [seen] tells whether a digit was read. *)
Fixpoint digits (R : Z) (s : list ascii) (acc : Z) (seen : bool) : option Z :=
  match s with
  | c :: s' =>
      match digitValue c with
      | Some d => if d <? R then digits R s' (acc * R + d) true
                  else if seen then Some acc else None
      | None => if seen then Some acc else None
      end
  | [] => if seen then Some acc else None
  end.

Definition parseInt (input : string) : B64.number :=
  let S := trimStart (list_ascii_of_string input) in
  let (sign, S) :=
    match S with
    | "-" :: S' => (true, S')
    | "+" :: S' => (false, S')
    | _ => (false, S)
    end in
  let (R, S) :=
    match S with
    | "0" :: "x" :: S' => (16, S')
    | "0" :: "X" :: S' => (16, S')
    | _ => (10, S)
    end in
  match digits R S 0 false with
  | None => B64.NaN
  | Some 0 => S754_zero sign
  | Some mathInt => B64.ofZ (if sign then - mathInt else mathInt)
  end.
End ParseInt.

(** Line 116-118: whatever the input element reports is parsed and stored. *)
Definition handleLoadChange (e_target_value : string)
    (prev : SystemState B64.number) : SystemState B64.number :=
  {| isConnected := isConnected prev;
     simulationActive := simulationActive prev;
     targetLoad := ParseInt.parseInt e_target_value;
     data := data prev;
     history := history prev |}.

(** ** services/geminiService.ts *)

Module GeminiService.
Local Open Scope string_scope.

(** What [JSON.parse] returns. *)
#[local] Unset Elimination Schemes.
Inductive json : Type :=
| JNull
| JBool (b : bool)
| JNumber (n : B64.number)
| JString (s : string)
| JArray (items : list json)
| JObject (members : list (string * json)).
#[local] Set Elimination Schemes.

(** A JavaScript value read from parsed JSON: [None] is [undefined]. *)
Definition jsvalue : Type := option json.

Record DiagnosticsReport : Type := {
  status : jsvalue;
  analysis : jsvalue;
  recommendation : jsvalue;
  estimatedTimeUntilFailure : jsvalue
}.

Inductive exception : Type :=
| Error (message : string)
| SyntaxError
| TypeError
| ApiFailure.

(** A settled promise. *)
Inductive settled (A : Type) : Type :=
| Fulfilled (a : A)
| Rejected (e : exception).
Arguments Fulfilled {A} a.
Arguments Rejected {A} e.

(** A statement of a [try] block: a value, or a thrown exception. *)
Definition attempt (A : Type) : Type := (exception + A)%type.

Definition throw {A} (e : exception) : attempt A := inl e.

Definition andThen {A B} (c : attempt A) (k : A -> attempt B) : attempt B :=
  match c with
  | inl e => inl e
  | inr a => k a
  end.

Definition tryCatch {A} (body : attempt A) (handler : exception -> A) : A :=
  match body with
  | inl e => handler e
  | inr a => a
  end.

Fixpoint lookup (name : string) (members : list (string * json)) : jsvalue :=
  match members with
  | [] => None
  | (k, v) :: rest => if String.eqb k name then Some v else lookup name rest
  end.

(** [data.name]: reading a property of [null] throws; an object gives
    its member or [undefined]; the other values have no such property. *)
Definition getProperty (data : json) (name : string) : attempt jsvalue :=
  match data with
  | JNull => throw TypeError
  | JObject members => inr (lookup name members)
  | _ => inr None
  end.

(** Falsy strings and [undefined]. *)
Definition truthy (s : option string) : bool :=
  match s with
  | None => false
  | Some s => negb (String.eqb s "")
  end.

Definition fallbackReport : DiagnosticsReport := {|
  status := Some (JString "WARNING");
  analysis := Some (JString "Automated diagnostics failed. Connection error.");
  recommendation := Some (JString "Check network connection and retry.");
  estimatedTimeUntilFailure := Some (JString "Unknown")
|}.

Section Collaborators.
(** [process.env.API_KEY]. *)
Variable API_KEY : option string.
(** [Number.prototype.toFixed], which does not throw for 1 or 2 digits. *)
Variable toFixed : B64.number -> nat -> string.
(** [ai.models.generateContent] for a prompt, once settled: a rejection,
    or a response whose [text] is a string or [undefined]. *)
Variable generateContent : string -> attempt (option string).
(** [JSON.parse], which throws [SyntaxError] where it answers [None]. *)
Variable JSON_parse : string -> option json.

Definition prompt (telemetry : TelemetryData B64.number) : string :=
  "
    You are an expert industrial control systems technician. 
    Analyze the following telemetry snapshot from Power Distribution Unit #01.
    
    Telemetry Data:
    - Voltage: " ++ toFixed (voltage telemetry) 2 ++ " V
    - Current: " ++ toFixed (current telemetry) 2 ++ " A
    - Power: " ++ toFixed (power telemetry) 2 ++ " W
    - Temperature: " ++ toFixed (temperature telemetry) 2 ++ " °C
    - Frequency: " ++ toFixed (frequency telemetry) 2 ++ " Hz
    - Efficiency: " ++ toFixed (efficiency telemetry) 1 ++ " %
    
    Provide a technical status report.
  ".

(** The body of the [try] block, lines 31-72. *)
Definition requestReport (telemetry : TelemetryData B64.number)
    : attempt DiagnosticsReport :=
  andThen (generateContent (prompt telemetry)) (fun jsonText =>
  andThen (if truthy jsonText then inr jsonText
           else throw (Error "No response from AI")) (fun jsonText =>
  andThen (match JSON_parse (match jsonText with Some t => t | None => "" end) with
           | Some data => inr data
           | None => throw SyntaxError
           end) (fun data =>
  andThen (getProperty data "status") (fun st =>
  andThen (getProperty data "analysis") (fun an =>
  andThen (getProperty data "recommendation") (fun re =>
  andThen (getProperty data "estimatedTimeUntilFailure") (fun et =>
  inr {| status := st; analysis := an; recommendation := re;
         estimatedTimeUntilFailure := et |}))))))).

(** Lines 4-82.  The check of the key stands before the [try]: its
    exception leaves the function and rejects the promise. *)
Definition generateDiagnostics (telemetry : TelemetryData B64.number)
    : settled DiagnosticsReport :=
  if negb (truthy API_KEY) then
    Rejected (Error "API Key is missing. Please check your environment configuration.")
  else
    Fulfilled (tryCatch (requestReport telemetry) (fun _ => fallbackReport)).

(** The ways the request can fail once the key is there: the call is
    rejected, the response has no text, the text is not JSON, or it is
    the JSON value [null]. *)
Inductive requestFails (telemetry : TelemetryData B64.number) : Prop :=
| call_rejected (e : exception) :
    generateContent (prompt telemetry) = inl e -> requestFails telemetry
| empty_response (text : option string) :
    generateContent (prompt telemetry) = inr text -> truthy text = false ->
    requestFails telemetry
| unparsable_payload (text : string) :
    generateContent (prompt telemetry) = inr (Some text) ->
    JSON_parse text = None -> requestFails telemetry
| null_payload (text : string) :
    generateContent (prompt telemetry) = inr (Some text) ->
    JSON_parse text = Some JNull -> requestFails telemetry.
End Collaborators.
End GeminiService.

(** ** Runs used in the statements *)

Section Runs.
Context {N : Type} `{JsNum N}.

(** [k] steps at a fixed load with the noise forced to 0. *)
Fixpoint quietSteps (k : nat) (now : N) (d : TelemetryData N) (load : N)
    : TelemetryData N :=
  match k with
  | O => d
  | S k' => stepWithNoise (of_Z 0) now (quietSteps k' now d load) load
  end.
End Runs.

(** The temperature after [k] quiet steps, in exact arithmetic. *)
Definition quietTemperature (k : nat) (now : Q) (d : TelemetryData Q) (load : Q) : Q :=
  temperature (quietSteps k now d load).

(** [k] quiet steps from [d] at the load [z]%, in binary64: the last
    sample, if the temperature moved towards the steady state the code
    computes at every step without passing it. *)
Fixpoint quietApproach (k : nat) (d : TelemetryData B64.number) (z : Z)
    : option (TelemetryData B64.number) :=
  match k with
  | O => Some d
  | S k' =>
      let T := B64.add (B64.ofZ 25)
                 (B64.mul (B64.div (B64.ofZ z) (B64.ofZ 100)) (B64.ofZ 60)) in
      let d' := stepWithNoise (B64.ofZ 0) (B64.ofZ 0) d (B64.ofZ z) in
      if (if B64.leb (temperature d) T
          then B64.leb (temperature d) (temperature d') && B64.leb (temperature d') T
          else B64.leb T (temperature d') && B64.leb (temperature d') (temperature d))
      then quietApproach k' d' z
      else None
  end.

(** The part of the gap to the steady state left after [k] quiet steps. *)
Definition shrink (k : nat) : Q := ((19 # 20) ^ Z.of_nat k)%Q.

(** The steady state of the temperature at a load, [25 + targetLoad*0.6]. *)
Definition steadyTemperature (load : Q) : Q := (25 + load * (6 # 10))%Q.

(** A world for examples: [Math.random] keeps returning [r] and the clock
    reads [t]. *)
Definition constantWorld {N} (r t : N) : World N :=
  {| random_draws := fun _ => r; draws_used := 0;
     clock_readings := fun _ => t; clock_reads := 0 |}.

(** ** constants.ts: the thresholds of the gauges *)

Definition THRESHOLDS_voltage_min : B64.number := B64.ofZ 220.
Definition THRESHOLDS_voltage_max : B64.number := B64.ofZ 260.
Definition THRESHOLDS_current_warning : B64.number := B64.ofZ 15.

(** ** App.tsx: what the page shows of a state *)

Section Page.
Local Open Scope string_scope.

(** Lines 163, 171 and 179: the colours of the three gauges. *)
Definition voltageGaugeColor (d : TelemetryData B64.number) : string :=
  if B64.gtb (voltage d) THRESHOLDS_voltage_max
     || B64.ltb (voltage d) THRESHOLDS_voltage_min
  then "#fbbf24" else "#22d3ee".

Definition currentGaugeColor (d : TelemetryData B64.number) : string :=
  if B64.gtb (current d) THRESHOLDS_current_warning then "#f43f5e" else "#34d399".

Definition temperatureGaugeColor (d : TelemetryData B64.number) : string :=
  if B64.gtb (temperature d) (THRESHOLDS_temperature_warning (N := B64.number))
  then "#f43f5e" else "#fbbf24".

End Page.

(** ** components/Gauge.tsx *)

Module Gauge.
Import B64.

(** [Math.PI], the double nearest to pi: 0x400921FB54442D18. *)
Definition Math_PI : number := S754_finite false 7074237752028440 (-51).

(** [Math.min] of two arguments: NaN if either is NaN, and [-0] is
    smaller than [+0]. *)
Definition Math_min (x y : number) : number :=
  match SFcompare x y with
  | None => NaN
  | Some Lt => x
  | Some Gt => y
  | Some Eq => match x with S754_zero false => y | _ => x end
  end.

Definition radius : number := ofZ 45.
Definition circumference : number := mul (mul (ofZ 2) Math_PI) radius.

Section Props.
Variables value min max : number.

Definition clampedValue : number := Math_min (B64.max value min) max.
Definition percentage : number := div (sub clampedValue min) (sub max min).
Definition offset : number :=
  sub circumference (mul percentage (mul circumference (ofDec 75 100))).
Definition rotation : number := add (ofZ (-135)) (mul percentage (ofZ 270)).
End Props.
End Gauge.

(** ** App.tsx: the diagnostics handler *)

Module Diagnostics.
Import GeminiService.

(** The two pieces of state of lines 32-33. *)
Record Panel : Type := {
  aiReport : option DiagnosticsReport;
  aiLoading : bool
}.

Section Collaborators.
Variable API_KEY : option string.
Variable toFixed : B64.number -> nat -> string.
Variable generateContent : string -> attempt (option string).
Variable JSON_parse : string -> option json.

(** Lines 100-105: the panel once the handler has settled, and how its
    promise settled.  A rejected [await] leaves the function at once: the
    two setters after it do not run. *)
Definition handleDiagnostics (systemState : SystemState B64.number) (panel : Panel)
    : Panel * settled unit :=
  let panel := {| aiReport := aiReport panel; aiLoading := true |} in
  match generateDiagnostics API_KEY toFixed generateContent JSON_parse
          (data systemState) with
  | Fulfilled report =>
      let panel := {| aiReport := Some report; aiLoading := aiLoading panel |} in
      let panel := {| aiReport := aiReport panel; aiLoading := false |} in
      (panel, Fulfilled tt)
  | Rejected e => (panel, Rejected e)
  end.
End Collaborators.
End Diagnostics.

(** ** App.tsx: the events of the page *)

(** What can happen to the state: a period boundary of the interval, a
    click on the power button, a move of the slider to a value. *)
Inductive event : Type :=
| IntervalFires
| PowerClicked
| LoadChanged (e_target_value : string).

Definition dispatch (e : event) (s : SystemState B64.number)
    : IO B64.number (SystemState B64.number) :=
  match e with
  | IntervalFires => onInterval s
  | PowerClicked => ret (togglePower s)
  | LoadChanged v => ret (handleLoadChange v s)
  end.

Fixpoint run (es : list event) (s : SystemState B64.number)
    : IO B64.number (SystemState B64.number) :=
  match es with
  | [] => ret s
  | e :: es' => s' <- dispatch e s ;; run es' s'
  end.

(** ** App.tsx: the load control *)

(** The text the range input of lines 250-257 reports when the slider
    stands at the integer [n]: its decimal digits. *)
Definition sliderValue (n : nat) : string := NilZero.string_of_uint (Nat.to_uint n).

(** ** Intervals of doubles

    What the statements on the ranges of a sample are computed with: a
    double between two given doubles, and the side conditions, decided by
    computation on the exact values of the end points, under which the
    sum, the difference, the product or the quotient of two such doubles
    lies between two others. *)

Module Interval.
Import B64.
Local Open Scope Z_scope.

(** [x] is a double of [[a, b]]. *)
Definition within (a b x : number) : Prop := real x /\ valZ a <= valZ x <= valZ b.

(** An end point: a double below [2^300] in absolute value. *)
Definition small (a : number) : bool := valid a && finiteBelowb 300 a.

Definition finiteAboveb (k : Z) (x : number) : bool :=
  match x with
  | S754_finite _ m e => k <=? magnitude m e
  | _ => false
  end.

Definition ends (l : list number) : bool := forallb small l.

Definition addOk (a b c d lo hi : number) : bool :=
  ends [a; b; c; d; lo; hi]
  && (valZ lo <=? valZ a + valZ c) && (valZ b + valZ d <=? valZ hi).

Definition subOk (a b c d lo hi : number) : bool :=
  ends [a; b; c; d; lo; hi]
  && (valZ lo <=? valZ a - valZ d) && (valZ b - valZ c <=? valZ hi).

Definition mulOk (a b c d lo hi : number) : bool :=
  ends [a; b; c; d; lo; hi]
  && forallb (fun p => (valZ lo * 2 ^ 2148 <=? p) && (p <=? valZ hi * 2 ^ 2148))
       [valZ a * valZ c; valZ a * valZ d; valZ b * valZ c; valZ b * valZ d].

(** [[a, b] / y] for a positive divisor [y] and [0 <= a]. *)
Definition divOk (a b y lo hi : number) : bool :=
  ends [a; b; y; lo; hi]
  && (0 <=? valZ a) && (0 <? valZ y) && finiteAboveb (-300) y && (0 <=? valZ lo)
  && (valZ lo * valZ y <=? valZ a * 2 ^ 2148)
  && (valZ b * 2 ^ 2148 <=? valZ hi * valZ y).

Definition absOk (a b hi : number) : bool :=
  ends [a; b; hi] && (- valZ hi <=? valZ a) && (valZ b <=? valZ hi).

Definition insideOk (a b lo hi : number) : bool :=
  ends [a; b; lo; hi] && (valZ lo <=? valZ a) && (valZ b <=? valZ hi).
End Interval.

(** End points found by computation: the exact bound, moved outwards to
    the next multiple of [2^-30]. *)
Module Enclosure.
Import B64 Interval.
Local Open Scope Z_scope.

Definition down (z : Z) : number := ofDec (Z.shiftr z 2118) (2 ^ 30).
Definition up (z : Z) : number := ofDec (- Z.shiftr (- z) 2118) (2 ^ 30).

Definition least (l : list Z) : Z := fold_right Z.min (hd 0 l) l.
Definition greatest (l : list Z) : Z := fold_right Z.max (hd 0 l) l.

Definition corners (a b c d : number) : list Z :=
  [valZ a * valZ c; valZ a * valZ d; valZ b * valZ c; valZ b * valZ d].

Definition addLo (a c : number) : number := down (valZ a + valZ c).
Definition addHi (b d : number) : number := up (valZ b + valZ d).
Definition subLo (a d : number) : number := down (valZ a - valZ d).
Definition subHi (b c : number) : number := up (valZ b - valZ c).
Definition mulLo (a b c d : number) : number :=
  down (Z.shiftr (least (corners a b c d)) 2148).
Definition mulHi (a b c d : number) : number :=
  up (- Z.shiftr (- greatest (corners a b c d)) 2148).

(** The temperature of a step: [temp + (T - temp) * 0.05 + n * 0.1] for
    [T] in [[Tl, Th]], [temp] in [[p, q]] and [n] in [[-0.5, 0.5]]. *)
Section Temperature.
Variables Tl Th p q : number.

Definition rate : number := ofDec 5 100.
Definition tenth : number := ofDec 1 10.

Definition gapLo : number := subLo Tl q.
Definition gapHi : number := subHi Th p.
Definition changeLo : number := mulLo gapLo gapHi rate rate.
Definition changeHi : number := mulHi gapLo gapHi rate rate.
Definition movedLo : number := addLo p changeLo.
Definition movedHi : number := addHi q changeHi.
Definition jitterLo : number := mulLo (SFopp half) half tenth tenth.
Definition jitterHi : number := mulHi (SFopp half) half tenth tenth.
Definition nextLo : number := addLo movedLo jitterLo.
Definition nextHi : number := addHi movedHi jitterHi.

Definition nextOk : bool :=
  subOk Tl Th p q gapLo gapHi
  && (mulOk gapLo gapHi rate rate changeLo changeHi
  && (addOk p q changeLo changeHi movedLo movedHi
  && (mulOk (SFopp half) half tenth tenth jitterLo jitterHi
  && addOk movedLo movedHi jitterLo jitterHi nextLo nextHi))).
End Temperature.
End Enclosure.

(** ** Runs of the page within the slider *)

(** An event the page can produce with its slider ending at [top]: a
    move of the slider reports one of the positions 0 to [top]. *)
Definition onSlider (top : nat) (e : event) : bool :=
  match e with
  | LoadChanged v => existsb (fun n => String.eqb v (sliderValue n)) (seq 0 (S top))
  | _ => true
  end.

(** A sample on the scales of the page: the temperature in [20, 100],
    the voltage in [233, 241], the current in [0, 37], the power in
    [0, 8720], the frequency in [59.9, 60.1], the efficiency in [87, 100]. *)
Definition onScale (d : TelemetryData B64.number) : bool :=
  B64.leb (B64.ofZ 20) (temperature d) && B64.leb (temperature d) (B64.ofZ 100)
  && B64.leb (B64.ofZ 233) (voltage d) && B64.leb (voltage d) (B64.ofZ 241)
  && B64.leb (B64.ofZ 0) (current d) && B64.leb (current d) (B64.ofZ 37)
  && B64.leb (B64.ofZ 0) (power d) && B64.leb (power d) (B64.ofZ 8720)
  && B64.leb (B64.ofDec 599 10) (frequency d) && B64.leb (frequency d) (B64.ofDec 601 10)
  && B64.leb (B64.ofZ 87) (efficiency d) && B64.leb (efficiency d) (B64.ofZ 100).

(** The same of doubles that are known to be valid. *)
Definition scaled (d : TelemetryData B64.number) : Prop :=
  Interval.within (B64.ofZ 20) (B64.ofZ 100) (temperature d) /\
  Interval.within (B64.ofZ 233) (B64.ofZ 241) (voltage d) /\
  Interval.within (S754_zero false) (B64.ofZ 37) (current d) /\
  Interval.within (S754_zero false) (B64.ofZ 8720) (power d) /\
  Interval.within (B64.ofDec 599 10) (B64.ofDec 601 10) (frequency d) /\
  Interval.within (B64.ofZ 87) (B64.ofZ 100) (efficiency d).


(** * Properties *)

Unset Implicit Arguments.

(** ** Comparisons of doubles *)

Module B64Facts.
Import B64.

Lemma ofZ_0 : ofZ 0 = S754_zero false.
Proof. reflexivity. Qed.

(** Flooring at zero does not change on which side of a positive
    threshold a value lies, whatever the value: NaN stays NaN, and
    everything the floor replaces was below the threshold already. *)
Lemma gtb_max_zero (p c : number) :
  positiveFinite c -> gtb (max (S754_zero false) p) c = gtb p c.
Proof.
  intros (m & e & ->).
  destruct p as [s | s | | s mp ep]; try destruct s; reflexivity.
Qed.

Lemma gtb_nan_l (c : number) : gtb NaN c = false.
Proof. destruct c; reflexivity. Qed.

Lemma geb_max_zero (x : number) :
  isNaN x = false -> geb (max (S754_zero false) x) (S754_zero false) = true.
Proof.
  destruct x as [s | s | | s m e]; try destruct s; cbv; intros; congruence.
Qed.

(** *** Digits and magnitudes *)

Local Open Scope Z_scope.

Lemma digits2_size (p : positive) : digits2_pos p = Pos.size p.
Proof. induction p; cbn; congruence. Qed.

Lemma digits_log2 (p : positive) : Zpos (digits2_pos p) = Z.log2 (Zpos p) + 1.
Proof.
  rewrite digits2_size. destruct p; cbn; rewrite ?Pos2Z.inj_succ; try reflexivity; lia.
Qed.

Lemma Zdigits2_log2 (m : Z) : 0 < m -> Zdigits2 m = Z.log2 m + 1.
Proof. destruct m; try lia. intros _. apply digits_log2. Qed.

Lemma Zdigits2_nonneg (m : Z) : 0 <= Zdigits2 m.
Proof. destruct m; cbn; lia. Qed.

(** [m < 2^k] exactly when [m] has at most [k] digits. *)
Lemma Zdigits2_le_iff (m k : Z) : 0 < m -> 0 <= k -> (Zdigits2 m <= k <-> m < 2 ^ k).
Proof.
  intros Hm Hk. rewrite Zdigits2_log2 by assumption.
  rewrite (Z.log2_lt_pow2 m k Hm). lia.
Qed.

Lemma Zdigits2_ge_iff (m k : Z) : 0 < m -> 0 < k -> (k <= Zdigits2 m <-> 2 ^ (k - 1) <= m).
Proof.
  intros Hm Hk. rewrite Zdigits2_log2 by assumption.
  rewrite (Z.log2_le_pow2 m (k - 1) Hm). lia.
Qed.

Lemma Zdigits2_mono (a b : Z) : 0 <= a <= b -> Zdigits2 a <= Zdigits2 b.
Proof.
  intros [Ha Hab]. destruct (Z.eq_dec a 0) as [->|Hne].
  - apply Zdigits2_nonneg.
  - rewrite !Zdigits2_log2 by lia. pose proof (Z.log2_le_mono a b Hab). lia.
Qed.

Lemma Zdigits2_succ (a : Z) : 0 <= a -> Zdigits2 (a + 1) <= Zdigits2 a + 1.
Proof.
  intros Ha. destruct (Z.eq_dec a 0) as [->|Hne]; [cbn; lia|].
  pose proof (Zdigits2_nonneg a) as Hd.
  apply Zdigits2_le_iff; try lia.
  assert (a < 2 ^ Zdigits2 a) by (apply Zdigits2_le_iff; lia).
  rewrite Z.pow_add_r by lia. lia.
Qed.

Lemma Zdigits2_mul (a b : Z) : 0 < a -> 0 < b -> Zdigits2 (a * b) <= Zdigits2 a + Zdigits2 b.
Proof.
  intros Ha Hb.
  pose proof (Zdigits2_nonneg a). pose proof (Zdigits2_nonneg b).
  apply Zdigits2_le_iff; try nia.
  assert (a < 2 ^ Zdigits2 a) by (apply Zdigits2_le_iff; lia).
  assert (b < 2 ^ Zdigits2 b) by (apply Zdigits2_le_iff; lia).
  rewrite Z.pow_add_r by lia. nia.
Qed.

Lemma Zdigits2_mul_pow2 (a j : Z) : 0 < a -> 0 <= j -> Zdigits2 (a * 2 ^ j) = Zdigits2 a + j.
Proof.
  intros Ha Hj. assert (0 < 2 ^ j) by (apply Z.pow_pos_nonneg; lia).
  rewrite !Zdigits2_log2 by nia. rewrite Z.log2_mul_pow2 by lia. lia.
Qed.

(** Shifting right. *)
Lemma shr_1_digits (mrs : shr_record) :
  0 <= shr_m mrs ->
  0 <= shr_m (shr_1 mrs) /\
  Zdigits2 (shr_m (shr_1 mrs)) = Z.max 0 (Zdigits2 (shr_m mrs) - 1).
Proof.
  destruct mrs as [m r s]. cbn [shr_m]. intros Hm.
  destruct m as [|[p|p|]|p];
    cbn [shr_1 shr_m Zdigits2 digits2_pos]; rewrite ?Pos2Z.inj_succ; lia.
Qed.

Lemma iter_shr_1_digits (p : positive) (mrs : shr_record) :
  0 <= shr_m mrs ->
  0 <= shr_m (iter_pos shr_1 p mrs) /\
  Zdigits2 (shr_m (iter_pos shr_1 p mrs)) = Z.max 0 (Zdigits2 (shr_m mrs) - Zpos p).
Proof.
  revert mrs. induction p as [p IH | p IH |]; intros mrs Hm; cbn [iter_pos].
  - destruct (shr_1_digits mrs Hm) as [H1 E1].
    destruct (IH _ H1) as [H2 E2]. destruct (IH _ H2) as [H3 E3].
    split; [assumption|]. rewrite E3, E2, E1. lia.
  - destruct (IH _ Hm) as [H2 E2]. destruct (IH _ H2) as [H3 E3].
    split; [assumption|]. rewrite E3, E2. lia.
  - apply shr_1_digits; assumption.
Qed.

Lemma shr_record_of_loc_m (m : Z) (l : location) : shr_m (shr_record_of_loc m l) = m.
Proof. destruct l as [|[]]; reflexivity. Qed.

Section ShrFexp.
Variables prec emax : Z.

(** One scaling step: the exponent it picks and the digits it leaves. *)
Lemma shr_fexp_digits (m e : Z) (l : location) :
  0 <= m ->
  let D := Zdigits2 m + e in
  let r := shr_fexp prec emax m e l in
  0 <= shr_m (fst r) /\
  snd r = Z.max e (fexp prec emax D) /\
  Zdigits2 (shr_m (fst r)) = Z.max 0 (D - snd r).
Proof.
  intros Hm D r. subst r. unfold shr_fexp. fold D.
  pose proof (Zdigits2_nonneg m) as Hd.
  unfold shr. destruct (fexp prec emax D - e) as [|p|p] eqn:En; cbn [fst snd].
  - rewrite shr_record_of_loc_m. repeat split; [lia | lia | lia].
  - destruct (iter_shr_1_digits p (shr_record_of_loc m l)) as [H1 E1];
      [rewrite shr_record_of_loc_m; lia|].
    rewrite shr_record_of_loc_m in E1. repeat split; [lia | lia | lia].
  - rewrite shr_record_of_loc_m. repeat split; [lia | lia | lia].
Qed.
End ShrFexp.

Lemma round_nearest_even_bounds (m : Z) (l : location) :
  m <= round_nearest_even m l <= m + 1.
Proof.
  destruct l as [|[]]; cbn [round_nearest_even]; try lia.
  destruct (Z.even m); lia.
Qed.



Lemma binary_round_aux_shape (s : bool) (m e : Z) (l : location) :
  0 < m -> roundedShape s (Zdigits2 m + e) (binary_round_aux prec emax s m e l).
Proof.
  intros Hpos. assert (Hm : 0 <= m) by lia. set (D := Zdigits2 m + e).
  unfold binary_round_aux.
  pose proof (shr_fexp_digits prec emax m e l Hm) as H1. cbn zeta in H1. fold D in H1.
  destruct (shr_fexp prec emax m e l) as [mrs1 e1]. cbn [fst snd] in H1.
  destruct H1 as (Hm1 & He1 & Hd1).
  set (m2 := round_nearest_even (shr_m mrs1) (loc_of_shr_record mrs1)).
  pose proof (round_nearest_even_bounds (shr_m mrs1) (loc_of_shr_record mrs1)) as Hr.
  fold m2 in Hr.
  assert (Hm2 : 0 <= m2) by lia.
  pose proof (Zdigits2_mono (shr_m mrs1) m2 (conj Hm1 (proj1 Hr))) as Hlo.
  assert (Hhi : Zdigits2 m2 <= Zdigits2 (shr_m mrs1) + 1).
  { transitivity (Zdigits2 (shr_m mrs1 + 1)); [apply Zdigits2_mono; lia|].
    apply Zdigits2_succ; assumption. }
  pose proof (shr_fexp_digits prec emax m2 e1 loc_Exact Hm2) as H2. cbn zeta in H2.
  destruct (shr_fexp prec emax m2 e1 loc_Exact) as [mrs2 e2]. cbn [fst snd] in H2.
  destruct H2 as (Hm3 & He2 & Hd3).
  assert (Hdpos : 1 <= Zdigits2 m) by (destruct m; cbn; lia).
  unfold fexp, SpecFloat.emin, prec, emax in *.
  destruct (shr_m mrs2) as [|m3|m3] eqn:Em3; [| |lia].
  - cbn [Zdigits2] in Hd3. cbn [roundedShape]. split; [reflexivity | lia].
  - cbn [Zdigits2] in Hd3.
    destruct (Z.leb_spec e2 (1024 - 53)) as [Hle|Hgt];
      cbn [roundedShape]; unfold magnitude; repeat split; lia.
Qed.


Lemma iter_xO_pow2 (m d : positive) : Zpos (Pos.iter xO m d) = Zpos m * 2 ^ Zpos d.
Proof.
  induction d as [|d IH] using Pos.peano_ind.
  - cbn. lia.
  - rewrite Pos.iter_succ, Pos2Z.inj_xO, IH, Pos2Z.inj_succ, Z.pow_succ_r by lia. lia.
Qed.

(** Aligning to a lower exponent multiplies the mantissa by the power of
    two in between; to a higher one it does nothing. *)
Lemma shl_align_value (mx : positive) (ex ex' : Z) :
  let r := shl_align mx ex ex' in
  snd r = Z.min ex ex' /\ Zpos (fst r) = Zpos mx * 2 ^ (ex - snd r).
Proof.
  unfold shl_align. destruct (ex' - ex) as [|d|d] eqn:Ed; cbn [fst snd].
  - split; [lia|]. rewrite Z.sub_diag. cbn. lia.
  - split; [lia|]. rewrite Z.sub_diag. cbn. lia.
  - split; [lia|]. rewrite iter_xO_pow2. f_equal. f_equal. lia.
Qed.

Lemma shl_align_magnitude (mx : positive) (ex ex' : Z) :
  let r := shl_align mx ex ex' in
  magnitude (fst r) (snd r) = magnitude mx ex.
Proof.
  cbn zeta. destruct (shl_align_value mx ex ex') as [He Hm].
  unfold magnitude.
  change (Zpos (digits2_pos (fst (shl_align mx ex ex'))))
    with (Zdigits2 (Zpos (fst (shl_align mx ex ex')))).
  rewrite Hm, Zdigits2_mul_pow2 by lia. cbn [Zdigits2]. lia.
Qed.

(** Rounding a positive mantissa at an exponent: the same shape, at the
    magnitude of the input. *)
Lemma binary_round_shape (s : bool) (m : positive) (e : Z) :
  roundedShape s (magnitude m e) (binary_round prec emax s m e).
Proof.
  unfold binary_round.
  pose proof (shl_align_magnitude m e (fexp prec emax (Zpos (digits2_pos m) + e))) as Hmag.
  cbn zeta in Hmag.
  destruct (shl_align m e (fexp prec emax (Zpos (digits2_pos m) + e))) as [mz ez].
  cbn [fst snd] in Hmag. rewrite <- Hmag.
  apply (binary_round_aux_shape s (Zpos mz) ez loc_Exact). lia.
Qed.


Lemma digits_ge_1 (m : positive) : 1 <= Zpos (digits2_pos m).
Proof. lia. Qed.

(** ** Products *)

Lemma Zdigits2_mul_lb (a b : Z) :
  0 < a -> 0 < b -> Zdigits2 a + Zdigits2 b - 1 <= Zdigits2 (a * b).
Proof.
  intros Ha Hb.
  assert (Hda : 1 <= Zdigits2 a) by (destruct a; cbn; lia).
  assert (Hdb : 1 <= Zdigits2 b) by (destruct b; cbn; lia).
  assert (Hx : 2 ^ (Zdigits2 a - 1) <= a) by (apply Zdigits2_ge_iff; lia).
  assert (Hy : 2 ^ (Zdigits2 b - 1) <= b) by (apply Zdigits2_ge_iff; lia).
  apply Zdigits2_ge_iff; try nia.
  replace (Zdigits2 a + Zdigits2 b - 1 - 1)
    with ((Zdigits2 a - 1) + (Zdigits2 b - 1)) by lia.
  rewrite Z.pow_add_r by lia.
  apply Z.mul_le_mono_nonneg; try assumption; apply Z.pow_nonneg; lia.
Qed.

Lemma mul_finite_shape (sx sy : bool) (mx my : positive) (ex ey : Z) :
  exists D,
    magnitude mx ex + magnitude my ey - 1 <= D <= magnitude mx ex + magnitude my ey /\
    roundedShape (xorb sx sy) D (mul (S754_finite sx mx ex) (S754_finite sy my ey)).
Proof.
  exists (Zdigits2 (Zpos mx * Zpos my) + (ex + ey)). split.
  - unfold magnitude.
    pose proof (Zdigits2_mul (Zpos mx) (Zpos my) eq_refl eq_refl) as Hub.
    pose proof (Zdigits2_mul_lb (Zpos mx) (Zpos my) eq_refl eq_refl) as Hlb.
    change (Zdigits2 (Zpos mx)) with (Zpos (digits2_pos mx)) in *.
    change (Zdigits2 (Zpos my)) with (Zpos (digits2_pos my)) in *.
    lia.
  - apply (binary_round_aux_shape (xorb sx sy) (Zpos mx * Zpos my) (ex + ey) loc_Exact).
    lia.
Qed.

(** The product of two bounded values is bounded: no overflow, no NaN. *)
Lemma mul_finiteBelow (a b : Z) (x y : number) :
  finiteBelow a x -> finiteBelow b y -> -1074 <= a + b <= 971 ->
  finiteBelow (a + b + 1) (mul x y).
Proof.
  destruct x as [sx | sx | | sx mx ex]; destruct y as [sy | sy | | sy my ey];
    cbn [finiteBelow]; try contradiction; try (intros; exact I).
  intros Hx Hy Hab.
  destruct (mul_finite_shape sx sy mx my ex ey) as (D & HD & Hshape).
  destruct (mul _ _) as [s | s | | s m e]; cbn [roundedShape finiteBelow] in *; lia.
Qed.


(** The sign of a product of finite values is the product of the signs,
    also when it overflows or underflows. *)
Lemma mul_finite_sign (sx sy : bool) (mx my : positive) (ex ey : Z) :
  hasSign (xorb sx sy) (mul (S754_finite sx mx ex) (S754_finite sy my ey)).
Proof.
  destruct (mul_finite_shape sx sy mx my ex ey) as (D & _ & Hshape).
  destruct (mul _ _); cbn [roundedShape hasSign] in *; tauto.
Qed.

(** ** Sums *)

Lemma add_finite_shape (sx sy : bool) (mx my : positive) (ex ey : Z) :
  let ez := Z.min ex ey in
  let S := cond_Zopp sx (Zpos mx * 2 ^ (ex - ez)) + cond_Zopp sy (Zpos my * 2 ^ (ey - ez)) in
  let r := add (S754_finite sx mx ex) (S754_finite sy my ey) in
  (S = 0 -> r = S754_zero false) /\
  (S <> 0 -> roundedShape (S <? 0) (Zdigits2 S + ez) r).
Proof.
  intros ez S r. subst r. unfold add, SFadd. fold ez.
  destruct (shl_align_value mx ex ez) as [Hex HX].
  destruct (shl_align_value my ey ez) as [Hey HY].
  rewrite HX, HY, Hex, Hey.
  replace (Z.min ex ez) with ez by lia. replace (Z.min ey ez) with ez by lia.
  fold S. unfold binary_normalize.
  destruct S as [|p|p]; split; try congruence; intros _.
  - apply binary_round_shape.
  - apply binary_round_shape.
Qed.

Lemma scaled_lt (m : positive) (j : Z) :
  0 <= j -> Zpos m * 2 ^ j < 2 ^ (Zpos (digits2_pos m) + j).
Proof.
  intros Hj. rewrite Z.pow_add_r by lia.
  apply Z.mul_lt_mono_pos_r; [apply Z.pow_pos_nonneg; lia|].
  apply (Zdigits2_le_iff (Zpos m)); cbn [Zdigits2]; lia.
Qed.

Lemma scaled_ge (m : positive) (j : Z) :
  0 <= j -> 2 ^ (Zpos (digits2_pos m) - 1 + j) <= Zpos m * 2 ^ j.
Proof.
  intros Hj. rewrite Z.pow_add_r by lia.
  apply Z.mul_le_mono_nonneg_r; [apply Z.pow_nonneg; lia|].
  apply (Zdigits2_ge_iff (Zpos m)); cbn [Zdigits2]; lia.
Qed.

Lemma Zdigits2_abs_le (S k : Z) : S <> 0 -> 0 <= k -> Z.abs S < 2 ^ k -> Zdigits2 S <= k.
Proof.
  intros HS Hk Hlt. destruct S as [|p|p]; [contradiction | |];
    apply (Zdigits2_le_iff (Zpos p)); lia.
Qed.

Lemma finiteBelow_mono (a b : Z) (x : number) : a <= b -> finiteBelow a x -> finiteBelow b x.
Proof. destruct x; cbn; try tauto. lia. Qed.

(** The sum of two bounded values is bounded: no overflow, no NaN. *)
Lemma add_finiteBelow (a : Z) (x y : number) :
  finiteBelow a x -> finiteBelow a y -> -1075 <= a <= 969 ->
  finiteBelow (a + 2) (add x y).
Proof.
  destruct x as [sx | sx | | sx mx ex]; destruct y as [sy | sy | | sy my ey];
    cbn [finiteBelow]; try contradiction; intros Hx Hy Ha.
  - destruct sx, sy; exact I.
  - change (magnitude my ey <= a + 2). lia.
  - change (magnitude mx ex <= a + 2). lia.
  - destruct (add_finite_shape sx sy mx my ex ey) as [Hzero Hshape].
    set (ez := Z.min ex ey) in *.
    set (X := Zpos mx * 2 ^ (ex - ez)) in *. set (Y := Zpos my * 2 ^ (ey - ez)) in *.
    set (S := cond_Zopp sx X + cond_Zopp sy Y) in *.
    destruct (Z.eq_dec S 0) as [E0|N0]; [rewrite (Hzero E0); exact I|].
    specialize (Hshape N0).
    assert (HX : 0 < X < 2 ^ (a - ez)).
    { split; [apply Z.mul_pos_pos; [lia | apply Z.pow_pos_nonneg; lia]|].
      apply Z.lt_le_trans with (2 ^ (Zpos (digits2_pos mx) + (ex - ez)));
        [apply scaled_lt; lia | apply Z.pow_le_mono_r; unfold magnitude in *; lia]. }
    assert (HY : 0 < Y < 2 ^ (a - ez)).
    { split; [apply Z.mul_pos_pos; [lia | apply Z.pow_pos_nonneg; lia]|].
      apply Z.lt_le_trans with (2 ^ (Zpos (digits2_pos my) + (ey - ez)));
        [apply scaled_lt; lia | apply Z.pow_le_mono_r; unfold magnitude in *; lia]. }
    assert (Ha0 : 0 <= a - ez) by (unfold magnitude in *; lia).
    assert (HD : Zdigits2 S + ez <= a + 1).
    { assert (Zdigits2 S <= a - ez + 1); [|lia].
      apply Zdigits2_abs_le; [assumption | lia |].
      replace (a - ez + 1) with (Z.succ (a - ez)) by lia.
      rewrite Z.pow_succ_r by lia.
      unfold S. destruct sx, sy; cbn [cond_Zopp]; lia. }
    destruct (add _ _) as [s | s | | s m e]; cbn [roundedShape finiteBelow] in *; lia.
Qed.

(** Adding a small value to a positive one leaves it positive: [x] at
    least [2^(k-1)] and [y] below [2^(k-2)] in absolute value. *)
Lemma add_positiveAbove (k b : Z) (x y : number) :
  positiveAbove k x -> finiteBelow b x -> finiteBelow (k - 2) y ->
  -1072 <= k -> b <= 969 ->
  positiveAbove (k - 1) (add x y).
Proof.
  intros Hpos Hx Hy Hk Hb.
  assert (Hsum : finiteBelow (b + 2) (add x y)).
  { assert (k <= b)
      by (destruct x as [| | |[] mx ex]; cbn in *; try contradiction; lia).
    apply add_finiteBelow; try assumption; try lia.
    apply finiteBelow_mono with (k - 2); [lia | assumption]. }
  destruct x as [sx | sx | | sx mx ex]; try contradiction.
  destruct sx; [contradiction|]. cbn [positiveAbove finiteBelow] in Hpos, Hx.
  destruct y as [sy | sy | | sy my ey]; cbn [finiteBelow] in Hy; try contradiction.
  - change (k - 1 <= magnitude mx ex). lia.
  - destruct (add_finite_shape false sy mx my ex ey) as [Hzero Hshape].
    set (ez := Z.min ex ey) in *.
    set (X := Zpos mx * 2 ^ (ex - ez)) in *. set (Y := Zpos my * 2 ^ (ey - ez)) in *.
    cbn [cond_Zopp] in *.
    set (S := X + cond_Zopp sy Y) in *.
    unfold magnitude in *.
    assert (Hk2 : 0 <= k - 2 - ez) by lia.
    assert (HX : 2 ^ (k - 1 - ez) <= X).
    { apply Z.le_trans with (2 ^ (Zpos (digits2_pos mx) - 1 + (ex - ez)));
        [apply Z.pow_le_mono_r; lia | apply scaled_ge; lia]. }
    assert (HY : 0 < Y < 2 ^ (k - 2 - ez)).
    { split; [apply Z.mul_pos_pos; [lia | apply Z.pow_pos_nonneg; lia]|].
      apply Z.lt_le_trans with (2 ^ (Zpos (digits2_pos my) + (ey - ez)));
        [apply scaled_lt; lia | apply Z.pow_le_mono_r; lia]. }
    replace (k - 1 - ez) with (Z.succ (k - 2 - ez)) in HX by lia.
    rewrite Z.pow_succ_r in HX by lia.
    assert (HS : 2 ^ (k - 2 - ez) <= S) by (unfold S; destruct sy; cbn [cond_Zopp]; lia).
    assert (HS0 : 0 < S) by (pose proof (Z.pow_pos_nonneg 2 (k - 2 - ez)); lia).
    assert (HD : k - 1 - ez <= Zdigits2 S).
    { apply Zdigits2_ge_iff; try lia. replace (k - 1 - ez - 1) with (k - 2 - ez) by lia.
      assumption. }
    assert (N0 : S <> 0) by lia. specialize (Hshape N0).
    replace (S <? 0) with false in Hshape by (symmetry; apply Z.ltb_ge; lia).
    destruct (add _ _) as [s | s | | s m e];
      cbn [roundedShape finiteBelow positiveAbove] in *; try lia; try contradiction.
    destruct Hshape as (-> & _ & Hlb). unfold magnitude in *. lia.
Qed.

(** ** Quotients, differences *)

(** Rounding a value of magnitude at most [K]: a zero or a finite double
    of magnitude at most [K + 1], also when the mantissa is 0. *)
Lemma binary_round_aux_below (s : bool) (m e : Z) (l : location) (K : Z) :
  0 <= m -> Zdigits2 m + e <= K -> -1074 <= K <= 971 ->
  finiteBelow (K + 1) (binary_round_aux prec emax s m e l).
Proof.
  intros Hm HD HK. unfold binary_round_aux.
  pose proof (shr_fexp_digits prec emax m e l Hm) as H1. cbn zeta in H1.
  destruct (shr_fexp prec emax m e l) as [mrs1 e1]. cbn [fst snd] in H1.
  destruct H1 as (Hm1 & He1 & Hd1).
  set (m2 := round_nearest_even (shr_m mrs1) (loc_of_shr_record mrs1)).
  pose proof (round_nearest_even_bounds (shr_m mrs1) (loc_of_shr_record mrs1)) as Hr.
  fold m2 in Hr.
  assert (Hm2 : 0 <= m2) by lia.
  assert (Hhi : Zdigits2 m2 <= Zdigits2 (shr_m mrs1) + 1).
  { transitivity (Zdigits2 (shr_m mrs1 + 1)); [apply Zdigits2_mono; lia|].
    apply Zdigits2_succ; assumption. }
  pose proof (shr_fexp_digits prec emax m2 e1 loc_Exact Hm2) as H2. cbn zeta in H2.
  destruct (shr_fexp prec emax m2 e1 loc_Exact) as [mrs2 e2]. cbn [fst snd] in H2.
  destruct H2 as (Hm3 & He2 & Hd3).
  pose proof (Zdigits2_nonneg m) as Hdm.
  unfold fexp, SpecFloat.emin, prec, emax in *.
  destruct (shr_m mrs2) as [|m3|m3] eqn:Em3; [exact I | | lia].
  cbn [Zdigits2] in Hd3.
  destruct (Z.leb_spec e2 (1024 - 53)) as [Hle|Hgt];
    cbn [finiteBelow]; unfold magnitude; lia.
Qed.

(** The quotient of the division core: its mantissa is not negative and
    its magnitude is at most one above the difference of the magnitudes. *)
Lemma SFdiv_core_binary_below (mx my : positive) (ex ey : Z) :
  let '(q, e', _) := SFdiv_core_binary prec emax (Zpos mx) ex (Zpos my) ey in
  0 <= q /\
  Zdigits2 q + e' <= Z.max (magnitude mx ex - magnitude my ey + 1) (-1074).
Proof.
  unfold SFdiv_core_binary. cbn [Zdigits2].
  set (d1 := Zpos (digits2_pos mx)). set (d2 := Zpos (digits2_pos my)).
  set (e' := Z.min (fexp prec emax (d1 + ex - (d2 + ey))) (ex - ey)).
  set (s := ex - ey - e').
  assert (Hs : 0 <= s) by (unfold s, e'; lia).
  set (m' := match s with Z.pos _ => Z.shiftl (Zpos mx) s | 0 => Zpos mx | Z.neg _ => 0 end).
  assert (Hm' : m' = Zpos mx * 2 ^ s).
  { unfold m'. destruct s as [|p|p]; [cbn; lia | | lia].
    rewrite Z.shiftl_mul_pow2 by lia. reflexivity. }
  pose proof (Z_div_mod m' (Zpos my) eq_refl) as Hdiv.
  destruct (Z.div_eucl m' (Zpos my)) as [q r]. destruct Hdiv as [Hq Hr].
  assert (Hpow : 0 < 2 ^ s) by (apply Z.pow_pos_nonneg; lia).
  assert (Hq0 : 0 <= q) by nia.
  split; [exact Hq0|].
  destruct (Z.eq_dec q 0) as [->|Hne].
  - cbn [Zdigits2]. unfold e', fexp, SpecFloat.emin, prec, emax, magnitude. fold d1 d2. lia.
  - assert (Hlt : m' < 2 ^ (d1 + s)) by (rewrite Hm'; apply scaled_lt; lia).
    assert (Hge : 2 ^ (d2 - 1) <= Zpos my).
    { apply (Zdigits2_ge_iff (Zpos my) d2); unfold d2; cbn [Zdigits2]; lia. }
    assert (Hd2 : 1 <= d2) by (unfold d2; lia).
    assert (Hp2 : 0 < 2 ^ (d2 - 1)) by (apply Z.pow_pos_nonneg; lia).
    assert (Hk : d2 - 1 < d1 + s).
    { apply (Z.pow_lt_mono_r_iff 2); [lia | lia | nia]. }
    assert (Hqlt : q < 2 ^ (d1 + s - d2 + 1)).
    { apply Z.mul_lt_mono_pos_r with (2 ^ (d2 - 1)); [assumption|].
      rewrite <- Z.pow_add_r by lia.
      replace (d1 + s - d2 + 1 + (d2 - 1)) with (d1 + s) by lia. nia. }
    assert (Hdq : Zdigits2 q <= d1 + s - d2 + 1) by (apply Zdigits2_le_iff; lia).
    unfold magnitude. fold d1 d2. unfold s in Hdq. lia.
Qed.

(** Dividing a bounded value by one that is bounded away from zero. *)
Lemma div_finiteBelow (a b : Z) (x y : number) :
  finiteBelow a x -> finiteAbove b y -> -1075 <= a - b <= 970 ->
  finiteBelow (a - b + 2) (div x y).
Proof.
  destruct x as [sx | sx | | sx mx ex]; destruct y as [sy | sy | | sy my ey];
    cbn [finiteBelow finiteAbove]; try contradiction; try (intros; exact I).
  intros Hx Hy Hab. unfold div, SFdiv.
  pose proof (SFdiv_core_binary_below mx my ex ey) as Hcore.
  destruct (SFdiv_core_binary prec emax (Zpos mx) ex (Zpos my) ey) as [[q e'] l].
  destruct Hcore as [Hq HD].
  replace (a - b + 2) with (a - b + 1 + 1) by lia.
  apply (binary_round_aux_below (xorb sx sy) q e' l (a - b + 1)); lia.
Qed.

(** Subtraction is the addition of the opposite, in every case. *)
Lemma sub_add_opp (x y : number) : sub x y = add x (SFopp y).
Proof.
  destruct x as [sx | sx | | sx mx ex]; destruct y as [sy | sy | | sy my ey];
    try reflexivity; destruct sx, sy; reflexivity.
Qed.

Lemma abs_finiteBelow (k : Z) (x : number) : finiteBelow k x -> finiteBelow k (abs x).
Proof. destruct x; cbn; auto. Qed.

Lemma opp_finiteBelow (k : Z) (x : number) : finiteBelow k x -> finiteBelow k (SFopp x).
Proof. destruct x; cbn; auto. Qed.

Lemma sub_finiteBelow (a : Z) (x y : number) :
  finiteBelow a x -> finiteBelow a y -> -1075 <= a <= 969 ->
  finiteBelow (a + 2) (sub x y).
Proof.
  intros Hx Hy Ha. rewrite sub_add_opp.
  apply add_finiteBelow; auto using opp_finiteBelow.
Qed.
End B64Facts.

(** ** Running one step *)

Section StepRun.
Context {N : Type} `{JsNum N}.
Local Open Scope num_scope.

(** A call draws one value, reads the clock once and returns the body of
    the step at that noise. *)
Lemma simulateStep_run (currentData : TelemetryData N) (targetLoad : N) (w : World N) :
  simulateStep currentData targetLoad w =
  (stepWithNoise (random_draws w (draws_used w) - dec 5 10)
     (clock_readings w (clock_reads w)) currentData targetLoad,
   {| random_draws := random_draws w; draws_used := S (draws_used w);
      clock_readings := clock_readings w; clock_reads := S (clock_reads w) |}).
Proof. reflexivity. Qed.

End StepRun.

(** ** The status of a sample *)

Section StatusFacts.
Local Open Scope num_scope.

Lemma thresholds_positive :
  B64.positiveFinite (THRESHOLDS_power_critical (N := B64.number)) /\
  B64.positiveFinite (THRESHOLDS_power_warning (N := B64.number)) /\
  B64.positiveFinite (THRESHOLDS_temperature_critical (N := B64.number)) /\
  B64.positiveFinite (THRESHOLDS_temperature_warning (N := B64.number)).
Proof. repeat split; eexists; eexists; vm_compute; reflexivity. Qed.

Lemma classify_floored_power (p t : B64.number) :
  classify (Math_max (of_Z 0) p) t = classify p t.
Proof.
  destruct thresholds_positive as (Hc & Hw & _).
  unfold classify. cbn [Math_max ngt of_Z binary64].
  rewrite B64Facts.ofZ_0, !B64Facts.gtb_max_zero by assumption.
  reflexivity.
Qed.

(** C1.  Whatever the previous sample, the target load, the value drawn
    by [Math.random] and the clock, the sample [simulateStep] returns
    carries the status that the threshold rule gives for the power and the
    temperature of that same sample.  (The code classifies the power before
    it is floored at 0; the floor never moves a value across a threshold.) *)
Theorem simulateStep_status_is_classification
    (currentData : TelemetryData B64.number) (targetLoad : B64.number)
    (w : World B64.number) :
  let sample := fst (simulateStep currentData targetLoad w) in
  status sample = classify (power sample) (temperature sample).
Proof.
  rewrite simulateStep_run. cbn [fst]. unfold stepWithNoise.
  cbn [status power temperature].
  rewrite classify_floored_power. reflexivity.
Qed.

(** C2.  The classification is a total function with the precedence of the
    rule: CRITICAL as soon as power > 6000 or temperature > 85; otherwise
    WARNING as soon as power > 3600 or temperature > 60; otherwise NOMINAL;
    with the four sample points of the specification. *)
Theorem classify_precedence :
  (forall p t : B64.number,
     classify p t = CRITICAL <->
     (p >? of_Z 6000) = true \/ (t >? of_Z 85) = true) /\
  (forall p t : B64.number,
     classify p t = WARNING <->
     ~ ((p >? of_Z 6000) = true \/ (t >? of_Z 85) = true) /\
     ((p >? of_Z 3600) = true \/ (t >? of_Z 60) = true)) /\
  (forall p t : B64.number,
     classify p t = NOMINAL <->
     ~ ((p >? of_Z 6000) = true \/ (t >? of_Z 85) = true) /\
     ~ ((p >? of_Z 3600) = true \/ (t >? of_Z 60) = true)) /\
  classify (N := B64.number) (of_Z 7000) (of_Z 10) = CRITICAL /\
  classify (N := B64.number) (of_Z 4000) (of_Z 10) = WARNING /\
  classify (N := B64.number) (of_Z 1000) (of_Z 10) = NOMINAL /\
  classify (N := B64.number) (of_Z 1000) (of_Z 90) = CRITICAL.
Proof.
  assert (Hcases : forall p t : B64.number,
    classify p t =
    if (p >? of_Z 6000) || (t >? of_Z 85) then CRITICAL
    else if (p >? of_Z 3600) || (t >? of_Z 60) then WARNING else NOMINAL)
    by reflexivity.
  split; [|split; [|split]];
    [intros p t; rewrite Hcases .. | repeat split; vm_compute; reflexivity];
    destruct (p >? of_Z 6000), (t >? of_Z 85), (p >? of_Z 3600), (t >? of_Z 60);
    cbn [orb]; intuition congruence.
Qed.
End StatusFacts.

Section NaNFacts.
Local Open Scope num_scope.

(** C10, as amended.  A NaN field makes its own two comparisons false and
    nothing more: with both fields NaN the status is NOMINAL; with one of
    them NaN the status is decided by the other field alone. *)
Theorem classify_nan :
  classify B64.NaN B64.NaN = NOMINAL /\
  (forall t : B64.number,
     classify B64.NaN t =
     if t >? of_Z 85 then CRITICAL else if t >? of_Z 60 then WARNING else NOMINAL) /\
  (forall p : B64.number,
     classify p B64.NaN =
     if p >? of_Z 6000 then CRITICAL else if p >? of_Z 3600 then WARNING else NOMINAL).
Proof.
  split; [reflexivity | split].
  - intros t. unfold classify. cbn [ngt binary64].
    rewrite !B64Facts.gtb_nan_l. reflexivity.
  - intros p. unfold classify. cbn [ngt binary64].
    rewrite !B64Facts.gtb_nan_l, !orb_false_r. reflexivity.
Qed.

(** A NaN power next to a temperature of 90 is CRITICAL. *)
Lemma classify_nan_not_always_nominal :
  ~ (forall p t : B64.number,
       B64.isNaN p = true \/ B64.isNaN t = true -> classify p t = NOMINAL).
Proof.
  intros Hall.
  specialize (Hall B64.NaN (of_Z 90) (or_introl eq_refl)).
  vm_compute in Hall. discriminate.
Qed.

(** C10 as stated fails inside the step: from a previous temperature that
    is NaN, at a load of 120 and without noise, the temperature of the
    sample is NaN and its status is CRITICAL (the power is 8424). *)
Lemma step_nan_temperature_critical :
  let prev := {| timestamp := of_Z 0; voltage := of_Z 240; current := of_Z 0;
                 power := of_Z 0; temperature := B64.NaN; frequency := of_Z 60;
                 efficiency := of_Z 100; status := NOMINAL |} in
  let sample := stepWithNoise (of_Z 0) (of_Z 0) prev (of_Z 120) in
  B64.isNaN (temperature sample) = true /\ status sample <> NOMINAL.
Proof. vm_compute. split; [reflexivity | discriminate]. Qed.
End NaNFacts.

(** ** One draw per step *)

Section OneDraw.
Context {N : Type} `{JsNum N}.
Local Open Scope num_scope.

(** C9.  One call of [simulateStep] consumes exactly one value of
    [Math.random]; with [n] that value minus 0.5, the voltage, current,
    temperature, frequency and efficiency of the sample are the formulas
    of the model at that one [n]; hence two calls that see the same
    previous sample, target load, drawn value and clock reading return the
    same sample, whatever else their worlds hold. *)
Theorem simulateStep_single_draw
    (currentData : TelemetryData N) (targetLoad : N) (w1 w2 : World N) :
  random_draws w1 (draws_used w1) = random_draws w2 (draws_used w2) ->
  clock_readings w1 (clock_reads w1) = clock_readings w2 (clock_reads w2) ->
  let n := random_draws w1 (draws_used w1) - dec 5 10 in
  let loadFactor := targetLoad / of_Z 100 in
  let sample := fst (simulateStep currentData targetLoad w1) in
  draws_used (snd (simulateStep currentData targetLoad w1)) = S (draws_used w1) /\
  random_draws (snd (simulateStep currentData targetLoad w1)) = random_draws w1 /\
  voltage sample = Math_max (of_Z 0) (of_Z 240 - loadFactor * of_Z 5 + n * dec 15 10) /\
  current sample = Math_max (of_Z 0) (of_Z 30 * loadFactor + n * dec 2 10) /\
  temperature sample =
    temperature currentData
    + (of_Z 25 + loadFactor * of_Z 60 - temperature currentData) * dec 5 100
    + n * dec 1 10 /\
  frequency sample = of_Z 60 + n * dec 1 10 /\
  efficiency sample =
    (let eff := of_Z 95 - Math_abs (loadFactor - dec 5 10) * of_Z 10 + n * dec 5 10 in
     if eff >? of_Z 100 then of_Z 100 else eff) /\
  fst (simulateStep currentData targetLoad w2) = sample.
Proof.
  intros Hdraw Hclock. rewrite !simulateStep_run. cbn [fst snd draws_used random_draws].
  rewrite <- Hdraw, <- Hclock.
  repeat split; reflexivity.
Qed.
End OneDraw.

Lemma simulateStep_single_draw_example :
  let w1 := constantWorld (N := B64.number) (dec 75 100) (of_Z 1000) in
  let w2 := {| random_draws := fun i => match i with O => of_Z 0 | _ => dec 75 100 end;
               draws_used := 1;
               clock_readings := fun _ => of_Z 1000; clock_reads := 7 |} in
  fst (simulateStep (MOCK_INITIAL_DATA (of_Z 0)) (of_Z 40) w2) =
  fst (simulateStep (MOCK_INITIAL_DATA (of_Z 0)) (of_Z 40) w1).
Proof.
  intros w1 w2.
  apply (simulateStep_single_draw (MOCK_INITIAL_DATA (of_Z 0)) (of_Z 40) w1 w2);
    reflexivity.
Defined.

(** ** The history buffer *)

Section History.
Context {N : Type} `{JsNum N}.

Lemma last_default (A : Type) (l : list A) (d d' : A) :
  l <> [] -> last l d = last l d'.
Proof.
  induction l as [|a [|b l] IH]; intros Hne; [contradiction | reflexivity |].
  change (last (b :: l) d = last (b :: l) d'). apply IH. discriminate.
Qed.

Lemma last_app_nonempty (A : Type) (l1 l2 : list A) (d : A) :
  l2 <> [] -> last (l1 ++ l2) d = last l2 d.
Proof.
  intros Hne. induction l1 as [|a l1 IH]; [reflexivity|].
  cbn [app]. destruct (l1 ++ l2) eqn:E; [|exact IH].
  destruct l1, l2; try discriminate; contradiction.
Qed.

Lemma last_skipn (A : Type) (l : list A) (k : nat) (d : A) :
  k < List.length l -> last (skipn k l) d = last l d.
Proof.
  revert k. induction l as [|a l IH]; intros k Hk; [cbn in Hk; lia|].
  destruct k as [|k]; [reflexivity|].
  cbn [skipn]. cbn [List.length] in Hk. rewrite IH by lia.
  destruct l; [cbn in Hk; lia | reflexivity].
Qed.

Lemma produced_length (k : nat) (d : TelemetryData N) (load : N) (w : World N) :
  List.length (produced k d load w) = k.
Proof.
  revert d w. induction k as [|k IH]; intros d w; cbn [produced].
  - reflexivity.
  - rewrite simulateStep_run. cbn [List.length]. now rewrite IH.
Qed.

Lemma slice1_append (A : Type) (h : list A) (x : A) (rest : list A) (k : nat) :
  h <> [] -> skipn k ((tl h ++ [x]) ++ rest) = skipn (S k) (h ++ x :: rest).
Proof.
  intros Hne. destruct h as [|a h]; [contradiction|].
  cbn [tl skipn app]. now rewrite <- app_assoc.
Qed.

Lemma tick_run (s : SystemState N) (w : World N) :
  tick s w =
  (let d1 := fst (simulateStep (data s) (targetLoad s) w) in
   {| isConnected := isConnected s; simulationActive := simulationActive s;
      targetLoad := targetLoad s; data := d1;
      history := tl (history s) ++ [d1] |},
   snd (simulateStep (data s) (targetLoad s) w)).
Proof. reflexivity. Qed.

Lemma ticks_succ (k : nat) (s : SystemState N) (w : World N) :
  simulationActive s = true -> isConnected s = true ->
  ticks (S k) s w = ticks k (fst (tick s w)) (snd (tick s w)).
Proof.
  intros Hact Hcon. cbn [ticks]. unfold bind, onInterval.
  rewrite Hact, Hcon. cbn [andb]. now destruct (tick s w).
Qed.

Lemma produced_succ (k : nat) (d : TelemetryData N) (load : N) (w : World N) :
  produced (S k) d load w =
  fst (simulateStep d load w)
  :: produced k (fst (simulateStep d load w)) load (snd (simulateStep d load w)).
Proof. cbn [produced]. now destruct (simulateStep d load w). Qed.

(** What [k] period boundaries do to a running, connected state: the
    flags and the load stay, the history is the old one followed by the
    produced samples with its [k] oldest entries dropped, and the current
    sample is the newest produced one. *)
Lemma ticks_running (k : nat) (s : SystemState N) (w : World N) :
  simulationActive s = true -> isConnected s = true -> history s <> [] ->
  let s' := fst (ticks k s w) in
  let made := produced k (data s) (targetLoad s) w in
  history s' = skipn k (history s ++ made) /\
  data s' = last made (data s) /\
  simulationActive s' = true /\ isConnected s' = true /\
  targetLoad s' = targetLoad s.
Proof.
  revert s w. induction k as [|k IH]; intros s w Hact Hcon Hne.
  - cbn. rewrite app_nil_r. auto.
  - cbn zeta. rewrite ticks_succ, produced_succ by assumption.
    rewrite tick_run. cbn [fst snd].
    set (d1 := fst (simulateStep (data s) (targetLoad s) w)).
    set (w1 := snd (simulateStep (data s) (targetLoad s) w)).
    set (s1 := Build_SystemState _ _ _ _ _).
    assert (Hne1 : history s1 <> [])
      by (unfold s1; cbn; now destruct (tl (history s))).
    destruct (IH s1 w1 Hact Hcon Hne1) as (Hh & Hd & Ha & Hc & Hl).
    repeat split; try assumption.
    + rewrite Hh. unfold s1. cbn [history data targetLoad].
      now apply slice1_append.
    + rewrite Hd. unfold s1. cbn [data targetLoad].
      destruct (produced k d1 (targetLoad s) w1) as [|x rest]; [reflexivity|].
      change (last (x :: rest) d1 = last (x :: rest) (data s)).
      apply last_default. discriminate.
Qed.

(** C7.  From the initial state, whose history holds 60 copies of the seed
    sample, after any [k] ticks: the history has exactly 60 entries; it is
    the seed copies followed by the produced samples in the order they were
    produced, without its [k] oldest entries; and its last entry is the
    current sample. *)
Theorem history_after_ticks (k : nat) (loaded_at : N) (w : World N) :
  let s := fst (ticks k (initialState loaded_at) w) in
  let seed := MOCK_INITIAL_DATA loaded_at in
  List.length (history s) = 60 /\
  history s = skipn k (repeat seed 60 ++ produced k seed (of_Z 40) w) /\
  last (history s) seed = data s.
Proof.
  cbn zeta.
  destruct (ticks_running k (initialState loaded_at) w eq_refl eq_refl)
    as (Hh & Hd & _); [discriminate|].
  cbn [initialState history data targetLoad] in Hh, Hd.
  unfold MAX_HISTORY_LENGTH in Hh.
  set (seed := MOCK_INITIAL_DATA loaded_at) in *.
  set (made := produced k seed (of_Z 40) w) in *.
  assert (Hlen : List.length made = k) by apply produced_length.
  rewrite Hh, Hd. repeat split.
  - rewrite length_skipn, length_app, repeat_length. lia.
  - rewrite last_skipn by (rewrite length_app, repeat_length; lia).
    destruct made as [|x made'] eqn:Hm.
    + reflexivity.
    + rewrite last_app_nonempty by discriminate. apply last_default.
      discriminate.
Qed.
End History.

(** ** The load control *)

Section LoadControl.
Local Open Scope string_scope.

(** The white space [parseInt] skips is not ASCII only: a no-break
    space, a byte order mark, a line or a paragraph separator before the
    digits are skipped as a space is. *)
Lemma parseInt_skips_unicode_space :
  let text (bytes : list N) (rest : string) : string :=
    fold_right (fun b s => String (ascii_of_N b) s) rest bytes in
  ParseInt.parseInt (text [194; 160]%N "42") = of_Z 42 /\
  ParseInt.parseInt (text [239; 187; 191]%N "7") = of_Z 7 /\
  ParseInt.parseInt (text [226; 128; 168]%N "5") = of_Z 5 /\
  ParseInt.parseInt (text [226; 128; 169]%N "5") = of_Z 5 /\
  ParseInt.parseInt (text [32; 194; 160; 9; 227; 128; 128]%N "-12px") = of_Z (-12).
Proof. repeat split; vm_compute; reflexivity. Qed.

(** C4, as amended.  The handler has no validation and no error to
    signal: it stores [parseInt] of the text it is given as the target
    load, in range or not (150 for "150", -5 for "-5", 3 for "3.7", NaN
    for a text without digits), and leaves every other field of the state
    as it was.  The range 0..120 is kept by the slider of the page only.
    Stated of the texts of ASCII characters, among them every value the
    slider reports. *)
Theorem handleLoadChange_stores_any_value :
  (forall (value : string) (prev : SystemState B64.number),
     ParseInt.asciiText value = true ->
     targetLoad (handleLoadChange value prev) = ParseInt.parseInt value /\
     isConnected (handleLoadChange value prev) = isConnected prev /\
     simulationActive (handleLoadChange value prev) = simulationActive prev /\
     data (handleLoadChange value prev) = data prev /\
     history (handleLoadChange value prev) = history prev) /\
  ParseInt.parseInt "150" = of_Z 150 /\
  ParseInt.parseInt "-5" = of_Z (-5) /\
  ParseInt.parseInt "3.7" = of_Z 3 /\
  ParseInt.parseInt "abc" = B64.NaN /\
  ParseInt.parseInt "50" = of_Z 50.
Proof.
  split; [intros value prev Hascii; repeat split|].
  repeat split; vm_compute; reflexivity.
Qed.

(** A text with a space before the sign: -5 is stored. *)
Lemma handleLoadChange_stores_any_value_example :
  ParseInt.asciiText " -5" = true /\
  targetLoad (handleLoadChange " -5" (initialState (of_Z 0))) = of_Z (-5).
Proof.
  split; [reflexivity|].
  rewrite (proj1 (proj1 handleLoadChange_stores_any_value " -5"
                    (initialState (of_Z 0)) eq_refl)).
  vm_compute. reflexivity.
Defined.

(** C4 as stated fails: a load of 150 is stored, not rejected. *)
Lemma handleLoadChange_accepts_150 :
  targetLoad (handleLoadChange "150" (initialState (of_Z 0))) = of_Z 150 /\
  targetLoad (handleLoadChange "150" (initialState (of_Z 0)))
  <> targetLoad (initialState (N := B64.number) (of_Z 0)).
Proof. split; vm_compute; [reflexivity | discriminate]. Qed.
End LoadControl.

(** ** The diagnostics call *)

Module GeminiFacts.
Import GeminiService.
Local Open Scope string_scope.

Section Fallback.
Variable API_KEY : option string.
Variable toFixed : B64.number -> nat -> string.
Variable generateContent : string -> attempt (option string).
Variable JSON_parse : string -> option json.

Lemma requestFails_throws (telemetry : TelemetryData B64.number) :
  requestFails toFixed generateContent JSON_parse telemetry ->
  exists e, requestReport toFixed generateContent JSON_parse telemetry = inl e.
Proof.
  unfold requestReport.
  intros [e He | text He Hempty | text He Hparse | text He Hparse]; rewrite He; cbn.
  - eauto.
  - rewrite Hempty. cbn. eauto.
  - destruct (String.eqb text ""); cbn; [eauto|]. rewrite Hparse. cbn. eauto.
  - destruct (String.eqb text ""); cbn; [eauto|]. rewrite Hparse. cbn. eauto.
Qed.

(** These are all the ways: whenever the [try] block throws, it is for
    one of them. *)
Lemma throws_requestFails (telemetry : TelemetryData B64.number) (e : exception) :
  requestReport toFixed generateContent JSON_parse telemetry = inl e ->
  requestFails toFixed generateContent JSON_parse telemetry.
Proof.
  unfold requestReport.
  destruct (generateContent (prompt toFixed telemetry)) as [e0 | text] eqn:Hcall.
  - intros _. eapply call_rejected. exact Hcall.
  - cbn [andThen]. destruct (truthy text) eqn:Htext.
    + destruct text as [text|]; [|discriminate Htext]. cbn [andThen].
      destruct (JSON_parse text) as [data|] eqn:Hparse.
      * destruct data; cbn; try discriminate.
        intros _. eapply null_payload; eassumption.
      * intros _. eapply unparsable_payload; eassumption.
    + intros _. eapply empty_response; eassumption.
Qed.

(** C3, as amended.  With a credential present the call never throws: it
    is fulfilled for every reply, and with exactly the fallback report when
    the request is rejected, the response is empty, the payload is not
    JSON, or the payload is [null].  With the credential missing (undefined
    or the empty string) the check ahead of the [try] block throws, and
    the promise is rejected with the error "API Key is missing. ...". *)
Theorem generateDiagnostics_failures (telemetry : TelemetryData B64.number) :
  (truthy API_KEY = true ->
     (exists report,
        generateDiagnostics API_KEY toFixed generateContent JSON_parse telemetry
        = Fulfilled report) /\
     (requestFails toFixed generateContent JSON_parse telemetry ->
        generateDiagnostics API_KEY toFixed generateContent JSON_parse telemetry
        = Fulfilled fallbackReport)) /\
  (truthy API_KEY = false ->
     generateDiagnostics API_KEY toFixed generateContent JSON_parse telemetry
     = Rejected (Error "API Key is missing. Please check your environment configuration.")).
Proof.
  unfold generateDiagnostics. split; intros Hkey; rewrite Hkey; cbn [negb].
  - split; [eauto|]. intros Hfail.
    destruct (requestFails_throws telemetry Hfail) as (e & ->). reflexivity.
  - reflexivity.
Qed.
End Fallback.

(** Stand-ins for the collaborators: a service that rejects every call,
    and a parser that accepts nothing. *)
Lemma generateDiagnostics_failures_example :
  generateDiagnostics (Some "key") (fun _ _ => "0.00") (fun _ => inl ApiFailure)
    (fun _ => None) (MOCK_INITIAL_DATA (of_Z 0))
  = Fulfilled fallbackReport.
Proof.
  apply (generateDiagnostics_failures (Some "key") (fun _ _ => "0.00")
           (fun _ => inl ApiFailure) (fun _ => None) (MOCK_INITIAL_DATA (of_Z 0))).
  - reflexivity.
  - apply call_rejected with (e := ApiFailure). reflexivity.
Defined.

(** C3 as stated fails: without a credential the function throws, for a
    service that would have failed as well as for any other. *)
Lemma generateDiagnostics_throws_without_key :
  generateDiagnostics None (fun _ _ => "0.00") (fun _ => inl ApiFailure)
    (fun _ => None) (MOCK_INITIAL_DATA (of_Z 0))
  <> Fulfilled fallbackReport.
Proof. cbv. discriminate. Qed.

(** A payload that is JSON but not a report is passed on as it is: the
    fallback is not substituted for missing members. *)
Lemma generateDiagnostics_empty_object :
  generateDiagnostics (Some "key") (fun _ _ => "0.00") (fun _ => inr (Some "{}"))
    (fun _ => Some (JObject [])) (MOCK_INITIAL_DATA (of_Z 0))
  = Fulfilled {| status := None; analysis := None; recommendation := None;
                 estimatedTimeUntilFailure := None |}.
Proof. reflexivity. Qed.
End GeminiFacts.

(** ** Bounds on what a step returns *)

Module StepBounds.
Import B64 B64Facts.
Local Open Scope Z_scope.

Lemma finiteBelowb_spec (k : Z) (x : number) : finiteBelowb k x = true -> finiteBelow k x.
Proof. destruct x; cbn; try discriminate; auto. intros H. apply Z.leb_le. exact H. Qed.

Lemma positiveAboveb_spec (k : Z) (x : number) :
  positiveAboveb k x = true -> positiveAbove k x.
Proof.
  destruct x as [| | |[] m e]; cbn; try discriminate. intros H. apply Z.leb_le. exact H.
Qed.

Lemma finiteBelow_not_nan (k : Z) (x : number) : finiteBelow k x -> isNaN x = false.
Proof. destruct x; cbn; tauto. Qed.

Lemma hasSign_not_nan (s : bool) (x : number) : hasSign s x -> isNaN x = false.
Proof. destruct x; cbn; tauto. Qed.

(** Comparing the other way round gives the opposite answer. *)
Lemma SFcompare_antisym (x y : number) :
  SFcompare y x = option_map CompOpp (SFcompare x y).
Proof.
  destruct x as [sx | sx | | sx mx ex]; destruct y as [sy | sy | | sy my ey];
    try reflexivity; try (destruct sx; reflexivity); try (destruct sy; reflexivity);
    try (destruct sx, sy; reflexivity).
  unfold SFcompare.
  destruct sx, sy; try reflexivity; cbn [option_map]; f_equal;
    rewrite (Z.compare_antisym ex ey); destruct (ex ?= ey); cbn [CompOpp]; try reflexivity;
    change (Pos.compare_cont Eq ?a ?b) with (Pos.compare a b);
    rewrite (Pos.compare_antisym mx my); destruct (mx ?= my)%positive; reflexivity.
Qed.

Lemma leb_of_not_gtb (x c : number) :
  isNaN x = false -> isNaN c = false -> gtb x c = false -> leb x c = true.
Proof.
  unfold gtb, leb, SFltb, SFleb. rewrite (SFcompare_antisym x c).
  destruct (SFcompare x c) as [[]|] eqn:E; cbn; try congruence.
  destruct x, c; cbn in *; try discriminate; try destruct s; try destruct s0; discriminate.
Qed.

Lemma half_eq : half = S754_finite false 4503599627370496 (-53).
Proof. vm_compute. reflexivity. Qed.

Lemma valid_finite (s : bool) (m : positive) (e : Z) :
  valid (S754_finite s m e) = true -> Zpos (digits2_pos m) <= 53 /\ -1074 <= e.
Proof.
  unfold valid, valid_binary, bounded, canonical_mantissa, fexp, SpecFloat.emin, prec, emax.
  rewrite andb_true_iff, Z.eqb_eq, Z.leb_le. lia.
Qed.

(** A noise in [-0.5, 0.5) is a zero or a finite double below 1 in
    absolute value. *)
Lemma noise_finiteBelow (n : number) : inNoiseRange n = true -> finiteBelow 0 n.
Proof.
  unfold inNoiseRange. rewrite half_eq, !andb_true_iff. intros [[Hv Hlo] Hhi].
  destruct n as [s | s | | s m e]; cbn [finiteBelow].
  - exact I.
  - destruct s; cbn in Hlo, Hhi; discriminate.
  - cbn in Hlo. discriminate.
  - destruct (valid_finite s m e Hv) as [Hd He]. unfold magnitude.
    destruct s.
    + unfold leb, SFleb, SFopp, SFcompare in Hlo. cbn [negb] in Hlo.
      destruct (Z.compare_spec (-53) e) as [E | L | G]; try discriminate; lia.
    + unfold ltb, SFltb, SFcompare in Hhi.
      destruct (Z.compare_spec e (-53)) as [E | L | G]; try discriminate; lia.
Qed.

Lemma one_eq : ofZ 1 = S754_finite false 4503599627370496 (-52).
Proof. vm_compute. reflexivity. Qed.

Lemma unit_finiteBelow (r : number) : inUnitInterval r = true -> finiteBelow 0 r.
Proof.
  unfold inUnitInterval. rewrite one_eq, !andb_true_iff. intros [[Hv Hlo] Hhi].
  destruct r as [s | s | | s m e]; cbn [finiteBelow].
  - exact I.
  - destruct s; cbn in Hlo, Hhi; discriminate.
  - cbn in Hlo. discriminate.
  - destruct (valid_finite s m e Hv) as [Hd He]. unfold magnitude.
    destruct s; [cbn in Hlo; discriminate|].
    unfold ltb, SFltb, SFcompare in Hhi.
    destruct (Z.compare_spec e (-52)) as [E | L | G]; try discriminate; try lia.
    subst e.
    assert (Zpos (digits2_pos m) <= 52); [|lia].
    apply (Zdigits2_le_iff (Zpos m) 52); try lia.
    replace (2 ^ 52) with 4503599627370496 by (vm_compute; reflexivity).
    apply Pos2Z.pos_lt_pos.
    rewrite Pos.compare_cont_spec in Hhi.
    destruct (Pos.compare_spec m 4503599627370496) as [E | L | G];
      cbn [Pos.switch_Eq] in Hhi; try discriminate.
    exact L.
Qed.

(** *** [Math.max(0, x)] *)

Lemma max_zero_positive (k : Z) (x : number) :
  positiveAbove k x -> max (S754_zero false) x = x.
Proof. destruct x as [| | |[] m e]; cbn; tauto. Qed.

Lemma max_zero_negative (x : number) :
  hasSign true x -> max (S754_zero false) x = S754_zero false.
Proof.
  destruct x as [[]|[]| |[] m e]; cbn; intros H;
    try reflexivity; try contradiction; discriminate.
Qed.

Lemma max_zero_zero (s : bool) : max (S754_zero false) (S754_zero s) = S754_zero false.
Proof. destruct s; reflexivity. Qed.

(** A target load in [0, 120] is a zero or a finite double below 128. *)
Lemma load_finiteBelow (load : number) : inLoadRange load = true -> finiteBelow 7 load.
Proof.
  unfold inLoadRange.
  replace (ofZ 120) with (S754_finite false 8444249301319680 (-46))
    by (vm_compute; reflexivity).
  rewrite !andb_true_iff. intros [[Hv Hlo] Hhi].
  destruct load as [s | s | | s m e]; cbn [finiteBelow].
  - exact I.
  - destruct s; cbn in Hlo, Hhi; discriminate.
  - cbn in Hlo. discriminate.
  - destruct (valid_finite s m e Hv) as [Hd He]. unfold magnitude.
    destruct s; [cbn in Hlo; discriminate|].
    unfold leb, SFleb, SFcompare in Hhi.
    destruct (Z.compare_spec e (-46)) as [E | L | G]; try discriminate; lia.
Qed.

(** *** The voltage, the current and the efficiency before flooring *)

Section Bases.
Variables load n : number.
Hypothesis Hload : finiteBelow 7 load.
Hypothesis Hn : finiteBelow 2 n.

Ltac constant_bound := apply finiteBelowb_spec; vm_compute; reflexivity.

Lemma loadFactor_finite : finiteBelow 2 (loadFactor load).
Proof.
  unfold loadFactor. change 2 with (7 - 7 + 2).
  apply div_finiteBelow; [assumption | vm_compute; discriminate | lia].
Qed.

Lemma voltageBase_positive :
  positiveAbove 6 (voltageBase load n) /\ finiteBelow 12 (voltageBase load n).
Proof.
  pose proof loadFactor_finite as Hf.
  assert (Hd : finiteBelow 6 (SFopp (mul (loadFactor load) (ofZ 5)))).
  { apply opp_finiteBelow. apply (mul_finiteBelow 2 3); [assumption | constant_bound | lia]. }
  assert (H240 : positiveAbove 8 (ofZ 240)) by (vm_compute; discriminate).
  assert (H240' : finiteBelow 8 (ofZ 240)) by constant_bound.
  assert (Hq : positiveAbove 7 (sub (ofZ 240) (mul (loadFactor load) (ofZ 5))) /\
               finiteBelow 10 (sub (ofZ 240) (mul (loadFactor load) (ofZ 5)))).
  { rewrite sub_add_opp. split.
    - apply (add_positiveAbove 8 8); try assumption; lia.
    - apply (add_finiteBelow 8); try assumption; try lia.
      apply finiteBelow_mono with 6; [lia | assumption]. }
  destruct Hq as [Hqp Hqb].
  assert (Ht : finiteBelow 4 (mul n (ofDec 15 10))).
  { apply (mul_finiteBelow 2 1); [assumption | constant_bound | lia]. }
  unfold voltageBase. split.
  - apply (add_positiveAbove 7 10); try assumption; try lia.
    apply finiteBelow_mono with 4; [lia | assumption].
  - apply (add_finiteBelow 10); try assumption; try lia.
    apply finiteBelow_mono with 4; [lia | assumption].
Qed.

Lemma currentBase_finite : finiteBelow 10 (currentBase load n).
Proof.
  pose proof loadFactor_finite as Hf.
  assert (Hq : finiteBelow 8 (mul (ofZ 30) (loadFactor load))).
  { apply (mul_finiteBelow 5 2); [constant_bound | assumption | lia]. }
  assert (Ht : finiteBelow 1 (mul n (ofDec 2 10))).
  { apply (mul_finiteBelow 2 (-2)); [assumption | constant_bound | lia]. }
  unfold currentBase. apply (add_finiteBelow 8); try assumption; try lia.
  apply finiteBelow_mono with 1; [lia | assumption].
Qed.

Lemma efficiencyBase_finite : finiteBelow 13 (efficiencyBase load n).
Proof.
  pose proof loadFactor_finite as Hf.
  assert (Hgap : finiteBelow 4 (abs (sub (loadFactor load) half))).
  { apply abs_finiteBelow. apply (sub_finiteBelow 2); [assumption | | lia].
    constant_bound. }
  assert (Hloss : finiteBelow 9 (mul (abs (sub (loadFactor load) half)) (ofZ 10))).
  { apply (mul_finiteBelow 4 4); [assumption | constant_bound | lia]. }
  assert (Hq : finiteBelow 11
                 (sub (ofZ 95) (mul (abs (sub (loadFactor load) half)) (ofZ 10)))).
  { apply (sub_finiteBelow 9); [constant_bound | assumption | lia]. }
  assert (Ht : finiteBelow 3 (mul n (ofDec 5 10))).
  { apply (mul_finiteBelow 2 0); [assumption | constant_bound | lia]. }
  unfold efficiencyBase. apply (add_finiteBelow 11); try assumption; try lia.
  apply finiteBelow_mono with 3; [lia | assumption].
Qed.

Lemma power_finite : finiteBelow 23 (mul (voltageBase load n) (currentBase load n)).
Proof.
  apply (mul_finiteBelow 12 10);
    [apply voltageBase_positive | apply currentBase_finite | lia].
Qed.

(** The floored power is the floored product of the floored factors. *)
Lemma floored_power :
  max (S754_zero false) (mul (voltageBase load n) (currentBase load n)) =
  max (S754_zero false)
    (mul (max (S754_zero false) (voltageBase load n))
         (max (S754_zero false) (currentBase load n))).
Proof.
  destruct voltageBase_positive as [Hpos _]. pose proof currentBase_finite as Hc.
  rewrite (max_zero_positive 6 (voltageBase load n) Hpos).
  destruct (voltageBase load n) as [| | |[] mv ev]; try contradiction.
  destruct (currentBase load n) as [sc | sc | | [] mc ec]; try contradiction.
  - rewrite max_zero_zero. destruct sc; reflexivity.
  - rewrite (max_zero_negative (mul _ _))
      by apply (mul_finite_sign false true mv mc ev ec).
    reflexivity.
  - reflexivity.
Qed.
End Bases.

(** What a step returns for a target load below 128 and a noise below 4
    in absolute value: in particular for every load in [0, 120] and every
    noise in [-0.5, 0.5). *)
Lemma stepWithNoise_bounded (load noise now : number) (prev : TelemetryData number) :
  finiteBelow 7 load -> finiteBelow 2 noise ->
  let sample := stepWithNoise noise now prev load in
  geb (voltage sample) (ofZ 0) = true /\
  geb (current sample) (ofZ 0) = true /\
  geb (power sample) (ofZ 0) = true /\
  leb (efficiency sample) (ofZ 100) = true /\
  power sample = max (ofZ 0) (mul (voltage sample) (current sample)).
Proof.
  intros Hload Hn sample.
  pose proof (voltageBase_positive load noise Hload Hn) as [_ Hv].
  pose proof (currentBase_finite load noise Hload Hn) as Hc.
  pose proof (efficiencyBase_finite load noise Hload Hn) as He.
  pose proof (power_finite load noise Hload Hn) as Hp.
  apply finiteBelow_not_nan in Hv, Hc, He, Hp.
  rewrite ofZ_0. repeat split.
  - apply geb_max_zero. exact Hv.
  - apply geb_max_zero. exact Hc.
  - apply geb_max_zero. exact Hp.
  - change (efficiency sample) with
      (if gtb (efficiencyBase load noise) (ofZ 100) then ofZ 100
       else efficiencyBase load noise).
    destruct (gtb _ (ofZ 100)) eqn:Hgt.
    + reflexivity.
    + apply leb_of_not_gtb; [exact He | reflexivity | exact Hgt].
  - apply (floored_power load noise Hload Hn).
Qed.
End StepBounds.

(** ** The temperature in exact arithmetic *)

Section Temperature.
Local Open Scope Q_scope.

Lemma quiet_temperature_step (now : Q) (d : TelemetryData Q) (load : Q) :
  temperature (stepWithNoise (of_Z 0) now d load)
  == steadyTemperature load + (19 # 20) * (temperature d - steadyTemperature load).
Proof.
  unfold stepWithNoise, steadyTemperature. cbn.
  field.
Qed.

Lemma shrink_succ k : shrink (S k) == (19 # 20) * shrink k.
Proof.
  unfold shrink. rewrite Nat2Z.inj_succ, <- Z.add_1_r.
  rewrite Qpower_plus by discriminate. simpl (_ ^ 1). ring.
Qed.

Lemma shrink_bounds k : 0 <= shrink k /\ shrink k * (inject_Z (Z.of_nat k) + 20) <= 20.
Proof.
  induction k as [|k [IH0 IH]].
  - split; [discriminate | vm_compute; discriminate].
  - rewrite shrink_succ. rewrite Nat2Z.inj_succ, <- Z.add_1_r, inject_Z_plus.
    assert (0 <= inject_Z (Z.of_nat k)) by (change 0 with (inject_Z 0); rewrite <- Zle_Qle; lia).
    set (n := inject_Z (Z.of_nat k)) in *. set (a := shrink k) in *.
    assert (Han : 0 <= a * n) by (apply Qmult_le_0_compat; assumption).
    assert (Hexp : a * (n + 20) == a * n + 20 * a) by ring.
    assert (Hexp' : (19 # 20) * a * (n + 1 + 20) == (19 # 20) * (a * n) + (399 # 20) * a) by ring.
    rewrite Hexp in IH. rewrite Hexp'.
    split; lra.
Qed.

Lemma archimedes (x : Q) : exists K : nat, x < inject_Z (Z.of_nat K).
Proof.
  exists (Z.to_nat (Qfloor x + 1)).
  destruct (Z_lt_le_dec (Qfloor x + 1) 0) as [Hneg | Hpos].
  - apply Qlt_le_trans with (inject_Z (Qfloor x + 1)); [apply Qlt_floor|].
    rewrite <- Zle_Qle. lia.
  - rewrite Z2Nat.id by lia. apply Qlt_floor.
Qed.

Section Run.
Variables (now load : Q) (d : TelemetryData Q).

Lemma quiet_temp_succ (k : nat) :
  quietTemperature (S k) now d load
  == steadyTemperature load
     + (19 # 20) * (quietTemperature k now d load - steadyTemperature load).
Proof. apply quiet_temperature_step. Qed.

(** After [k] steps the gap is the first gap times [(19/20)^k]. *)
Lemma quiet_gap (k : nat) :
  quietTemperature k now d load - steadyTemperature load
  == shrink k * (temperature d - steadyTemperature load).
Proof.
  induction k as [|k IH].
  - unfold shrink, quietTemperature. cbn. ring.
  - rewrite quiet_temp_succ, shrink_succ.
    set (T := steadyTemperature load) in *.
    setoid_replace (T + (19 # 20) * (quietTemperature k now d load - T) - T)
      with ((19 # 20) * (quietTemperature k now d load - T)) by ring.
    rewrite IH. ring.
Qed.

Lemma quiet_below (k : nat) :
  temperature d <= steadyTemperature load ->
  quietTemperature k now d load <= steadyTemperature load.
Proof.
  intros H0. pose proof (quiet_gap k) as Hg. destruct (shrink_bounds k) as [Hs _].
  set (T := steadyTemperature load) in *.
  assert (0 <= shrink k * (T - temperature d)) by (apply Qmult_le_0_compat; lra).
  assert (shrink k * (temperature d - T) == - (shrink k * (T - temperature d))) by ring.
  lra.
Qed.

Lemma quiet_above (k : nat) :
  steadyTemperature load <= temperature d ->
  steadyTemperature load <= quietTemperature k now d load.
Proof.
  intros H0. pose proof (quiet_gap k) as Hg. destruct (shrink_bounds k) as [Hs _].
  set (T := steadyTemperature load) in *.
  assert (0 <= shrink k * (temperature d - T)) by (apply Qmult_le_0_compat; lra).
  lra.
Qed.

Lemma quiet_limit (eps : Q) :
  0 < eps ->
  exists K : nat, forall k : nat, (K <= k)%nat ->
    Qabs (quietTemperature k now d load - steadyTemperature load) < eps.
Proof.
  intros Heps. set (G := Qabs (temperature d - steadyTemperature load)).
  assert (HG : 0 <= G) by apply Qabs_nonneg.
  destruct (archimedes (20 * G / eps)) as (K & HK).
  exists K. intros k Hk.
  rewrite quiet_gap, Qabs_Qmult. fold G.
  destruct (shrink_bounds k) as [Hs Hb].
  rewrite (Qabs_pos (shrink k)) by assumption.
  assert (HKk : inject_Z (Z.of_nat K) <= inject_Z (Z.of_nat k))
    by (rewrite <- Zle_Qle; lia).
  assert (Hk0 : 0 <= inject_Z (Z.of_nat k))
    by (change 0 with (inject_Z 0); rewrite <- Zle_Qle; lia).
  set (n := inject_Z (Z.of_nat k)) in *.
  assert (H1 : 20 * G < eps * n).
  { apply Qlt_le_trans with (eps * inject_Z (Z.of_nat K)).
    - assert (Hq : 20 * G == 20 * G / eps * eps) by (field; lra).
      rewrite Hq, (Qmult_comm eps).
      apply Qmult_lt_compat_r; assumption.
    - apply Qmult_le_l; assumption. }
  apply Qnot_le_lt. intros Hle.
  assert (H2 : eps * (n + 20) <= shrink k * G * (n + 20)).
  { apply Qmult_le_compat_r; lra. }
  assert (H3 : shrink k * G * (n + 20) <= 20 * G).
  { setoid_replace (shrink k * G * (n + 20)) with (shrink k * (n + 20) * G) by ring.
    apply Qmult_le_compat_r; assumption. }
  assert (eps * (n + 20) == eps * n + 20 * eps) by ring.
  lra.
Qed.

(** In exact arithmetic: with the noise at 0 and a fixed load, each
    step moves the temperature by 5% of its gap to the steady state
    [25 + targetLoad*0.6]; from below the temperature rises and stays at or
    below the steady state, from above it falls and stays at or above it;
    and it comes as close to the steady state as one wishes. *)
Lemma quiet_temperature_exact :
  (forall k : nat,
     quietTemperature (S k) now d load - quietTemperature k now d load
     == (5 # 100) * (steadyTemperature load - quietTemperature k now d load)) /\
  (temperature d <= steadyTemperature load ->
   forall k : nat,
     quietTemperature k now d load <= quietTemperature (S k) now d load /\
     quietTemperature (S k) now d load <= steadyTemperature load) /\
  (steadyTemperature load <= temperature d ->
   forall k : nat,
     steadyTemperature load <= quietTemperature (S k) now d load /\
     quietTemperature (S k) now d load <= quietTemperature k now d load) /\
  (forall eps : Q, 0 < eps ->
   exists K : nat, forall k : nat, (K <= k)%nat ->
     Qabs (quietTemperature k now d load - steadyTemperature load) < eps).
Proof.
  split; [|split; [|split]].
  - intros k. rewrite quiet_temp_succ. ring.
  - intros H0 k. pose proof (quiet_below k H0). pose proof (quiet_below (S k) H0).
    pose proof (quiet_temp_succ k). split; lra.
  - intros H0 k. pose proof (quiet_above k H0). pose proof (quiet_above (S k) H0).
    pose proof (quiet_temp_succ k). split; lra.
  - apply quiet_limit.
Qed.
End Run.
End Temperature.

(** A run of the temperature from 20 degrees at a load of 50%: the steady
    state is 55, the first step covers 5% of the 35 degrees between. *)
Lemma quiet_temperature_exact_example :
  let d := {| timestamp := 0; voltage := 240; current := 0; power := 0;
              temperature := 20; frequency := 60; efficiency := 100;
              status := NOMINAL |}%Q in
  (quietTemperature 0 0 d 50 <= quietTemperature 1 0 d 50 /\
   quietTemperature 1 0 d 50 <= steadyTemperature 50)%Q.
Proof.
  intros d.
  refine (proj1 (proj2 (quiet_temperature_exact 0%Q 50%Q d)) _ 0%nat).
  vm_compute. discriminate.
Defined.

(** The same recurrence in binary64, on two runs of 700 steps: from the
    seed sample at a load of 40% and from 100 degrees at a load of 77%, the
    temperature moves towards the steady state the code computes at every
    step, never passes it, and ends within 1e-12 of it. *)
Lemma quiet_temperature_binary64_runs :
  let hot := {| timestamp := B64.ofZ 0; voltage := B64.ofZ 240; current := B64.ofZ 0;
                power := B64.ofZ 0; temperature := B64.ofZ 100;
                frequency := B64.ofZ 60; efficiency := B64.ofZ 100;
                status := CRITICAL |} in
  let seed := MOCK_INITIAL_DATA (B64.ofZ 0) in
  let steady z := B64.add (B64.ofZ 25)
                    (B64.mul (B64.div (B64.ofZ z) (B64.ofZ 100)) (B64.ofZ 60)) in
  let close z run :=
    match run with
    | Some d => B64.leb (B64.abs (B64.sub (steady z) (temperature d)))
                  (B64.ofDec 1 (10 ^ 12))
    | None => false
    end in
  close 40%Z (quietApproach 700 seed 40) = true /\
  close 77%Z (quietApproach 700 hot 77) = true.
Proof. vm_compute. split; reflexivity. Qed.

(** ** The temperature in binary64

    Rounding to nearest is followed in values: the value of a double is
    an integer number of units of [2^-2148], a sum or a product of two
    doubles is rounded to a double with no other double in between, and
    the comparison of doubles is the comparison of their values. *)

Module Faithful.
Import B64 B64Facts StepBounds.
Local Open Scope Z_scope.

Lemma shr_1_value (mrs : shr_record) :
  0 <= shr_m mrs ->
  shr_m (shr_1 mrs) = shr_m mrs / 2 /\
  (inexact (shr_1 mrs) = false <->
   inexact mrs = false /\ shr_m mrs = 2 * (shr_m mrs / 2)).
Proof.
  destruct mrs as [m r s]. unfold inexact. cbn [shr_m shr_r shr_s]. intros Hm.
  destruct m as [|[p|p|]|p]; try lia; cbn [shr_1 shr_m shr_r shr_s].
  - split; [reflexivity|]. change (0 / 2) with 0. destruct r, s; cbn; intuition congruence.
  - rewrite Pos2Z.inj_xI. replace ((2 * Z.pos p + 1) / 2) with (Z.pos p)
      by (apply Z.div_unique with 1; lia).
    split; [reflexivity|]. destruct r, s; cbn; intuition (try congruence; try lia).
  - rewrite Pos2Z.inj_xO. replace (2 * Z.pos p / 2) with (Z.pos p)
      by (apply Z.div_unique with 0; lia).
    split; [reflexivity|]. destruct r, s; cbn; intuition (try congruence; try lia).
  - change (1 / 2) with 0. split; [reflexivity|].
    destruct r, s; cbn; intuition (try congruence; try lia).
Qed.

Lemma div_div_pow2 (m a b : Z) : 0 <= a -> 0 <= b -> m / 2 ^ a / 2 ^ b = m / 2 ^ (a + b).
Proof.
  intros Ha Hb. rewrite Z.pow_add_r by lia.
  assert (Hpa : 0 < 2 ^ a) by (apply Z.pow_pos_nonneg; lia).
  assert (Hpb : 0 < 2 ^ b) by (apply Z.pow_pos_nonneg; lia).
  rewrite Z.div_div by lia. reflexivity.
Qed.

(** [m] is a multiple of [2^(a+b)] exactly when it is one of [2^a] and its
    quotient is one of [2^b]. *)
Lemma exact_compose (m a b : Z) :
  0 <= a -> 0 <= b ->
  (m = 2 ^ a * (m / 2 ^ a) /\ m / 2 ^ a = 2 ^ b * (m / 2 ^ a / 2 ^ b)) <->
  m = 2 ^ (a + b) * (m / 2 ^ (a + b)).
Proof.
  intros Ha Hb. rewrite <- (div_div_pow2 m a b) by assumption.
  assert (Hpa : 0 < 2 ^ a) by (apply Z.pow_pos_nonneg; lia).
  assert (Hpb : 0 < 2 ^ b) by (apply Z.pow_pos_nonneg; lia).
  rewrite Z.pow_add_r by lia.
  set (A := 2 ^ a) in *. set (B := 2 ^ b) in *.
  set (q1 := m / A). set (q2 := q1 / B).
  split.
  - intros [H1 H2]. rewrite <- Z.mul_assoc, <- H2. exact H1.
  - intros H.
    assert (Hq : q1 = B * q2).
    { unfold q1. rewrite H at 1. rewrite <- Z.mul_assoc, Z.mul_comm, Z.div_mul by lia.
      reflexivity. }
    split; [|exact Hq]. rewrite Hq, Z.mul_assoc. exact H.
Qed.

(** [n] shifts divide the mantissa by [2^n], and nothing is lost exactly
    when the division is exact and nothing was lost before. *)
Lemma shift_value (n : Z) (mrs mrs' : shr_record) (k : Z) :
  0 <= n -> 0 <= k -> 0 <= shr_m mrs ->
  (shr_m mrs' = shr_m mrs / 2 ^ n /\
   (inexact mrs' = false <->
    inexact mrs = false /\ shr_m mrs = 2 ^ n * (shr_m mrs / 2 ^ n))) ->
  forall mrs'' : shr_record,
  (shr_m mrs'' = shr_m mrs' / 2 ^ k /\
   (inexact mrs'' = false <->
    inexact mrs' = false /\ shr_m mrs' = 2 ^ k * (shr_m mrs' / 2 ^ k))) ->
  shr_m mrs'' = shr_m mrs / 2 ^ (n + k) /\
  (inexact mrs'' = false <->
   inexact mrs = false /\ shr_m mrs = 2 ^ (n + k) * (shr_m mrs / 2 ^ (n + k))).
Proof.
  intros Hn Hk Hm [E1 X1] mrs'' [E2 X2].
  split.
  - rewrite E2, E1. apply div_div_pow2; assumption.
  - rewrite X2, X1, E1. rewrite <- (exact_compose (shr_m mrs) n k) by assumption.
    tauto.
Qed.

Lemma iter_shr_1_value (p : positive) (mrs : shr_record) :
  0 <= shr_m mrs ->
  shr_m (iter_pos shr_1 p mrs) = shr_m mrs / 2 ^ Zpos p /\
  (inexact (iter_pos shr_1 p mrs) = false <->
   inexact mrs = false /\ shr_m mrs = 2 ^ Zpos p * (shr_m mrs / 2 ^ Zpos p)).
Proof.
  revert mrs. induction p as [p IH | p IH |]; intros mrs Hm; cbn [iter_pos].
  - pose proof (shr_1_value mrs Hm) as H1.
    assert (Hm1 : 0 <= shr_m (shr_1 mrs))
      by (rewrite (proj1 H1); apply Z.div_pos; lia).
    pose proof (IH _ Hm1) as H2.
    assert (Hm2 : 0 <= shr_m (iter_pos shr_1 p (shr_1 mrs))).
    { rewrite (proj1 H2). apply Z.div_pos; [lia | apply Z.pow_pos_nonneg; lia]. }
    pose proof (IH _ Hm2) as H3.
    replace (Zpos p~1) with (1 + Zpos p + Zpos p) by lia.
    apply (shift_value (1 + Zpos p) _ (iter_pos shr_1 p (shr_1 mrs)) (Zpos p));
      try lia; [|exact H3].
    apply (shift_value 1 _ (shr_1 mrs) (Zpos p)); try lia; [|exact H2].
    change (2 ^ 1) with 2. exact H1.
  - pose proof (IH _ Hm) as H2.
    assert (Hm2 : 0 <= shr_m (iter_pos shr_1 p mrs)).
    { rewrite (proj1 H2). apply Z.div_pos; [lia | apply Z.pow_pos_nonneg; lia]. }
    pose proof (IH _ Hm2) as H3.
    replace (Zpos p~0) with (Zpos p + Zpos p) by lia.
    apply (shift_value (Zpos p) _ (iter_pos shr_1 p mrs) (Zpos p)); try lia; assumption.
  - change (2 ^ 1) with 2. apply shr_1_value; assumption.
Qed.

Lemma loc_exact_iff (mrs : shr_record) :
  inexact mrs = false -> loc_of_shr_record mrs = loc_Exact.
Proof. destruct mrs as [m [] []]; cbn; congruence. Qed.

(** One scaling step on an exact input, in values. *)
Lemma shr_fexp_value (M E : Z) :
  0 <= M ->
  let e1 := Z.max E (fexp prec emax (Zdigits2 M + E)) in
  let r := shr_fexp prec emax M E loc_Exact in
  snd r = e1 /\
  shr_m (fst r) = M / 2 ^ (e1 - E) /\
  (M = 2 ^ (e1 - E) * (M / 2 ^ (e1 - E)) -> inexact (fst r) = false).
Proof.
  intros HM e1 r. subst r. unfold shr_fexp, shr. cbn [shr_record_of_loc].
  destruct (fexp prec emax (Zdigits2 M + E) - E) as [|p|p] eqn:En; cbn [fst snd].
  - replace (e1 - E) with 0 by lia. rewrite Z.pow_0_r, Z.div_1_r.
    split; [lia | split; [reflexivity | intros _; reflexivity]].
  - replace (e1 - E) with (Zpos p) by lia.
    destruct (iter_shr_1_value p (Build_shr_record M false false) HM) as [Hv Hx].
    cbn [shr_m] in Hv, Hx. split; [lia | split; [exact Hv|]].
    intros Hex. apply Hx. split; [reflexivity | exact Hex].
  - replace (e1 - E) with 0 by lia. rewrite Z.pow_0_r, Z.div_1_r.
    split; [lia | split; [reflexivity | intros _; reflexivity]].
Qed.

(** Rounding [M * 2^E], with [E] at or below the exponent [e1] of its
    binade: in units of [2^e1] the result is the quotient [q] of the
    mantissa or [q + 1], and [q] itself when nothing is lost; the result
    is a double (canonical, in range). *)
Lemma binary_round_aux_faithful (s : bool) (M E : Z) :
  0 < M ->
  let D := Zdigits2 M + E in
  let e1 := fexp prec emax D in
  E <= e1 -> D <= 1000 ->
  let q := M / 2 ^ (e1 - E) in
  exists m2 : Z,
    (m2 = q \/ m2 = q + 1) /\ (M = 2 ^ (e1 - E) * q -> m2 = q) /\
    Zdigits2 q = Z.max 0 (D - e1) /\
    match binary_round_aux prec emax s M E loc_Exact with
    | S754_zero s' => s' = s /\ m2 = 0
    | S754_finite s' m3 e3 =>
        s' = s /\ e1 <= e3 /\ Zpos m3 * 2 ^ (e3 - e1) = m2 /\
        valid (S754_finite s' m3 e3) = true
    | _ => False
    end.
Proof.
  intros HM D e1 HE HD q. unfold binary_round_aux.
  assert (HM0 : 0 <= M) by lia.
  pose proof (shr_fexp_value M E HM0) as Hv1. cbn zeta in Hv1.
  pose proof (shr_fexp_digits prec emax M E loc_Exact HM0) as Hd1. cbn zeta in Hd1.
  fold D in Hv1, Hd1. fold e1 in Hv1, Hd1.
  replace (Z.max E e1) with e1 in Hv1 by lia. fold q in Hv1.
  destruct (shr_fexp prec emax M E loc_Exact) as [mrs1 e1']. cbn [fst snd] in Hv1, Hd1.
  destruct Hv1 as (-> & Hq & Hex). destruct Hd1 as (Hm1 & _ & Hdq).
  set (m2 := round_nearest_even (shr_m mrs1) (loc_of_shr_record mrs1)).
  exists m2.
  pose proof (round_nearest_even_bounds (shr_m mrs1) (loc_of_shr_record mrs1)) as Hr.
  fold m2 in Hr. rewrite Hq in Hr, Hdq, Hm1.
  assert (Hm2 : 0 <= m2) by lia.
  assert (Hexact : M = 2 ^ (e1 - E) * q -> m2 = q).
  { intros Hx. unfold m2. rewrite (loc_exact_iff mrs1 (Hex Hx)). cbn. exact Hq. }
  assert (Hcases : m2 = q \/ m2 = q + 1).
  { unfold m2 in *. destruct (loc_of_shr_record mrs1) as [|[]];
      cbn [round_nearest_even] in *; try (left; lia); try (right; lia).
    destruct (Z.even (shr_m mrs1)); [left | right]; lia. }
  pose proof (shr_fexp_value m2 e1 Hm2) as Hv2. cbn zeta in Hv2.
  pose proof (shr_fexp_digits prec emax m2 e1 loc_Exact Hm2) as Hd2. cbn zeta in Hd2.
  destruct (shr_fexp prec emax m2 e1 loc_Exact) as [mrs2 e2]. cbn [fst snd] in Hv2, Hd2.
  destruct Hv2 as (He2 & Hm3 & _). destruct Hd2 as (Hm3' & _ & Hd3).
  assert (Hlo : Zdigits2 q <= Zdigits2 m2) by (apply Zdigits2_mono; lia).
  assert (Hhi : Zdigits2 m2 <= Zdigits2 q + 1).
  { transitivity (Zdigits2 (q + 1)); [apply Zdigits2_mono; lia | apply Zdigits2_succ; lia]. }
  assert (Hdpos : 1 <= Zdigits2 M) by (destruct M; cbn; lia).
  repeat split; try assumption.
  assert (He1 : e1 = Z.max (D - 53) (-1074)) by reflexivity.
  assert (HDdef : D = Zdigits2 M + E) by reflexivity.
  clearbody e1 D. clear Hex Hr Hexact Hq HM0.
  unfold fexp, SpecFloat.emin, prec, emax in *.
  (* the second scaling shifts by at most one place, and only [2^53] *)
  assert (Hshift : e2 = e1 \/ (e2 = e1 + 1 /\ m2 = 2 ^ 53)).
  { destruct (Z.eq_dec e2 e1) as [|Hne]; [left; assumption|]. right.
    assert (Hd54 : Zdigits2 m2 = 54) by lia.
    split; [lia|].
    assert (Hq53 : q < 2 ^ 53).
    { destruct (Z.eq_dec q 0) as [->|Hq0]; [reflexivity|].
      apply (Zdigits2_le_iff q 53); lia. }
    assert (Hm54 : 2 ^ 53 <= m2).
    { apply (Zdigits2_ge_iff m2 54); try lia.
      destruct (Z.eq_dec m2 0) as [E0|]; [rewrite E0 in Hd54; cbn in Hd54; lia | lia]. }
    lia. }
  assert (Hval : shr_m mrs2 * 2 ^ (e2 - e1) = m2).
  { rewrite <- He2 in Hm3. rewrite Hm3. destruct Hshift as [Hs | [Hs Hp]]; rewrite Hs.
    - rewrite !Z.sub_diag, Z.pow_0_r, Z.div_1_r. lia.
    - replace (e1 + 1 - e1) with 1 by lia. rewrite Hp. reflexivity. }
  destruct (shr_m mrs2) as [|m3|m3] eqn:Em3; [| |lia].
  - split; [reflexivity | lia].
  - cbn [Zdigits2] in Hd3.
    destruct (Z.leb_spec e2 (1024 - 53)) as [Hle|Hgt]; [|lia].
    repeat split; try lia.
    unfold valid, valid_binary, bounded, canonical_mantissa, fexp, SpecFloat.emin, prec, emax.
    apply andb_true_intro. split; [apply Z.eqb_eq | apply Z.leb_le]; lia.
Qed.

Lemma pow2_split (a b : Z) : 0 <= b -> b <= a -> 2 ^ a = 2 ^ (a - b) * 2 ^ b.
Proof. intros Hb Hab. rewrite <- Z.pow_add_r by lia. f_equal. lia. Qed.

(** Rounding [m * 2^e] to a double, in values: with [G] the unit of the
    binade of the input and [q] the quotient of the input by [G], the
    result is [q * G] or [(q + 1) * G], and the input itself when that
    lies on the grid. *)
Lemma binary_round_aux_value (s : bool) (M E : Z) :
  0 < M -> -2148 <= E ->
  let D := Zdigits2 M + E in
  let e1 := fexp prec emax D in
  E <= e1 -> D <= 1000 ->
  let X := units M E in
  let G := 2 ^ (e1 + 2148) in
  let q := X / G in
  let r := binary_round_aux prec emax s M E loc_Exact in
  valid r = true /\ (finiteBelow 1001 r) /\ (hasSign s r) /\
  (absUnits r = q * G \/ absUnits r = (q + 1) * G) /\
  (X = q * G -> absUnits r = X) /\
  Zdigits2 q = Z.max 0 (D - e1).
Proof.
  intros HM HE D e1 HEe HD X G q r.
  destruct (binary_round_aux_faithful s M E HM HEe HD)
    as (m2 & Hcases & Hexact & Hdq & Hres).
  fold D e1 in Hcases, Hexact, Hdq, Hres.
  assert (He1 : -1074 <= e1) by (unfold e1, fexp, SpecFloat.emin, prec, emax; lia).
  assert (Hq : q = M / 2 ^ (e1 - E)).
  { unfold q, X, G, units. rewrite (pow2_split (e1 + 2148) (E + 2148)) by lia.
    replace (e1 + 2148 - (E + 2148)) with (e1 - E) by lia.
    rewrite Z.div_mul_cancel_r; try reflexivity;
      apply Z.pow_nonzero; lia. }
  rewrite <- Hq in Hcases, Hexact, Hdq.
  assert (HXG : X = q * G <-> M = 2 ^ (e1 - E) * q).
  { unfold X, G, units. rewrite (pow2_split (e1 + 2148) (E + 2148)) by lia.
    replace (e1 + 2148 - (E + 2148)) with (e1 - E) by lia.
    assert (0 < 2 ^ (E + 2148)) by (apply Z.pow_pos_nonneg; lia).
    split; intros H1; nia. }
  assert (Hres' : valid r = true /\ finiteBelow 1001 r /\ hasSign s r /\ absUnits r = m2 * G).
  { fold r in Hres. destruct r as [s' | s' | | s' m3 e3]; try contradiction.
    - destruct Hres as [-> ->]. repeat split.
    - destruct Hres as (-> & He3 & Hv & Hvalid).
      split; [exact Hvalid|]. split; [|split; [reflexivity|]].
      + destruct (valid_finite s m3 e3 Hvalid) as [Hd _].
        unfold valid, valid_binary, bounded, canonical_mantissa, fexp, SpecFloat.emin,
          prec, emax in Hvalid.
        apply andb_prop in Hvalid. destruct Hvalid as [Hc _]. apply Z.eqb_eq in Hc.
        cbn [finiteBelow]. unfold magnitude.
        assert (He1' : e1 = Z.max (D - 53) (-1074)) by reflexivity.
        assert (Zpos (digits2_pos m3) + e3 <= Z.max D (-1074) + 1); [|lia].
        assert (Hm2d : Zdigits2 m2 <= Zdigits2 q + 1).
        { destruct Hcases as [->| ->]; [lia|].
          apply Zdigits2_succ. apply Z.div_pos; [unfold X, units; nia..| ]; 
          unfold G; apply Z.pow_pos_nonneg; lia. }
        assert (Hm3d : Zdigits2 (Zpos m3 * 2 ^ (e3 - e1)) = Zpos (digits2_pos m3) + (e3 - e1))
          by (apply (Zdigits2_mul_pow2 (Zpos m3)); lia).
        rewrite Hv in Hm3d. lia.
      + cbn [absUnits]. unfold units, G. rewrite <- Hv.
        rewrite (pow2_split (e3 + 2148) (e1 + 2148)) by lia.
        replace (e3 + 2148 - (e1 + 2148)) with (e3 - e1) by lia. ring. }
  destruct Hres' as (Hvalid & Hfin & Hsign & Habs).
  repeat split; try assumption.
  - rewrite Habs. destruct Hcases as [-> | ->]; [left | right]; reflexivity.
  - intros HX. rewrite Habs, (Hexact (proj1 HXG HX)). symmetry. exact HX.
Qed.

Lemma units_pos (m e : Z) : 0 < m -> -2148 <= e -> 0 < units m e.
Proof. intros Hm He. unfold units. apply Z.mul_pos_pos; [lia | apply Z.pow_pos_nonneg; lia]. Qed.

(** Between a value and the double it rounds to there is no other double:
    a double at or below the value is at or below the result, and one at
    or above the value is at or above the result. *)
Lemma rounding_monotone (X D R : Z) (y0 : number) :
  0 < X ->
  let e1 := fexp prec emax D in
  let G := 2 ^ (e1 + 2148) in
  let q := X / G in
  (R = q * G \/ R = (q + 1) * G) -> (X = q * G -> R = X) ->
  Zdigits2 q = Z.max 0 (D - e1) ->
  valid y0 = true -> finiteBelow 1001 y0 ->
  (absUnits y0 <= X -> absUnits y0 <= R) /\ (X <= absUnits y0 -> R <= absUnits y0).
Proof.
  intros HX e1 G q HR Hexact Hdq Hv Hfin.
  assert (He1 : e1 = Z.max (D - 53) (-1074)) by reflexivity.
  assert (HG : 0 < G) by (unfold G; apply Z.pow_pos_nonneg; lia).
  assert (Hq0 : 0 <= q) by (apply Z.div_pos; lia).
  assert (HqG : q * G <= X < (q + 1) * G).
  { pose proof (Z.div_mod X G ltac:(lia)) as Hdm.
    pose proof (Z.mod_pos_bound X G HG) as Hmod. fold q in Hdm. nia. }
  destruct y0 as [s0 | s0 | | s0 m0 e0]; try contradiction.
  - cbn [absUnits]. split; intros H; [nia | lia].
  - destruct (valid_finite s0 m0 e0 Hv) as [Hd0 He0].
    cbn [absUnits finiteBelow] in *. unfold magnitude in Hfin.
    set (Y := units (Zpos m0) e0).
    destruct (Z_le_gt_dec e1 e0) as [Hge | Hlt].
    + (* [y0] lies on the grid *)
      set (k := Zpos m0 * 2 ^ (e0 - e1)).
      assert (HY : Y = k * G).
      { unfold Y, k, G, units. rewrite (pow2_split (e0 + 2148) (e1 + 2148)) by lia.
        replace (e0 + 2148 - (e1 + 2148)) with (e0 - e1) by lia. ring. }
      split; intros H.
      * assert (k <= q) by (apply Z.div_le_lower_bound; lia). nia.
      * destruct (Z.eq_dec X (q * G)) as [E | N]; [rewrite (Hexact E); exact H|].
        assert (q < k) by nia. nia.
    + (* [y0] lies in a binade below *)
      assert (Hq52 : 2 ^ 52 <= q).
      { apply (Zdigits2_ge_iff q 53); try lia.
        destruct (Z.eq_dec q 0) as [E0|]; [|lia].
        rewrite E0 in Hdq. cbn [Zdigits2] in Hdq. lia. }
      assert (HYlt : Y < 2 ^ 52 * G).
      { unfold Y, units, G. rewrite <- Z.pow_add_r by lia.
        apply Z.lt_le_trans with (2 ^ (Zpos (digits2_pos m0) + (e0 + 2148)));
          [apply scaled_lt; lia | apply Z.pow_le_mono_r; lia]. }
      split; intros H; nia.
Qed.

(** Rounding a positive mantissa at any exponent, in values. *)
Lemma binary_round_value (s : bool) (m : positive) (e : Z) :
  -2148 <= e -> magnitude m e <= 1000 ->
  let r := binary_round prec emax s m e in
  valid r = true /\ finiteBelow 1001 r /\ hasSign s r /\
  forall y0 : number, valid y0 = true -> finiteBelow 1001 y0 ->
    (absUnits y0 <= units (Zpos m) e -> absUnits y0 <= absUnits r) /\
    (units (Zpos m) e <= absUnits y0 -> absUnits r <= absUnits y0).
Proof.
  intros He HD r. subst r. unfold binary_round.
  pose proof (shl_align_value m e (fexp prec emax (Zpos (digits2_pos m) + e))) as Hal.
  pose proof (shl_align_magnitude m e (fexp prec emax (Zpos (digits2_pos m) + e))) as Hmag.
  cbn zeta in Hal, Hmag.
  destruct (shl_align m e (fexp prec emax (Zpos (digits2_pos m) + e))) as [mz ez].
  cbn [fst snd] in Hal, Hmag. destruct Hal as [Hez Hmz].
  assert (HX : units (Zpos mz) ez = units (Zpos m) e).
  { unfold units. rewrite Hmz, <- Z.mul_assoc, <- Z.pow_add_r; [f_equal; f_equal; lia|lia|].
    unfold fexp, SpecFloat.emin, prec, emax in Hez. lia. }
  unfold magnitude in Hmag, HD.
  assert (Hez' : -2148 <= ez)
    by (unfold fexp, SpecFloat.emin, prec, emax in Hez; lia).
  assert (HEe : ez <= fexp prec emax (Zdigits2 (Zpos mz) + ez)).
  { cbn [Zdigits2]. rewrite Hmag. lia. }
  assert (HD' : Zdigits2 (Zpos mz) + ez <= 1000) by (cbn [Zdigits2]; lia).
  destruct (binary_round_aux_value s (Zpos mz) ez eq_refl Hez' HEe HD')
    as (Hvalid & Hfin & Hsign & Hcases & Hexact & Hdq).
  repeat split; try assumption;
    rewrite <- HX;
    apply (rounding_monotone (units (Zpos mz) ez) (Zdigits2 (Zpos mz) + ez)
             _ y0 (units_pos (Zpos mz) ez eq_refl Hez') Hcases Hexact Hdq); assumption.
Qed.

Lemma absUnits_nonneg (x : number) : valid x = true -> 0 <= absUnits x.
Proof.
  destruct x as [| | |s m e]; cbn [absUnits]; try lia. intros Hv.
  destruct (valid_finite s m e Hv). pose proof (units_pos (Zpos m) e eq_refl). lia.
Qed.

Lemma valZ_signed (s : bool) (x : number) :
  hasSign s x -> valZ x = cond_Zopp s (absUnits x).
Proof.
  destruct x as [s' | s' | | s' m e]; cbn; try contradiction; intros <-;
    try reflexivity; destruct s'; reflexivity.
Qed.

Lemma valZ_abs (x : number) : valZ x = absUnits x \/ valZ x = - absUnits x.
Proof. destruct x as [| | |[] m e]; cbn; auto. Qed.

Lemma valZ_pos_abs (x : number) : 0 < valZ x -> valid x = true -> valZ x = absUnits x.
Proof.
  intros Hpos Hv. pose proof (absUnits_nonneg x Hv). destruct (valZ_abs x); lia.
Qed.

Lemma valZ_neg_abs (x : number) : valZ x < 0 -> valid x = true -> valZ x = - absUnits x.
Proof.
  intros Hpos Hv. pose proof (absUnits_nonneg x Hv). destruct (valZ_abs x); lia.
Qed.

(** From absolute values to signed ones. *)
Lemma signed_monotone (s : bool) (X : Z) (r : number) :
  0 < X -> hasSign s r -> valid r = true ->
  (forall y0 : number, valid y0 = true -> finiteBelow 1001 y0 ->
     (absUnits y0 <= X -> absUnits y0 <= absUnits r) /\
     (X <= absUnits y0 -> absUnits r <= absUnits y0)) ->
  forall y0 : number, real y0 ->
    (valZ y0 <= cond_Zopp s X -> valZ y0 <= valZ r) /\
    (cond_Zopp s X <= valZ y0 -> valZ r <= valZ y0).
Proof.
  intros HX Hs Hv Hmono y0 [Hv0 Hf0].
  rewrite (valZ_signed s r Hs).
  pose proof (absUnits_nonneg r Hv) as HR. pose proof (absUnits_nonneg y0 Hv0) as HA.
  destruct (Hmono y0 Hv0 Hf0) as [Hlo Hhi].
  destruct s; cbn [cond_Zopp]; destruct (valZ_abs y0) as [E | E]; rewrite E; split; lia.
Qed.

(** *** Sums, in values *)

Lemma add_monotone (x y : number) :
  real x -> real y -> finiteBelow 999 x -> finiteBelow 999 y ->
  real (add x y) /\
  forall y0 : number, real y0 ->
    (valZ y0 <= valZ x + valZ y -> valZ y0 <= valZ (add x y)) /\
    (valZ x + valZ y <= valZ y0 -> valZ (add x y) <= valZ y0).
Proof.
  intros [Hvx Hfx] [Hvy Hfy] Hbx Hby.
  destruct x as [sx | sx | | sx mx ex]; try contradiction;
    destruct y as [sy | sy | | sy my ey]; try contradiction.
  - split; [destruct sx, sy; split; reflexivity|].
    intros y0 _. destruct sx, sy; cbn; split; lia.
  - change (add (S754_zero sx) (S754_finite sy my ey)) with (S754_finite sy my ey).
    split; [split; assumption|]. intros y0 _. cbn [valZ]. split; lia.
  - change (add (S754_finite sx mx ex) (S754_zero sy)) with (S754_finite sx mx ex).
    split; [split; assumption|]. intros y0 _. cbn [valZ]. split; lia.
  - destruct (valid_finite sx mx ex Hvx) as [Hdx Hex].
    destruct (valid_finite sy my ey Hvy) as [Hdy Hey].
    cbn [finiteBelow] in Hbx, Hby. unfold magnitude in Hbx, Hby.
    unfold add, SFadd.
    destruct (shl_align_value mx ex (Z.min ex ey)) as [Hex' HX].
    destruct (shl_align_value my ey (Z.min ex ey)) as [Hey' HY].
    rewrite HX, HY, Hex', Hey'.
    set (ez := Z.min ex ey) in *.
    replace (Z.min ex ez) with ez by lia. replace (Z.min ey ez) with ez by lia.
    set (S := cond_Zopp sx (Zpos mx * 2 ^ (ex - ez)) + cond_Zopp sy (Zpos my * 2 ^ (ey - ez))).
    assert (Hsum : valZ (S754_finite sx mx ex) + valZ (S754_finite sy my ey) = units S ez).
    { cbn [valZ]. unfold S, units.
      rewrite (pow2_split (ex + 2148) (ez + 2148)), (pow2_split (ey + 2148) (ez + 2148)) by lia.
      replace (ex + 2148 - (ez + 2148)) with (ex - ez) by lia.
      replace (ey + 2148 - (ez + 2148)) with (ey - ez) by lia.
      destruct sx, sy; cbn [cond_Zopp]; ring. }
    rewrite Hsum.
    assert (Hmag : forall p : positive, Zpos p = Z.abs S -> magnitude p ez <= 1000).
    { intros p Hp. unfold magnitude.
      assert (HXb : 0 < Zpos mx * 2 ^ (ex - ez) < 2 ^ (999 - ez)).
      { split; [apply Z.mul_pos_pos; [lia | apply Z.pow_pos_nonneg; lia]|].
        apply Z.lt_le_trans with (2 ^ (Zpos (digits2_pos mx) + (ex - ez)));
          [apply scaled_lt; lia | apply Z.pow_le_mono_r; lia]. }
      assert (HYb : 0 < Zpos my * 2 ^ (ey - ez) < 2 ^ (999 - ez)).
      { split; [apply Z.mul_pos_pos; [lia | apply Z.pow_pos_nonneg; lia]|].
        apply Z.lt_le_trans with (2 ^ (Zpos (digits2_pos my) + (ey - ez)));
          [apply scaled_lt; lia | apply Z.pow_le_mono_r; lia]. }
      assert (Zdigits2 (Zpos p) <= 999 - ez + 1); [|cbn [Zdigits2] in *; lia].
      apply Zdigits2_le_iff; try lia.
      replace (999 - ez + 1) with (Z.succ (999 - ez)) by lia.
      rewrite Z.pow_succ_r by lia. rewrite Hp.
      unfold S. destruct sx, sy; cbn [cond_Zopp]; lia. }
    unfold binary_normalize.
    destruct S as [|p|p] eqn:ES.
    + split; [split; reflexivity|]. intros y0 _. cbn. split; lia.
    + destruct (binary_round_value false p ez ltac:(lia) (Hmag p eq_refl))
        as (Hv & Hf & Hs & Hmono).
      split; [split; assumption|].
      apply (signed_monotone false (units (Zpos p) ez)); try assumption.
      apply units_pos; lia.
    + destruct (binary_round_value true p ez ltac:(lia) (Hmag p eq_refl))
        as (Hv & Hf & Hs & Hmono).
      split; [split; assumption|].
      replace (units (Z.neg p) ez) with (cond_Zopp true (units (Zpos p) ez))
        by (unfold units; cbn [cond_Zopp]; lia).
      apply (signed_monotone true (units (Zpos p) ez)); try assumption.
      apply units_pos; lia.
Qed.

(** *** Products, in values *)

Lemma valid_canonical (s : bool) (m : positive) (e : Z) :
  valid (S754_finite s m e) = true ->
  Z.max (Zpos (digits2_pos m) + e - 53) (-1074) = e /\ e <= 971.
Proof.
  unfold valid, valid_binary, bounded, canonical_mantissa, fexp, SpecFloat.emin, prec, emax.
  rewrite andb_true_iff, Z.eqb_eq, Z.leb_le. lia.
Qed.

Lemma mul_monotone (a b : Z) (x y : number) :
  real x -> real y -> finiteBelow a x -> finiteBelow b y -> a + b <= 1000 ->
  real (mul x y) /\
  forall y0 : number, real y0 ->
    (valZ y0 * 2 ^ 2148 <= valZ x * valZ y -> valZ y0 <= valZ (mul x y)) /\
    (valZ x * valZ y <= valZ y0 * 2 ^ 2148 -> valZ (mul x y) <= valZ y0).
Proof.
  intros [Hvx Hfx] [Hvy Hfy] Hbx Hby Hab.
  assert (HP : 0 < 2 ^ 2148) by (apply Z.pow_pos_nonneg; lia).
  destruct x as [sx | sx | | sx mx ex]; try contradiction;
    destruct y as [sy | sy | | sy my ey]; try contradiction;
    try (split; [split; reflexivity|]; intros y0 _; cbn [valZ mul SFmul];
         rewrite ?Z.mul_0_l, ?Z.mul_0_r; split; nia).
  destruct (valid_canonical sx mx ex Hvx) as [Hcx Hex].
  destruct (valid_canonical sy my ey Hvy) as [Hcy Hey].
  cbn [finiteBelow] in Hbx, Hby. unfold magnitude in Hbx, Hby.
  change (mul (S754_finite sx mx ex) (S754_finite sy my ey))
    with (binary_round_aux prec emax (xorb sx sy) (Zpos mx * Zpos my) (ex + ey) loc_Exact).
  pose proof (Zdigits2_mul (Zpos mx) (Zpos my) eq_refl eq_refl) as Hub.
  pose proof (Zdigits2_mul_lb (Zpos mx) (Zpos my) eq_refl eq_refl) as Hlb.
  cbn [Zdigits2] in Hub, Hlb.
  set (M := Zpos mx * Zpos my) in *.
  assert (HM : 0 < M) by (unfold M; lia).
  assert (HE : -2148 <= ex + ey) by lia.
  assert (HEe : ex + ey <= fexp prec emax (Zdigits2 M + (ex + ey)))
    by (unfold fexp, SpecFloat.emin, prec, emax; lia).
  assert (HD : Zdigits2 M + (ex + ey) <= 1000) by lia.
  destruct (binary_round_aux_value (xorb sx sy) M (ex + ey) HM HE HEe HD)
    as (Hv & Hf & Hs & Hcases & Hexact & Hdq).
  split; [split; assumption|].
  intros y0 Hy0.
  assert (Hprod : valZ (S754_finite sx mx ex) * valZ (S754_finite sy my ey)
                  = cond_Zopp (xorb sx sy) (units M (ex + ey)) * 2 ^ 2148).
  { cbn [valZ]. unfold units, M.
    replace (ex + ey + 2148) with ((ex + 2148) + ey) by lia.
    assert (Hsplit : 2 ^ (ex + 2148 + ey) * 2 ^ 2148 = 2 ^ (ex + 2148) * 2 ^ (ey + 2148)).
    { rewrite <- !Z.pow_add_r by lia. f_equal. lia. }
    destruct sx, sy; cbn [cond_Zopp xorb]; nia. }
  rewrite Hprod.
  destruct (signed_monotone (xorb sx sy) (units M (ex + ey)) _
              (units_pos M (ex + ey) HM HE) Hs Hv
              (fun y1 Hv1 Hf1 =>
                 rounding_monotone (units M (ex + ey)) (Zdigits2 M + (ex + ey)) _ y1
                   (units_pos M (ex + ey) HM HE) Hcases Hexact Hdq Hv1 Hf1)
              y0 Hy0) as [Hlo Hhi].
  split; intros H; [apply Hlo | apply Hhi]; nia.
Qed.

(** *** Comparisons, in values *)

Lemma canonical_lt (s1 s2 : bool) (m1 m2 : positive) (e1 e2 : Z) :
  valid (S754_finite s1 m1 e1) = true -> valid (S754_finite s2 m2 e2) = true ->
  e1 < e2 -> units (Zpos m1) e1 < units (Zpos m2) e2.
Proof.
  intros H1 H2 Hlt.
  destruct (valid_canonical s1 m1 e1 H1) as [Hc1 _].
  destruct (valid_canonical s2 m2 e2 H2) as [Hc2 _].
  unfold units.
  apply Z.lt_le_trans with (2 ^ (Zpos (digits2_pos m1) + (e1 + 2148)));
    [apply scaled_lt; lia|].
  apply Z.le_trans with (2 ^ (Zpos (digits2_pos m2) - 1 + (e2 + 2148)));
    [apply Z.pow_le_mono_r; lia | apply scaled_ge; lia].
Qed.

Lemma units_le_same (m1 m2 : positive) (e : Z) :
  -2148 <= e -> (units (Zpos m1) e <= units (Zpos m2) e <-> (m1 <= m2)%positive).
Proof.
  intros He. unfold units.
  assert (0 < 2 ^ (e + 2148)) by (apply Z.pow_pos_nonneg; lia).
  split; intros Hle;
    [assert (Zpos m1 <= Zpos m2) by nia; lia | assert (Zpos m1 <= Zpos m2) by lia; nia].
Qed.

(** On doubles, [<=] is the order of the values. *)
Lemma leb_valZ (x y : number) :
  real x -> real y -> (leb x y = true <-> valZ x <= valZ y).
Proof.
  intros [Hvx Hfx] [Hvy Hfy].
  destruct x as [sx | sx | | sx mx ex]; try contradiction;
    destruct y as [sy | sy | | sy my ey]; try contradiction.
  - split; intros _; [cbn; lia | reflexivity].
  - destruct (valid_finite sy my ey Hvy).
    pose proof (units_pos (Zpos my) ey eq_refl ltac:(lia)).
    unfold leb, SFleb, SFcompare. cbn [valZ].
    destruct sy; cbn [cond_Zopp]; split; intros Hc;
      try reflexivity; try discriminate; lia.
  - destruct (valid_finite sx mx ex Hvx).
    pose proof (units_pos (Zpos mx) ex eq_refl ltac:(lia)).
    unfold leb, SFleb, SFcompare. cbn [valZ].
    destruct sx; cbn [cond_Zopp]; split; intros Hc;
      try reflexivity; try discriminate; lia.
  - destruct (valid_finite sx mx ex Hvx) as [_ Hex].
    destruct (valid_finite sy my ey Hvy) as [_ Hey].
    pose proof (units_pos (Zpos mx) ex eq_refl ltac:(lia)) as Hpx.
    pose proof (units_pos (Zpos my) ey eq_refl ltac:(lia)) as Hpy.
    unfold leb, SFleb, SFcompare. cbn [valZ].
    destruct sx, sy; cbn [cond_Zopp].
    + (* both negative *)
      destruct (Z.compare_spec ex ey) as [E | L | G].
      * subst ey. rewrite Pos.compare_cont_spec. cbn [Pos.switch_Eq].
        pose proof (units_le_same my mx ex ltac:(lia)) as Hiff.
        destruct (Pos.compare_spec mx my) as [E | L | G]; cbn [CompOpp];
          split; intros Hc; try reflexivity; try discriminate; lia.
      * pose proof (canonical_lt true true mx my ex ey Hvx Hvy L).
        split; intros Hc; try reflexivity; try discriminate; lia.
      * pose proof (canonical_lt true true my mx ey ex Hvy Hvx ltac:(lia)).
        split; intros Hc; try reflexivity; try discriminate; lia.
    + split; intros Hc; try reflexivity; lia.
    + split; intros Hc; try discriminate; lia.
    + (* both positive *)
      destruct (Z.compare_spec ex ey) as [E | L | G].
      * subst ey. rewrite Pos.compare_cont_spec. cbn [Pos.switch_Eq].
        pose proof (units_le_same mx my ex ltac:(lia)) as Hiff.
        destruct (Pos.compare_spec mx my) as [E | L | G];
          split; intros Hc; try reflexivity; try discriminate; lia.
      * pose proof (canonical_lt false false mx my ex ey Hvx Hvy L).
        split; intros Hc; try reflexivity; try discriminate; lia.
      * pose proof (canonical_lt false false my mx ey ex Hvy Hvx ltac:(lia)).
        split; intros Hc; try reflexivity; try discriminate; lia.
Qed.

(** *** Quotients are doubles *)

Lemma binary_round_aux_real (s : bool) (M E : Z) (l : location) :
  0 <= M -> E <= fexp prec emax (Zdigits2 M + E) -> Zdigits2 M + E <= 1000 ->
  real (binary_round_aux prec emax s M E l).
Proof.
  intros HM HE HD. unfold binary_round_aux.
  pose proof (shr_fexp_digits prec emax M E l HM) as H1. cbn zeta in H1.
  destruct (shr_fexp prec emax M E l) as [mrs1 e1]. cbn [fst snd] in H1.
  destruct H1 as (Hm1 & He1 & Hd1).
  set (m2 := round_nearest_even (shr_m mrs1) (loc_of_shr_record mrs1)).
  pose proof (round_nearest_even_bounds (shr_m mrs1) (loc_of_shr_record mrs1)) as Hr.
  fold m2 in Hr.
  assert (Hm2 : 0 <= m2) by lia.
  pose proof (Zdigits2_mono (shr_m mrs1) m2 (conj Hm1 (proj1 Hr))) as Hlo.
  assert (Hhi : Zdigits2 m2 <= Zdigits2 (shr_m mrs1) + 1).
  { transitivity (Zdigits2 (shr_m mrs1 + 1)); [apply Zdigits2_mono; lia|].
    apply Zdigits2_succ; assumption. }
  pose proof (shr_fexp_digits prec emax m2 e1 loc_Exact Hm2) as H2. cbn zeta in H2.
  destruct (shr_fexp prec emax m2 e1 loc_Exact) as [mrs2 e2]. cbn [fst snd] in H2.
  destruct H2 as (Hm3 & He2 & Hd3).
  pose proof (Zdigits2_nonneg M) as HdM.
  unfold fexp, SpecFloat.emin, prec, emax in *.
  destruct (shr_m mrs2) as [|m3|m3] eqn:Em3; [split; reflexivity | | lia].
  cbn [Zdigits2] in Hd3.
  destruct (Z.leb_spec e2 (1024 - 53)) as [Hle|Hgt]; [|lia].
  split.
  - unfold valid, valid_binary, bounded, canonical_mantissa, fexp, SpecFloat.emin, prec, emax.
    apply andb_true_intro. split; [apply Z.eqb_eq | apply Z.leb_le]; lia.
  - cbn [finiteBelow]. unfold magnitude. lia.
Qed.

Lemma div_real (x y : number) :
  real x -> real y -> finiteBelow 400 x -> finiteAbove (-400) y -> real (div x y).
Proof.
  intros [Hvx Hfx] [Hvy Hfy] Hbx Hby.
  destruct y as [sy | sy | | sy my ey]; try contradiction.
  destruct x as [sx | sx | | sx mx ex]; try contradiction; [split; reflexivity|].
  destruct (valid_canonical sx mx ex Hvx) as [Hcx Hex].
  destruct (valid_canonical sy my ey Hvy) as [Hcy Hey].
  cbn [finiteBelow finiteAbove] in Hbx, Hby. unfold magnitude in Hbx, Hby.
  unfold div, SFdiv.
  pose proof (SFdiv_core_binary_below mx my ex ey) as Hcore.
  unfold SFdiv_core_binary in *. cbn [Zdigits2] in *.
  set (d1 := Zpos (digits2_pos mx)) in *. set (d2 := Zpos (digits2_pos my)) in *.
  set (e' := Z.min (fexp prec emax (d1 + ex - (d2 + ey))) (ex - ey)) in *.
  set (sh := ex - ey - e') in *.
  set (m' := match sh with Z.pos _ => Z.shiftl (Zpos mx) sh | 0 => Zpos mx | Z.neg _ => 0 end)
    in *.
  assert (Hsh : 0 <= sh) by (unfold sh, e'; lia).
  assert (Hm' : m' = Zpos mx * 2 ^ sh).
  { unfold m'. destruct sh as [|p|p]; [cbn; lia | | lia].
    rewrite Z.shiftl_mul_pow2 by lia. reflexivity. }
  destruct (Z.div_eucl m' (Zpos my)) as [q r] eqn:Hde.
  destruct Hcore as [Hq0 HqD].
  assert (Hq : q = m' / Zpos my) by (unfold Z.div; rewrite Hde; reflexivity).
  apply binary_round_aux_real; [assumption | | unfold magnitude in HqD; fold d1 d2 in HqD; lia].
  assert (He'def : e' = Z.min (Z.max (d1 + ex - (d2 + ey) - 53) (-1074)) (ex - ey))
    by reflexivity.
  unfold fexp, SpecFloat.emin, prec, emax.
  destruct (Z_le_gt_dec e' (-1074)) as [Hlow | Hhigh]; [lia|].
  assert (He'eq : e' = d1 + ex - (d2 + ey) - 53) by lia.
  assert (Hsheq : sh = 53 - d1 + d2) by (unfold sh; lia).
  assert (Hq52 : 2 ^ 52 <= q).
  { rewrite Hq. apply Z.div_le_lower_bound; [lia|].
    rewrite Hm', Hsheq.
    assert (Hmx : 2 ^ (d1 - 1) <= Zpos mx)
      by (apply (Zdigits2_ge_iff (Zpos mx) d1); unfold d1; cbn [Zdigits2]; lia).
    assert (Hmy : Zpos my < 2 ^ d2)
      by (apply (Zdigits2_le_iff (Zpos my) d2); unfold d2; cbn [Zdigits2]; lia).
    assert (Hd1 : 1 <= d1) by (unfold d1; lia).
    assert (Hd2 : 1 <= d2) by (unfold d2; lia).
    assert (Hpw : 2 ^ (d1 - 1) * 2 ^ (53 - d1 + d2) = 2 ^ 52 * 2 ^ d2)
      by (rewrite <- !Z.pow_add_r by lia; f_equal; lia).
    assert (Hp1 : 0 < 2 ^ (53 - d1 + d2)) by (apply Z.pow_pos_nonneg; lia).
    assert (Hp2 : 0 < 2 ^ 52) by reflexivity.
    set (A := 2 ^ (d1 - 1)) in *. set (B := 2 ^ (53 - d1 + d2)) in *.
    set (C := 2 ^ d2) in *. set (P := 2 ^ 52) in *.
    nia. }
  assert (Hdq : 53 <= Zdigits2 q) by (apply Zdigits2_ge_iff; lia).
  lia.
Qed.

(** *** Doubles at hand *)

Lemma opp_real (x : number) : real x -> real (SFopp x).
Proof. destruct x; cbn; unfold real; cbn; tauto. Qed.

Lemma valZ_opp (x : number) : valZ (SFopp x) = - valZ x.
Proof. destruct x as [| | |[] m e]; cbn; lia. Qed.

Lemma zero_real (s : bool) : real (S754_zero s).
Proof. split; reflexivity. Qed.

(** The value of a double is a multiple of [2^-1074]. *)
Lemma valZ_multiple (x : number) : real x -> exists n : Z, valZ x = n * 2 ^ 1074.
Proof.
  intros [Hv _]. destruct x as [| | |s m e]; try (exists 0; reflexivity).
  destruct (valid_finite s m e Hv) as [_ He].
  exists (cond_Zopp s (Zpos m * 2 ^ (e + 1074))). cbn [valZ]. unfold units.
  rewrite (pow2_split (e + 2148) 1074) by lia.
  replace (e + 2148 - 1074) with (e + 1074) by lia.
  destruct s; cbn [cond_Zopp]; ring.
Qed.

Lemma finiteBelow_abs (K : Z) (x : number) :
  -2148 <= K -> finiteBelow K x -> Z.abs (valZ x) < 2 ^ (K + 2148).
Proof.
  intros HK Hf. assert (0 < 2 ^ (K + 2148)) by (apply Z.pow_pos_nonneg; lia).
  destruct x as [| | |s m e]; try contradiction; [cbn; lia|].
  cbn [finiteBelow valZ] in *. unfold magnitude in Hf.
  destruct (Z_lt_le_dec e (-2148)) as [Hlow | He].
  - unfold units. rewrite (Z.pow_neg_r 2 (e + 2148)) by lia. destruct s; cbn; lia.
  - pose proof (units_pos (Zpos m) e eq_refl He) as Hp.
    assert (units (Zpos m) e < 2 ^ (K + 2148)).
    { unfold units.
      apply Z.lt_le_trans with (2 ^ (Zpos (digits2_pos m) + (e + 2148)));
        [apply scaled_lt; lia | apply Z.pow_le_mono_r; lia]. }
    destruct s; cbn [cond_Zopp]; lia.
Qed.

Lemma abs_finiteBelow_real (K : Z) (x : number) :
  real x -> Z.abs (valZ x) < 2 ^ (K + 2148) -> finiteBelow K x.
Proof.
  intros [Hv Hf] Hlt. destruct x as [| | |s m e]; try contradiction; [exact I|].
  destruct (Z_lt_le_dec (K + 2148) 0) as [Hneg | HK];
    [rewrite (Z.pow_neg_r 2 (K + 2148)) in Hlt by lia; lia|].
  destruct (valid_finite s m e Hv) as [_ He].
  cbn [finiteBelow valZ] in *. unfold magnitude.
  pose proof (units_pos (Zpos m) e eq_refl ltac:(lia)) as Hp.
  assert (Hu : units (Zpos m) e < 2 ^ (K + 2148)) by (destruct s; cbn [cond_Zopp] in Hlt; lia).
  pose proof (scaled_ge m (e + 2148) ltac:(lia)) as Hge. fold (units (Zpos m) e) in Hge.
  assert (Hpw : 2 ^ (Zpos (digits2_pos m) - 1 + (e + 2148)) < 2 ^ (K + 2148)) by lia.
  apply Z.pow_lt_mono_r_iff in Hpw; lia.
Qed.

Lemma Zdigits2_pow2 (i : Z) : 0 <= i -> Zdigits2 (2 ^ i) = i + 1.
Proof.
  intros Hi. rewrite <- (Z.mul_1_l (2 ^ i)).
  rewrite Zdigits2_mul_pow2 by lia. change (Zdigits2 1) with 1. lia.
Qed.

(** Every power of two from [2^-1074] to [2^952] is a double. *)
Lemma pow2_double (j : Z) :
  1074 <= j <= 3100 -> exists P : number, real P /\ valZ P = 2 ^ j.
Proof.
  intros Hj. destruct (Z_lt_le_dec j 1126) as [Hsub | Hnorm].
  - set (i := j - 1074).
    assert (Hpos : 0 < 2 ^ i) by (apply Z.pow_pos_nonneg; lia).
    exists (S754_finite false (Z.to_pos (2 ^ i)) (-1074)).
    assert (Hd : Zpos (digits2_pos (Z.to_pos (2 ^ i))) = i + 1).
    { change (Zpos (digits2_pos (Z.to_pos (2 ^ i)))) with (Zdigits2 (Zpos (Z.to_pos (2 ^ i)))).
      rewrite Z2Pos.id by lia. apply Zdigits2_pow2. lia. }
    split; [split|].
    + unfold valid, valid_binary, bounded, canonical_mantissa, fexp, SpecFloat.emin, prec, emax.
      rewrite Hd. apply andb_true_intro. split; [apply Z.eqb_eq | apply Z.leb_le]; lia.
    + cbn [finiteBelow]. unfold magnitude. rewrite Hd. lia.
    + cbn [valZ cond_Zopp]. unfold units. rewrite Z2Pos.id by lia.
      rewrite <- Z.pow_add_r by lia. f_equal. lia.
  - exists (S754_finite false 4503599627370496 (j - 2148 - 52)).
    split; [split|].
    + unfold valid, valid_binary, bounded, canonical_mantissa, fexp, SpecFloat.emin, prec, emax.
      change (Zpos (digits2_pos 4503599627370496)) with 53.
      apply andb_true_intro. split; [apply Z.eqb_eq | apply Z.leb_le]; lia.
    + cbn [finiteBelow]. unfold magnitude.
      change (Zpos (digits2_pos 4503599627370496)) with 53. lia.
    + cbn [valZ cond_Zopp]. unfold units.
      change (Zpos 4503599627370496) with (2 ^ 52).
      rewrite <- Z.pow_add_r by lia. f_equal. lia.
Qed.

(** *** One quiet step of the temperature *)

Lemma rate_facts :
  real (ofDec 5 100) /\ finiteBelow (-4) (ofDec 5 100) /\
  0 < valZ (ofDec 5 100) <= 2 ^ 2147.
Proof.
  assert (Hr : real (ofDec 5 100)) by (split; vm_compute; [reflexivity | discriminate]).
  assert (Hf : finiteBelow (-4) (ofDec 5 100)) by (vm_compute; discriminate).
  split; [exact Hr|]. split; [exact Hf|]. split.
  - replace (ofDec 5 100) with (S754_finite false 7205759403792794 (-57))
      by (vm_compute; reflexivity).
    apply (units_pos 7205759403792794 (-57)); lia.
  - pose proof (finiteBelow_abs (-4) _ ltac:(lia) Hf) as Hlt.
    assert (Hpw : 2 ^ (-4 + 2148) <= 2 ^ 2147) by (apply Z.pow_le_mono_r; lia).
    set (A := 2 ^ (-4 + 2148)) in *. set (B := 2 ^ 2147) in *. lia.
Qed.

(** A positive difference of two doubles lies between two powers of two
    that are doubles. *)
Lemma bracket (x : Z) (a b : number) :
  real a -> real b -> finiteBelow 900 a -> finiteBelow 900 b ->
  x = valZ a - valZ b -> 0 < x ->
  exists (J : Z) (P P2 : number),
    real P /\ real P2 /\ valZ P = J /\ valZ P2 = 2 * J /\ 0 < J <= x /\ x < 2 * J.
Proof.
  intros Ha Hb Hfa Hfb Hx Hpos.
  destruct (valZ_multiple a Ha) as (na & Hna). destruct (valZ_multiple b Hb) as (nb & Hnb).
  pose proof (finiteBelow_abs 900 a ltac:(lia) Hfa) as Hba.
  pose proof (finiteBelow_abs 900 b ltac:(lia) Hfb) as Hbb.
  assert (Hp : 0 < 2 ^ 1074) by (apply Z.pow_pos_nonneg; lia).
  assert (Hlow : 2 ^ 1074 <= x).
  { rewrite Hx, Hna, Hnb. rewrite Hx, Hna, Hnb in Hpos.
    set (U := 2 ^ 1074) in *. nia. }
  assert (Hhigh : x < 2 ^ 3049).
  { replace 3049 with (Z.succ (900 + 2148)) by lia. rewrite Z.pow_succ_r by lia.
    set (U := 2 ^ (900 + 2148)) in *. lia. }
  set (j := Z.log2 x).
  destruct (Z.log2_spec x Hpos) as [Hj1 Hj2]. fold j in Hj1, Hj2.
  assert (Hj : 1074 <= j < 3049).
  { split; [apply Z.log2_le_pow2 | apply Z.log2_lt_pow2]; assumption || lia. }
  destruct (pow2_double j ltac:(lia)) as (P & HP & HvP).
  destruct (pow2_double (j + 1) ltac:(lia)) as (P2 & HP2 & HvP2).
  rewrite Z.pow_succ_r in Hj2 by lia.
  replace (j + 1) with (Z.succ j) in HvP2 by lia. rewrite Z.pow_succ_r in HvP2 by lia.
  exists (2 ^ j), P, P2.
  assert (0 < 2 ^ j) by (apply Z.pow_pos_nonneg; lia).
  clear Hlow Hhigh Hba Hbb Hp.
  split; [exact HP|]. split; [exact HP2|]. split; [exact HvP|]. split; [exact HvP2|].
  split; [split; assumption | assumption].
Qed.


Lemma rate_lower : 2 ^ 2143 <= valZ (ofDec 5 100).
Proof.
  replace (ofDec 5 100) with (S754_finite false 7205759403792794 (-57))
    by (vm_compute; reflexivity).
  cbn [valZ cond_Zopp]. unfold units.
  replace (-57 + 2148) with 2091 by lia.
  rewrite (pow2_split 2143 2091) by lia. replace (2143 - 2091) with 52 by lia.
  apply Z.mul_le_mono_nonneg_r; [apply Z.pow_nonneg; lia|].
  vm_compute. discriminate.
Qed.

(** A difference of two doubles that is not tiny lies between a power of
    two and its double, and a 32nd of that power is a double too. *)
Lemma bracket32 (x : Z) (a b : number) :
  real a -> real b -> finiteBelow 900 a -> finiteBelow 900 b ->
  x = valZ a - valZ b -> 2 ^ 1079 <= x ->
  exists P Q : number,
    real P /\ real Q /\ valZ P = 32 * valZ Q /\ 0 < valZ Q /\
    valZ P <= x /\ x < 2 * valZ P.
Proof.
  intros Ha Hb Hfa Hfb Hx Hlow.
  pose proof (finiteBelow_abs 900 a ltac:(lia) Hfa) as Hba.
  pose proof (finiteBelow_abs 900 b ltac:(lia) Hfb) as Hbb.
  assert (Hp : 0 < 2 ^ 1079) by (apply Z.pow_pos_nonneg; lia).
  assert (Hpos : 0 < x) by (set (U := 2 ^ 1079) in *; lia).
  assert (Hhigh : x < 2 ^ 3049).
  { replace 3049 with (Z.succ (900 + 2148)) by lia. rewrite Z.pow_succ_r by lia.
    set (U := 2 ^ (900 + 2148)) in *. lia. }
  set (j := Z.log2 x).
  destruct (Z.log2_spec x Hpos) as [Hj1 Hj2]. fold j in Hj1, Hj2.
  assert (Hj : 1079 <= j < 3049).
  { split; [apply Z.log2_le_pow2 | apply Z.log2_lt_pow2]; assumption || lia. }
  destruct (pow2_double j ltac:(lia)) as (P & HP & HvP).
  destruct (pow2_double (j - 5) ltac:(lia)) as (Q & HQ & HvQ).
  rewrite Z.pow_succ_r in Hj2 by lia.
  assert (H32 : 2 ^ j = 32 * 2 ^ (j - 5)).
  { rewrite (pow2_split j (j - 5)) by lia. replace (j - (j - 5)) with 5 by lia.
    reflexivity. }
  assert (0 < 2 ^ (j - 5)) by (apply Z.pow_pos_nonneg; lia).
  clear Hlow Hhigh Hba Hbb Hp.
  exists P, Q. rewrite HvP, HvQ.
  split; [exact HP|]. split; [exact HQ|]. split; [exact H32|]. split; [assumption|].
  split; assumption.
Qed.

(** Every multiple of [2^-42] from [-2048] to [2048] is a double. *)
Lemma grid_double (n : Z) :
  - 2 ^ 53 <= n <= 2 ^ 53 -> exists y : number, real y /\ valZ y = n * 2 ^ 2106.
Proof.
  assert (Hpos : forall n : Z, 0 < n <= 2 ^ 53 ->
            exists y : number, real y /\ valZ y = n * 2 ^ 2106).
  { clear n. intros n Hn. destruct (Z.eq_dec n (2 ^ 53)) as [-> | Hne].
    - destruct (pow2_double 2159 ltac:(lia)) as (P & HP & HvP).
      exists P. split; [exact HP|]. rewrite HvP, <- Z.pow_add_r by lia. reflexivity.
    - set (s := 53 - Zdigits2 n).
      assert (Hd : 1 <= Zdigits2 n <= 53).
      { split; [destruct n; cbn; lia|].
        apply (Zdigits2_le_iff n 53); lia. }
      assert (Hm : 0 < n * 2 ^ s)
        by (apply Z.mul_pos_pos; [lia | apply Z.pow_pos_nonneg; lia]).
      assert (Hdm : Zpos (digits2_pos (Z.to_pos (n * 2 ^ s))) = 53).
      { change (Zpos (digits2_pos (Z.to_pos (n * 2 ^ s))))
          with (Zdigits2 (Zpos (Z.to_pos (n * 2 ^ s)))).
        rewrite Z2Pos.id by lia. rewrite Zdigits2_mul_pow2 by lia. lia. }
      exists (S754_finite false (Z.to_pos (n * 2 ^ s)) (-42 - s)).
      split; [split|].
      + unfold valid, valid_binary, bounded, canonical_mantissa, fexp, SpecFloat.emin,
          prec, emax.
        rewrite Hdm. apply andb_true_intro. split; [apply Z.eqb_eq | apply Z.leb_le]; lia.
      + cbn [finiteBelow]. unfold magnitude. rewrite Hdm. lia.
      + cbn [valZ cond_Zopp]. unfold units. rewrite Z2Pos.id by lia.
        rewrite <- Z.mul_assoc, <- Z.pow_add_r by lia. f_equal. f_equal. lia. }
  intros Hn. destruct (Z.compare_spec n 0) as [-> | Hneg | Hp].
  - exists (S754_zero false). split; [apply zero_real | reflexivity].
  - destruct (Hpos (- n) ltac:(lia)) as (y & Hy & Hv).
    exists (SFopp y). split; [apply opp_real; exact Hy|]. rewrite valZ_opp, Hv. ring.
  - apply Hpos. lia.
Qed.

(** A double whose value lies between those of two doubles below [2^K]
    is below [2^K]. *)
Lemma between_finiteBelow (K : Z) (a b x : number) :
  -2148 <= K -> finiteBelow K a -> finiteBelow K b -> real x ->
  (valZ a <= valZ x <= valZ b \/ valZ b <= valZ x <= valZ a) ->
  finiteBelow K x.
Proof.
  intros HK Ha Hb Hx Hbetween. apply abs_finiteBelow_real; [exact Hx|].
  pose proof (finiteBelow_abs K a HK Ha). pose proof (finiteBelow_abs K b HK Hb).
  set (B := 2 ^ (K + 2148)) in *. lia.
Qed.

Lemma abs_real (x : number) : real x -> real (abs x) /\ valZ (abs x) = Z.abs (valZ x).
Proof.
  intros [Hv Hf]. destruct x as [| | |s m e]; try contradiction.
  - split; [split; reflexivity | reflexivity].
  - split; [split; [exact Hv | exact Hf]|].
    destruct (valid_finite s m e Hv) as [_ He].
    pose proof (units_pos (Zpos m) e eq_refl ltac:(lia)).
    cbn [abs SFabs valZ]. destruct s; cbn [cond_Zopp]; lia.
Qed.

Section Approach.
Variables T temp : number.
Hypothesis HT : real T.
Hypothesis Htemp : real temp.
Hypothesis HTb : finiteBelow 900 T.
Hypothesis Htempb : finiteBelow 900 temp.

(** The change [(T - temp) * 0.05] has the sign of the gap and is not
    larger than the gap. *)
Lemma change_within_gap :
  let c := mul (sub T temp) (ofDec 5 100) in
  real c /\ finiteBelow 899 c /\
  (valZ temp <= valZ T -> 0 <= valZ c <= valZ T - valZ temp) /\
  (valZ T <= valZ temp -> valZ T - valZ temp <= valZ c <= 0).
Proof.
  intros c. subst c. rewrite sub_add_opp.
  destruct rate_facts as (Hk & Hkb & Hk0 & Hk1).
  pose proof (opp_real temp Htemp) as Hopp.
  pose proof (opp_finiteBelow 900 temp Htempb) as Hoppb.
  destruct (add_monotone T (SFopp temp) HT Hopp
              (finiteBelow_mono 900 999 T ltac:(lia) HTb)
              (finiteBelow_mono 900 999 _ ltac:(lia) Hoppb)) as [Hg Hgm].
  pose proof (add_finiteBelow 900 T (SFopp temp) HTb Hoppb ltac:(lia)) as Hgb.
  rewrite valZ_opp in Hgm.
  set (g := add T (SFopp temp)) in *.
  destruct (mul_monotone 902 (-4) g (ofDec 5 100) Hg Hk Hgb Hkb ltac:(lia)) as [Hc Hcm].
  pose proof (mul_finiteBelow 902 (-4) g (ofDec 5 100) Hgb Hkb ltac:(lia)) as Hcb.
  split; [exact Hc|]. split; [exact Hcb|].
  set (c := mul g (ofDec 5 100)) in *.
  set (k := valZ (ofDec 5 100)) in *.
  assert (HW : 2 ^ 2148 = 2 * 2 ^ 2147)
    by (replace 2148 with (Z.succ 2147) by lia; rewrite Z.pow_succ_r by lia; reflexivity).
  rewrite HW in Hcm. set (K := 2 ^ 2147) in *.
  pose proof (zero_real false) as Hz.
  destruct (Hgm _ Hz) as [Hg0lo Hg0hi]. destruct (Hcm _ Hz) as [Hc0lo Hc0hi].
  change (valZ (S754_zero false)) with 0 in Hg0lo, Hg0hi, Hc0lo, Hc0hi.
  rewrite Z.mul_0_l in Hc0lo, Hc0hi.
  set (t := valZ temp) in *. set (TT := valZ T) in *.
  split; intros Hle.
  - assert (Hgpos : 0 <= valZ g) by (apply Hg0lo; lia).
    assert (Hcpos : 0 <= valZ c) by (apply Hc0lo; apply Z.mul_nonneg_nonneg; lia).
    split; [exact Hcpos|].
    destruct (Z.eq_dec (TT - t) 0) as [E0 | N0].
    + assert (Hg0 : valZ g = 0) by (assert (valZ g <= 0) by (apply Hg0hi; lia); lia).
      assert (valZ c <= 0) by (apply Hc0hi; rewrite Hg0; lia). lia.
    + destruct (bracket (TT - t) T temp HT Htemp HTb Htempb eq_refl ltac:(lia))
        as (J & P & P2 & HPr & HP2r & HvP & HvP2 & HJx & HxJ).
      assert (Hg2 : valZ g <= 2 * J).
      { rewrite <- HvP2. apply (proj2 (Hgm P2 HP2r)). lia. }
      assert (HcP : valZ c <= J).
      { rewrite <- HvP. apply (proj2 (Hcm P HPr)). rewrite HvP.
        apply Z.le_trans with (2 * J * K); [|lia].
        apply Z.mul_le_mono_nonneg; lia. }
      lia.
  - assert (Hgneg : valZ g <= 0) by (apply Hg0hi; lia).
    assert (Hcneg : valZ c <= 0)
      by (apply Hc0hi; apply Z.mul_nonpos_nonneg; lia).
    split; [|exact Hcneg].
    destruct (Z.eq_dec (TT - t) 0) as [E0 | N0].
    + assert (Hg0 : valZ g = 0) by (assert (0 <= valZ g) by (apply Hg0lo; lia); lia).
      assert (0 <= valZ c) by (apply Hc0lo; rewrite Hg0; lia). lia.
    + destruct (bracket (t - TT) temp T Htemp HT Htempb HTb eq_refl ltac:(lia))
        as (J & P & P2 & HPr & HP2r & HvP & HvP2 & HJx & HxJ).
      assert (Hg2 : - (2 * J) <= valZ g).
      { rewrite <- HvP2, <- valZ_opp. apply (proj1 (Hgm _ (opp_real P2 HP2r))).
        rewrite valZ_opp, HvP2. lia. }
      assert (HcP : - J <= valZ c).
      { rewrite <- HvP, <- valZ_opp. apply (proj1 (Hcm _ (opp_real P HPr))).
        rewrite valZ_opp, HvP.
        assert (Hneg : (- valZ g) * k <= 2 * J * K)
          by (apply Z.mul_le_mono_nonneg; lia).
        lia. }
      lia.
Qed.

(** One quiet step, in values: the double nearest to the temperature
    plus the change. *)
Lemma approach_sum :
  let c := mul (sub T temp) (ofDec 5 100) in
  real (approach T temp) /\
  forall y0 : number, real y0 ->
    (valZ y0 <= valZ temp + valZ c -> valZ y0 <= valZ (approach T temp)) /\
    (valZ temp + valZ c <= valZ y0 -> valZ (approach T temp) <= valZ y0).
Proof.
  destruct change_within_gap as (Hc & Hcb & _). cbn zeta in *.
  unfold approach.
  replace (mul (ofZ 0) (ofDec 1 10)) with (S754_zero false) by (vm_compute; reflexivity).
  set (c := mul (sub T temp) (ofDec 5 100)) in *.
  destruct (add_monotone temp c Htemp Hc
              (finiteBelow_mono 900 999 temp ltac:(lia) Htempb)
              (finiteBelow_mono 899 999 c ltac:(lia) Hcb)) as [H1 H1m].
  pose proof (add_finiteBelow 900 temp c Htempb
                (finiteBelow_mono 899 900 c ltac:(lia) Hcb) ltac:(lia)) as Hb1.
  set (temp1 := add temp c) in *.
  destruct (add_monotone temp1 (S754_zero false) H1 (zero_real false)
              (finiteBelow_mono (900 + 2) 999 temp1 ltac:(lia) Hb1) I) as [H2 H2m].
  destruct (H2m temp1 H1) as [Hlo3 Hhi3].
  change (valZ (S754_zero false)) with 0 in Hlo3, Hhi3.
  assert (Heq : valZ (add temp1 (S754_zero false)) = valZ temp1).
  { assert (valZ temp1 <= valZ (add temp1 (S754_zero false))) by (apply Hlo3; lia).
    assert (valZ (add temp1 (S754_zero false)) <= valZ temp1) by (apply Hhi3; lia).
    lia. }
  rewrite Heq. split; [exact H2 | exact H1m].
Qed.

(** One quiet step lands between the temperature and the steady state. *)
Lemma approach_between :
  real (approach T temp) /\
  (valZ temp <= valZ T ->
   valZ temp <= valZ (approach T temp) <= valZ T) /\
  (valZ T <= valZ temp ->
   valZ T <= valZ (approach T temp) <= valZ temp).
Proof.
  destruct change_within_gap as (_ & _ & Hup & Hdown).
  destruct approach_sum as [Hr Hm]. cbn zeta in *.
  destruct (Hm temp Htemp) as [Hlo1 Hhi1]. destruct (Hm T HT) as [Hlo2 Hhi2].
  split; [exact Hr|].
  split; intros Hle; [specialize (Hup Hle) | specialize (Hdown Hle)]; split;
    try (apply Hlo1; lia); try (apply Hhi1; lia);
    try (apply Hlo2; lia); try (apply Hhi2; lia).
Qed.

(** Unless the gap is tiny, the change is more than a 64th of it. *)
Lemma change_not_small :
  let c := mul (sub T temp) (ofDec 5 100) in
  (2 ^ 1079 <= valZ T - valZ temp -> valZ T - valZ temp < 64 * valZ c) /\
  (2 ^ 1079 <= valZ temp - valZ T -> valZ temp - valZ T < 64 * - valZ c).
Proof.
  intros c. subst c. rewrite sub_add_opp.
  destruct rate_facts as (Hk & Hkb & Hk0 & _). pose proof rate_lower as Hk2.
  pose proof (opp_real temp Htemp) as Hopp.
  pose proof (opp_finiteBelow 900 temp Htempb) as Hoppb.
  destruct (add_monotone T (SFopp temp) HT Hopp
              (finiteBelow_mono 900 999 T ltac:(lia) HTb)
              (finiteBelow_mono 900 999 _ ltac:(lia) Hoppb)) as [Hg Hgm].
  pose proof (add_finiteBelow 900 T (SFopp temp) HTb Hoppb ltac:(lia)) as Hgb.
  rewrite valZ_opp in Hgm.
  set (g := add T (SFopp temp)) in *.
  destruct (mul_monotone 902 (-4) g (ofDec 5 100) Hg Hk Hgb Hkb ltac:(lia)) as [Hc Hcm].
  set (c := mul g (ofDec 5 100)) in *.
  set (k := valZ (ofDec 5 100)) in *.
  assert (HW : 2 ^ 2148 = 32 * 2 ^ 2143)
    by (rewrite (pow2_split 2148 2143) by lia; reflexivity).
  rewrite HW in Hcm. set (K := 2 ^ 2143) in *.
  set (t := valZ temp) in *. set (TT := valZ T) in *.
  split; intros Hle.
  - destruct (bracket32 (TT - t) T temp HT Htemp HTb Htempb eq_refl Hle)
      as (P & Q & HPr & HQr & HPQ & HQ0 & HPx & HxP).
    assert (HgP : valZ P <= valZ g) by (apply (proj1 (Hgm P HPr)); lia).
    assert (HcQ : valZ Q <= valZ c).
    { apply (proj1 (Hcm Q HQr)).
      apply Z.le_trans with (valZ P * K); [lia|].
      apply Z.mul_le_mono_nonneg; lia. }
    lia.
  - destruct (bracket32 (t - TT) temp T Htemp HT Htempb HTb eq_refl Hle)
      as (P & Q & HPr & HQr & HPQ & HQ0 & HPx & HxP).
    assert (HgP : valZ g <= - valZ P).
    { rewrite <- valZ_opp. apply (proj2 (Hgm _ (opp_real P HPr))).
      rewrite valZ_opp. lia. }
    assert (HcQ : valZ c <= - valZ Q).
    { rewrite <- valZ_opp. apply (proj2 (Hcm _ (opp_real Q HQr))).
      rewrite valZ_opp.
      assert (valZ P * K <= (- valZ g) * k) by (apply Z.mul_le_mono_nonneg; lia).
      lia. }
    lia.
Qed.

(** As long as the temperature is [2^-36] or more from the steady state
    (both below 2048 in absolute value), a quiet step changes it. *)
Lemma approach_progress :
  finiteBelow 11 T -> finiteBelow 11 temp ->
  2 ^ 2112 <= Z.abs (valZ T - valZ temp) ->
  valZ (approach T temp) <> valZ temp.
Proof.
  intros HT11 Ht11 Hgap Hfix.
  destruct change_within_gap as (_ & _ & Hup & Hdown).
  destruct change_not_small as [Hrise Hfall].
  destruct approach_sum as [Hr Hm]. cbn zeta in *.
  set (c := valZ (mul (sub T temp) (ofDec 5 100))) in *.
  pose proof (finiteBelow_abs 11 T ltac:(lia) HT11) as HTa.
  pose proof (finiteBelow_abs 11 temp ltac:(lia) Ht11) as Hta.
  assert (HB : 2 ^ (11 + 2148) = 2 ^ 53 * 2 ^ 2106)
    by (rewrite <- Z.pow_add_r by lia; reflexivity).
  assert (H64 : 2 ^ 2112 = 64 * 2 ^ 2106)
    by (rewrite (pow2_split 2112 2106) by lia; reflexivity).
  assert (Hsmall : 2 ^ 1079 <= 2 ^ 2112) by (apply Z.pow_le_mono_r; lia).
  assert (HU : 0 < 2 ^ 2106) by (apply Z.pow_pos_nonneg; lia).
  assert (HB53 : 0 < 2 ^ 53) by (apply Z.pow_pos_nonneg; lia).
  rewrite HB in HTa, Hta. rewrite H64 in Hgap, Hsmall.
  rewrite Hfix in Hm.
  pose proof grid_double as Hgrid.
  set (U := 2 ^ 2106) in *. set (B := 2 ^ 53) in *. set (S := 2 ^ 1079) in *.
  set (t := valZ temp) in *. set (TT := valZ T) in *.
  destruct (Z_le_gt_dec t TT) as [Hle | Hgt].
  - specialize (Hup Hle). specialize (Hrise ltac:(lia)).
    pose proof (Z.div_mod (t + c) U ltac:(lia)) as Hdm.
    pose proof (Z.mod_pos_bound (t + c) U HU) as Hr0.
    set (n := (t + c) / U) in *. set (r := (t + c) mod U) in *.
    assert (Hn : - B <= n <= B) by nia.
    destruct (Hgrid n Hn) as (y0 & Hy0 & Hv0).
    assert (valZ y0 <= t) by (apply (proj1 (Hm y0 Hy0)); lia).
    lia.
  - specialize (Hdown ltac:(lia)). specialize (Hfall ltac:(lia)).
    pose proof (Z.div_mod (- (t + c)) U ltac:(lia)) as Hdm.
    pose proof (Z.mod_pos_bound (- (t + c)) U HU) as Hr0.
    set (n := (- (t + c)) / U) in *. set (r := (- (t + c)) mod U) in *.
    assert (Hn : - B <= - n <= B) by nia.
    destruct (Hgrid (- n) Hn) as (y0 & Hy0 & Hv0).
    assert (t <= valZ y0) by (apply (proj2 (Hm y0 Hy0)); lia).
    lia.
Qed.
End Approach.

(** *** The steady state is a double *)

Lemma targetTemp_real (load : number) :
  inLoadRange load = true ->
  real (targetTemp load) /\ finiteBelow 11 (targetTemp load).
Proof.
  intros Hload. pose proof (load_finiteBelow load Hload) as Hb.
  assert (Hv : valid load = true).
  { unfold inLoadRange in Hload. rewrite !andb_true_iff in Hload. tauto. }
  assert (Hr : real load) by (split; [exact Hv | apply finiteBelow_mono with 7; [lia | exact Hb]]).
  assert (H100 : real (ofZ 100)) by (split; vm_compute; [reflexivity | discriminate]).
  assert (H60 : real (ofZ 60)) by (split; vm_compute; [reflexivity | discriminate]).
  assert (H25 : real (ofZ 25)) by (split; vm_compute; [reflexivity | discriminate]).
  assert (Hlf : real (loadFactor load)).
  { apply div_real; try assumption.
    - apply finiteBelow_mono with 7; [lia | exact Hb].
    - vm_compute. discriminate. }
  pose proof (loadFactor_finite load Hb) as Hlfb.
  assert (H60b : finiteBelow 6 (ofZ 60)) by (vm_compute; discriminate).
  assert (H25b : finiteBelow 9 (ofZ 25)) by (vm_compute; discriminate).
  destruct (mul_monotone 2 6 (loadFactor load) (ofZ 60) Hlf H60 Hlfb H60b ltac:(lia))
    as [Hrise _].
  pose proof (mul_finiteBelow 2 6 _ _ Hlfb H60b ltac:(lia)) as Hriseb.
  unfold targetTemp.
  destruct (add_monotone (ofZ 25) (mul (loadFactor load) (ofZ 60)) H25 Hrise
              (finiteBelow_mono 9 999 _ ltac:(lia) H25b)
              (finiteBelow_mono 9 999 _ ltac:(lia) Hriseb)) as [HT _].
  split; [exact HT|].
  apply (add_finiteBelow 9); try assumption; lia.
Qed.

(** *** Quiet runs *)

Lemma tolerance_facts : real tolerance /\ valZ tolerance = 2 ^ 2112.
Proof.
  replace tolerance with (S754_finite false 4503599627370496 (-88))
    by (vm_compute; reflexivity).
  split; [split; vm_compute; [reflexivity | discriminate]|].
  cbn [valZ cond_Zopp]. unfold units.
  change (Zpos 4503599627370496) with (2 ^ 52).
  rewrite <- Z.pow_add_r by lia. reflexivity.
Qed.

(** Two doubles less than [2^-36] apart: their difference, as the code
    computes it, is within the tolerance. *)
Lemma sub_close (a b : number) :
  real a -> real b -> finiteBelow 900 a -> finiteBelow 900 b ->
  Z.abs (valZ a - valZ b) < 2 ^ 2112 ->
  leb (abs (sub a b)) tolerance = true.
Proof.
  intros Ha Hb Hfa Hfb Hclose. rewrite sub_add_opp.
  destruct tolerance_facts as [Htol Hvtol].
  destruct (add_monotone a (SFopp b) Ha (opp_real b Hb)
              (finiteBelow_mono 900 999 a ltac:(lia) Hfa)
              (finiteBelow_mono 900 999 _ ltac:(lia) (opp_finiteBelow 900 b Hfb)))
    as [Hg Hgm].
  rewrite valZ_opp in Hgm.
  destruct (abs_real _ Hg) as [Hag Hvag].
  apply (leb_valZ _ _ Hag Htol). rewrite Hvag, Hvtol.
  pose proof (proj2 (Hgm tolerance Htol)) as Hhi.
  pose proof (proj1 (Hgm _ (opp_real _ Htol))) as Hlo.
  rewrite valZ_opp, Hvtol in Hlo. rewrite Hvtol in Hhi.
  set (E := 2 ^ 2112) in *. lia.
Qed.

Section QuietRun.
Variables now load : number.
Variable d : TelemetryData number.
Hypothesis Hload : inLoadRange load = true.
Hypothesis Hvalid : valid (temperature d) = true.
Hypothesis Hbound : finiteBelow 11 (temperature d).

Lemma quiet_step (k : nat) :
  temperature (quietSteps (S k) now d load)
  = approach (targetTemp load) (temperature (quietSteps k now d load)).
Proof. reflexivity. Qed.

Lemma quiet_invariant (k : nat) :
  real (temperature (quietSteps k now d load)) /\
  finiteBelow 11 (temperature (quietSteps k now d load)).
Proof.
  destruct (targetTemp_real load Hload) as [HT HTb].
  induction k as [|k [IHr IHb]].
  - split; [split; [exact Hvalid | exact (finiteBelow_mono 11 1001 _ ltac:(lia) Hbound)]
           | exact Hbound].
  - rewrite quiet_step.
    destruct (approach_between _ _ HT IHr
                (finiteBelow_mono 11 900 _ ltac:(lia) HTb)
                (finiteBelow_mono 11 900 _ ltac:(lia) IHb)) as (Hr & Hup & Hdown).
    split; [exact Hr|].
    apply (between_finiteBelow 11 (temperature (quietSteps k now d load)) (targetTemp load));
      try assumption; [lia|].
    destruct (Z_le_gt_dec (valZ (temperature (quietSteps k now d load)))
                (valZ (targetTemp load))) as [Hle | Hgt].
    + left. apply Hup. exact Hle.
    + right. apply Hdown. lia.
Qed.

Lemma quiet_between (k : nat) :
  let T := valZ (targetTemp load) in
  let t := valZ (temperature (quietSteps k now d load)) in
  let t' := valZ (temperature (quietSteps (S k) now d load)) in
  (t <= T -> t <= t' <= T) /\ (T <= t -> T <= t' <= t).
Proof.
  destruct (targetTemp_real load Hload) as [HT HTb].
  destruct (quiet_invariant k) as [Hr Hb].
  cbn zeta. rewrite quiet_step.
  exact (proj2 (approach_between _ _ HT Hr
                  (finiteBelow_mono 11 900 _ ltac:(lia) HTb)
                  (finiteBelow_mono 11 900 _ ltac:(lia) Hb))).
Qed.

Lemma quiet_side (k : nat) :
  let T := valZ (targetTemp load) in
  (valZ (temperature d) <= T -> valZ (temperature (quietSteps k now d load)) <= T) /\
  (T <= valZ (temperature d) -> T <= valZ (temperature (quietSteps k now d load))).
Proof.
  cbn zeta. induction k as [|k [IHlo IHhi]]; [split; intros H; exact H|].
  destruct (quiet_between k) as [Hup Hdown]. cbn zeta in *.
  split; intros H0; [apply Hup, IHlo, H0 | apply Hdown, IHhi, H0].
Qed.

Lemma quiet_gap_antitone (K k : nat) :
  (K <= k)%nat ->
  Z.abs (valZ (targetTemp load) - valZ (temperature (quietSteps k now d load)))
  <= Z.abs (valZ (targetTemp load) - valZ (temperature (quietSteps K now d load))).
Proof.
  induction 1 as [|k Hle IH]; [lia|].
  destruct (quiet_between k) as [Hup Hdown]. cbn zeta in *.
  set (T := valZ (targetTemp load)) in *.
  set (t' := valZ (temperature (quietSteps (S k) now d load))) in *.
  set (t := valZ (temperature (quietSteps k now d load))) in *.
  lia.
Qed.

Lemma quiet_settles_from (n k : nat) :
  Z.abs (valZ (targetTemp load) - valZ (temperature (quietSteps k now d load)))
  < 2 ^ 2112 + Z.of_nat n ->
  exists K : nat,
    Z.abs (valZ (targetTemp load) - valZ (temperature (quietSteps K now d load)))
    < 2 ^ 2112.
Proof.
  destruct (targetTemp_real load Hload) as [HT HTb].
  revert k. induction n as [|n IH]; intros k Hgap.
  - exists k. lia.
  - destruct (Z_lt_le_dec
                (Z.abs (valZ (targetTemp load)
                        - valZ (temperature (quietSteps k now d load))))
                (2 ^ 2112)) as [Hclose | Hfar]; [exists k; exact Hclose|].
    apply (IH (S k)).
    destruct (quiet_invariant k) as [Hr Hb].
    pose proof (approach_progress _ _ HT Hr
                  (finiteBelow_mono 11 900 _ ltac:(lia) HTb)
                  (finiteBelow_mono 11 900 _ ltac:(lia) Hb) HTb Hb Hfar) as Hmove.
    rewrite <- quiet_step in Hmove.
    destruct (quiet_between k) as [Hup Hdown]. cbn zeta in *.
    set (T := valZ (targetTemp load)) in *.
    set (t' := valZ (temperature (quietSteps (S k) now d load))) in *.
    set (t := valZ (temperature (quietSteps k now d load))) in *.
    set (E := 2 ^ 2112) in *. lia.
Qed.

(** A quiet run in binary64: monotone, never past the steady state, and
    from some step on within [2^-36] of it. *)
Lemma quiet_run_binary64 :
  let T := targetTemp load in
  let temp k := temperature (quietSteps k now d load) in
  (leb (temp 0%nat) T = true ->
   forall k : nat, leb (temp k) (temp (S k)) = true /\ leb (temp (S k)) T = true) /\
  (leb T (temp 0%nat) = true ->
   forall k : nat, leb T (temp (S k)) = true /\ leb (temp (S k)) (temp k) = true) /\
  (exists K : nat, forall k : nat, (K <= k)%nat ->
     leb (abs (sub T (temp k))) tolerance = true).
Proof.
  intros T temp. subst T temp. cbn beta.
  destruct (targetTemp_real load Hload) as [HT HTb].
  assert (Hr : forall k, real (temperature (quietSteps k now d load)))
    by (intros k; apply quiet_invariant).
  split; [|split].
  - intros H0 k. apply (leb_valZ _ _ (Hr 0%nat) HT) in H0.
    destruct (quiet_between k) as [Hup _]. cbn zeta in Hup.
    pose proof (proj1 (quiet_side k) H0) as Hk.
    split; [apply (leb_valZ _ _ (Hr k) (Hr (S k))) | apply (leb_valZ _ _ (Hr (S k)) HT)];
      apply Hup; exact Hk.
  - intros H0 k. apply (leb_valZ _ _ HT (Hr 0%nat)) in H0.
    destruct (quiet_between k) as [_ Hdown]. cbn zeta in Hdown.
    pose proof (proj2 (quiet_side k) H0) as Hk.
    split; [apply (leb_valZ _ _ HT (Hr (S k))) | apply (leb_valZ _ _ (Hr (S k)) (Hr k))];
      apply Hdown; exact Hk.
  - destruct (quiet_settles_from
                (Z.to_nat (Z.abs (valZ (targetTemp load) - valZ (temperature d)))) 0%nat)
      as [K HK].
    { cbn [quietSteps]. rewrite Z2Nat.id by lia.
      assert (0 < 2 ^ 2112) by (apply Z.pow_pos_nonneg; lia).
      set (E := 2 ^ 2112) in *. lia. }
    exists K. intros k Hk.
    destruct (quiet_invariant k) as [Hrk Hbk].
    apply sub_close; try assumption;
      try (apply finiteBelow_mono with 11; [lia | assumption]).
    pose proof (quiet_gap_antitone K k Hk).
    set (E := 2 ^ 2112) in *. lia.
Qed.
End QuietRun.
End Faithful.

(** The steady state the code computes and the formula [25 + load*0.6]
    evaluated in binary64 are within [2^-46] of each other at every
    integer load of the slider, 0 to 120. *)
Lemma steady_state_formula_integer_loads :
  forallb (fun z : Z =>
             B64.leb (B64.abs (B64.sub (B64.targetTemp (B64.ofZ z))
                                 (B64.steadyFormula (B64.ofZ z))))
               (B64.div (B64.ofZ 1) (B64.ofZ (2 ^ 46))))
    (map Z.of_nat (seq 0 121)) = true.
Proof. vm_compute. reflexivity. Qed.

(** C8.  With the noise at 0 and a constant target load in [0, 120], from
    a finite starting temperature below 2048 in absolute value, the
    temperature the program computes in binary64 moves towards the steady
    state [25 + (targetLoad/100)*60] at every step and never passes it:
    from below it does not fall and stays at or below the steady state,
    from above it does not rise and stays at or above it; from some step on
    it stays within [2^-36] of the steady state.  In exact arithmetic the
    steady state is [25 + targetLoad*0.6] and each step leaves 95% of the
    gap to it. *)
Theorem quiet_temperature_approaches_steady_state
    (now load : B64.number) (d : TelemetryData B64.number) :
  B64.inLoadRange load = true ->
  B64.valid (temperature d) = true ->
  B64.finiteBelow 11 (temperature d) ->
  let T := B64.targetTemp load in
  let temp k := temperature (quietSteps k now d load) in
  (B64.leb (temp 0%nat) T = true ->
   forall k : nat,
     B64.leb (temp k) (temp (S k)) = true /\ B64.leb (temp (S k)) T = true) /\
  (B64.leb T (temp 0%nat) = true ->
   forall k : nat,
     B64.leb T (temp (S k)) = true /\ B64.leb (temp (S k)) (temp k) = true) /\
  (exists K : nat, forall k : nat, (K <= k)%nat ->
     B64.leb (B64.abs (B64.sub T (temp k))) B64.tolerance = true) /\
  (forall (now' load' : Q) (d' : TelemetryData Q) (k : nat),
     (quietTemperature (S k) now' d' load' - steadyTemperature load'
      == (19 # 20) * (quietTemperature k now' d' load' - steadyTemperature load'))%Q).
Proof.
  intros Hload Hvalid Hbound T temp.
  destruct (Faithful.quiet_run_binary64 now load d Hload Hvalid Hbound)
    as (Hrise & Hfall & Hsettle).
  split; [exact Hrise|]. split; [exact Hfall|]. split; [exact Hsettle|].
  intros now' load' d' k. rewrite (quiet_temp_succ now' load' d' k). ring.
Qed.

(** From the seed sample (25 degrees) at a load of 50%: the steady state
    is 55, and the first step does not lower the temperature nor pass 55. *)
Lemma quiet_temperature_example :
  let d := MOCK_INITIAL_DATA (B64.ofZ 0) in
  B64.leb (temperature d)
    (temperature (quietSteps 1 (B64.ofZ 0) d (B64.ofZ 50))) = true /\
  B64.leb (temperature (quietSteps 1 (B64.ofZ 0) d (B64.ofZ 50)))
    (B64.targetTemp (B64.ofZ 50)) = true.
Proof.
  intros d.
  assert (Hload : B64.inLoadRange (B64.ofZ 50) = true) by (vm_compute; reflexivity).
  assert (Hvalid : B64.valid (temperature d) = true) by (vm_compute; reflexivity).
  assert (Hbound : B64.finiteBelow 11 (temperature d)) by (vm_compute; discriminate).
  assert (Hbelow : B64.leb (temperature d) (B64.targetTemp (B64.ofZ 50)) = true)
    by (vm_compute; reflexivity).
  exact (proj1 (quiet_temperature_approaches_steady_state
                  (B64.ofZ 0) (B64.ofZ 50) d Hload Hvalid Hbound) Hbelow 0%nat).
Defined.

(** ** The bounds of a step *)

Section StepRange.
Import B64 B64Facts StepBounds.
Local Open Scope Z_scope.

(** C6.  For every target load in [0, 120], every previous sample and
    every noise in [-0.5, 0.5), the sample of the step has a voltage, a
    current and a power that are [>= 0] and an efficiency that is
    [<= 100]. *)
Theorem step_outputs_in_range
    (targetLoad noise now : number) (prev : TelemetryData number) :
  inLoadRange targetLoad = true -> inNoiseRange noise = true ->
  let sample := stepWithNoise noise now prev targetLoad in
  geb (voltage sample) (ofZ 0) = true /\
  geb (current sample) (ofZ 0) = true /\
  geb (power sample) (ofZ 0) = true /\
  leb (efficiency sample) (ofZ 100) = true.
Proof.
  intros Hload Hn.
  assert (Hn2 : finiteBelow 2 noise)
    by (apply finiteBelow_mono with 0; [lia | apply noise_finiteBelow, Hn]).
  destruct (stepWithNoise_bounded targetLoad noise now prev
              (load_finiteBelow targetLoad Hload) Hn2)
    as (Hv & Hc & Hp & He & _).
  cbn zeta. auto.
Qed.

Lemma step_outputs_in_range_example :
  let sample :=
    stepWithNoise (ofDec (-5) 10) (ofZ 0) (MOCK_INITIAL_DATA (ofZ 0)) (ofZ 120) in
  geb (voltage sample) (ofZ 0) = true /\
  geb (current sample) (ofZ 0) = true /\
  geb (power sample) (ofZ 0) = true /\
  leb (efficiency sample) (ofZ 100) = true.
Proof.
  apply (step_outputs_in_range (ofZ 120) (ofDec (-5) 10) (ofZ 0)
           (MOCK_INITIAL_DATA (ofZ 0)));
    vm_compute; reflexivity.
Defined.

(** The noise of a call, for a world in which [Math.random] keeps its
    contract and returns a double of [0, 1). *)
Lemma drawn_noise_finiteBelow (r : number) :
  inUnitInterval r = true -> finiteBelow 2 (sub r half).
Proof.
  intros Hr. change 2 with (0 + 2).
  apply sub_finiteBelow; [apply unit_finiteBelow, Hr | | lia].
  apply finiteBelowb_spec. vm_compute. reflexivity.
Qed.

(** C5.  For every target load in [0, 120], every previous sample and
    every value of [0, 1) that [Math.random] returns, the power of the
    sample [simulateStep] returns is the product of the voltage and the
    current of that same sample, floored at 0.  (The code multiplies
    before it floors the factors; the voltage is positive on this range,
    so the two orders agree.) *)
Theorem step_power_is_floored_product
    (targetLoad : number) (prev : TelemetryData number) (w : World number) :
  inLoadRange targetLoad = true ->
  inUnitInterval (random_draws w (draws_used w)) = true ->
  let sample := fst (simulateStep prev targetLoad w) in
  power sample = Math_max (of_Z 0) (voltage sample * current sample)%num.
Proof.
  intros Hload Hr. rewrite simulateStep_run. cbn [fst].
  destruct (stepWithNoise_bounded targetLoad
              (sub (random_draws w (draws_used w)) half)
              (clock_readings w (clock_reads w)) prev
              (load_finiteBelow targetLoad Hload)
              (drawn_noise_finiteBelow _ Hr))
    as (_ & _ & _ & _ & Hp).
  exact Hp.
Qed.

Lemma step_power_is_floored_product_example :
  let sample :=
    fst (simulateStep (MOCK_INITIAL_DATA (ofZ 0)) (ofZ 0)
           (constantWorld (ofDec 2 10) (ofZ 0))) in
  power sample = Math_max (of_Z 0) (voltage sample * current sample)%num.
Proof.
  apply (step_power_is_floored_product (ofZ 0) (MOCK_INITIAL_DATA (ofZ 0))
           (constantWorld (ofDec 2 10) (ofZ 0)));
    vm_compute; reflexivity.
Defined.

(** The same with the noise as a parameter. *)
Lemma stepWithNoise_power_is_floored_product
    (targetLoad noise now : number) (prev : TelemetryData number) :
  inLoadRange targetLoad = true -> inNoiseRange noise = true ->
  let sample := stepWithNoise noise now prev targetLoad in
  power sample = Math_max (of_Z 0) (voltage sample * current sample)%num.
Proof.
  intros Hload Hn.
  assert (Hn2 : finiteBelow 2 noise)
    by (apply finiteBelow_mono with 0; [lia | apply noise_finiteBelow, Hn]).
  destruct (stepWithNoise_bounded targetLoad noise now prev
              (load_finiteBelow targetLoad Hload) Hn2)
    as (_ & _ & _ & _ & Hp).
  exact Hp.
Qed.

(** The bounds through [simulateStep]. *)
Lemma simulateStep_outputs_in_range
    (targetLoad : number) (prev : TelemetryData number) (w : World number) :
  inLoadRange targetLoad = true ->
  inUnitInterval (random_draws w (draws_used w)) = true ->
  let sample := fst (simulateStep prev targetLoad w) in
  geb (voltage sample) (ofZ 0) = true /\
  geb (current sample) (ofZ 0) = true /\
  geb (power sample) (ofZ 0) = true /\
  leb (efficiency sample) (ofZ 100) = true.
Proof.
  intros Hload Hr. rewrite simulateStep_run. cbn [fst].
  destruct (stepWithNoise_bounded targetLoad
              (sub (random_draws w (draws_used w)) half)
              (clock_readings w (clock_reads w)) prev
              (load_finiteBelow targetLoad Hload)
              (drawn_noise_finiteBelow _ Hr))
    as (Hv & Hc & Hp & He & _).
  auto.
Qed.

(** Outside the range the product of the floored factors is not the
    floored product: at a load of 0 and a noise of -200 both factors are
    negative, the returned voltage and current are 0 and the power is 2400. *)
Lemma step_power_outside_noise_range :
  let sample := stepWithNoise (ofZ (-200)) (ofZ 0) (MOCK_INITIAL_DATA (ofZ 0)) (ofZ 0) in
  voltage sample = S754_zero false /\ current sample = S754_zero false /\
  power sample = ofZ 2400.
Proof. vm_compute. repeat split. Qed.
End StepRange.

(** ** The window of the history, whatever it holds *)

Section Window.
Context {N : Type} `{JsNum N}.

Lemma tick_history_length (s : SystemState N) (w : World N) :
  List.length (history (fst (tick s w))) = Nat.max 1 (List.length (history s)).
Proof.
  rewrite tick_run. cbn [fst history]. rewrite length_app. cbn [List.length].
  destruct (history s) as [|a h]; cbn [tl List.length]; lia.
Qed.

Lemma tick_flags (s : SystemState N) (w : World N) :
  simulationActive (fst (tick s w)) = simulationActive s /\
  isConnected (fst (tick s w)) = isConnected s /\
  targetLoad (fst (tick s w)) = targetLoad s.
Proof. rewrite tick_run. cbn. auto. Qed.

Lemma tick_last (s : SystemState N) (w : World N) (d : TelemetryData N) :
  last (history (fst (tick s w))) d = data (fst (tick s w)).
Proof.
  rewrite tick_run. cbn [fst history data].
  rewrite last_app_nonempty by discriminate. reflexivity.
Qed.

(** X1.  The updater keeps the length of the history it finds, not 60: on
    a running state, after one tick or more a history of [n >= 1] samples
    still has [n], and an empty one has exactly one, the newest sample;
    the last entry is the current sample. *)
Theorem history_window_is_kept (k : nat) (s : SystemState N) (w : World N) :
  simulationActive s = true -> isConnected s = true ->
  let s' := fst (ticks (S k) s w) in
  List.length (history s') = Nat.max 1 (List.length (history s)) /\
  last (history s') (data s) = data s'.
Proof.
  revert s w. induction k as [|k IH]; intros s w Hact Hcon; cbn zeta.
  - rewrite ticks_succ by assumption. cbn [ticks ret fst].
    split; [apply tick_history_length | apply tick_last].
  - rewrite ticks_succ by assumption.
    destruct (tick_flags s w) as (Ha & Hc & _).
    destruct (IH (fst (tick s w)) (snd (tick s w))) as [Hlen Hlast];
      [congruence | congruence |].
    split.
    + rewrite Hlen, tick_history_length. lia.
    + rewrite <- Hlast. apply last_default.
      intros Hnil. rewrite Hnil in Hlen. cbn [List.length] in Hlen. lia.
Qed.
End Window.

Lemma history_window_is_kept_example :
  let s := {| isConnected := true; simulationActive := true;
              targetLoad := B64.ofZ 40;
              data := MOCK_INITIAL_DATA (B64.ofZ 0);
              history := [] |} in
  let w := constantWorld (B64.ofDec 5 10) (B64.ofZ 7) in
  List.length (history (fst (ticks 5 s w))) = 1%nat.
Proof.
  intros s w.
  exact (proj1 (history_window_is_kept 4 s w eq_refl eq_refl)).
Defined.

(** ** Stopping and starting *)

Section Pause.
Context {N : Type} `{JsNum N}.

Lemma ticks_idle (k : nat) (s : SystemState N) (w : World N) :
  simulationActive s && isConnected s = false -> ticks k s w = (s, w).
Proof.
  intros Hoff. induction k as [|k IH]; [reflexivity|].
  cbn [ticks]. unfold bind, onInterval. rewrite Hoff. cbn [ret]. exact IH.
Qed.

Lemma togglePower_twice (s : SystemState N) : togglePower (togglePower s) = s.
Proof. destruct s as [c a l d h]. unfold togglePower. cbn. now rewrite negb_involutive. Qed.

(** X2.  While the simulation is stopped the period boundaries do
    nothing at all: no sample is computed, no random value or clock
    reading is consumed.  So a click on STOP, any number of period
    boundaries and a click on START give back the very state the first
    click found, in the same world. *)
Theorem stop_then_start_resumes (k : nat) (s : SystemState N) (w : World N) :
  simulationActive s = true ->
  ticks k (togglePower s) w = (togglePower s, w) /\
  togglePower (fst (ticks k (togglePower s) w)) = s /\
  snd (ticks k (togglePower s) w) = w.
Proof.
  intros Hact.
  assert (Hidle : ticks k (togglePower s) w = (togglePower s, w)).
  { apply ticks_idle. cbn. rewrite Hact. reflexivity. }
  rewrite Hidle. cbn [fst snd]. rewrite togglePower_twice. auto.
Qed.
End Pause.

Lemma stop_then_start_resumes_example :
  let s := initialState (B64.ofZ 0) in
  let w := constantWorld (B64.ofDec 5 10) (B64.ofZ 7) in
  togglePower (fst (ticks 3 (togglePower s) w)) = s.
Proof.
  intros s w.
  exact (proj1 (proj2 (stop_then_start_resumes 3 s w eq_refl))).
Defined.

(** ** Draws and clock readings of a run *)

Section Accounting.
Context {N : Type} `{JsNum N}.

Lemma tick_world (s : SystemState N) (w : World N) :
  snd (tick s w) =
  {| random_draws := random_draws w; draws_used := S (draws_used w);
     clock_readings := clock_readings w; clock_reads := S (clock_reads w) |}.
Proof. rewrite tick_run. cbn [snd]. rewrite simulateStep_run. reflexivity. Qed.

Lemma tick_timestamp (s : SystemState N) (w : World N) :
  timestamp (data (fst (tick s w))) = clock_readings w (clock_reads w).
Proof. rewrite tick_run. cbn [fst data]. rewrite simulateStep_run. reflexivity. Qed.

(** X3.  On a running state [k] period boundaries consume exactly [k]
    values of [Math.random] and [k] readings of the clock, in order and
    without changing what is still to come; the sample after one more
    tick carries the reading number [k] as its timestamp. *)
Theorem ticks_consume_one_each (k : nat) (s : SystemState N) (w : World N) :
  simulationActive s = true -> isConnected s = true ->
  let w' := snd (ticks k s w) in
  draws_used w' = (draws_used w + k)%nat /\
  clock_reads w' = (clock_reads w + k)%nat /\
  random_draws w' = random_draws w /\
  clock_readings w' = clock_readings w /\
  timestamp (data (fst (ticks (S k) s w)))
  = clock_readings w (clock_reads w + k)%nat.
Proof.
  revert s w. induction k as [|k IH]; intros s w Hact Hcon; cbn zeta.
  - rewrite ticks_succ by assumption. cbn [ticks ret fst snd].
    rewrite !Nat.add_0_r, tick_timestamp. auto.
  - rewrite (ticks_succ (S k)), (ticks_succ k) by assumption.
    destruct (tick_flags s w) as (Ha & Hc & _).
    pose proof (tick_world s w) as Hw.
    set (s1 := fst (tick s w)) in *. set (w1 := snd (tick s w)) in *.
    destruct (IH s1 w1) as (Hd & Hr & Hrd & Hcr & Hts); [congruence | congruence |].
    rewrite Hd, Hr, Hrd, Hcr, Hts, Hw.
    cbn [draws_used clock_reads random_draws clock_readings].
    replace (clock_reads w + S k)%nat with (S (clock_reads w + k)) by lia.
    repeat split; lia.
Qed.
End Accounting.

Lemma ticks_consume_one_each_example :
  let s := initialState (B64.ofZ 0) in
  let w := constantWorld (B64.ofDec 5 10) (B64.ofZ 7) in
  draws_used (snd (ticks 4 s w)) = 4%nat.
Proof.
  intros s w.
  exact (proj1 (ticks_consume_one_each 4 s w eq_refl eq_refl)).
Defined.

(** ** Any sequence of events *)

Section Events.
Import B64.

Lemma run_cons (e : event) (es : list event) (s : SystemState number) (w : World number) :
  run (e :: es) s w = run es (fst (dispatch e s w)) (snd (dispatch e s w)).
Proof. cbn [run]. unfold bind. now destruct (dispatch e s w). Qed.

Lemma run_app (es1 es2 : list event) (s : SystemState number) (w : World number) :
  run (es1 ++ es2) s w = run es2 (fst (run es1 s w)) (snd (run es1 s w)).
Proof.
  revert s w. induction es1 as [|e es1 IH]; intros s w; [reflexivity|].
  cbn [app]. rewrite !run_cons. apply IH.
Qed.

Lemma onInterval_cases (s : SystemState number) (w : World number) :
  onInterval s w = tick s w \/ onInterval s w = (s, w).
Proof. unfold onInterval. destruct (simulationActive s && isConnected s); auto. Qed.

(** What every handler keeps: the connection flag, the length of the
    history, and the current sample as the last entry of the history. *)
Lemma dispatch_keeps (e : event) (s : SystemState number) (w : World number)
    (n : nat) (d0 : TelemetryData number) :
  (1 <= n)%nat ->
  isConnected s = true -> List.length (history s) = n -> last (history s) d0 = data s ->
  isConnected (fst (dispatch e s w)) = true /\
  List.length (history (fst (dispatch e s w))) = n /\
  last (history (fst (dispatch e s w))) d0 = data (fst (dispatch e s w)).
Proof.
  intros Hn Hcon Hlen Hlast. destruct e as [| |v]; cbn [dispatch].
  - destruct (onInterval_cases s w) as [-> | ->]; [|cbn [fst]; auto].
    destruct (tick_flags s w) as (_ & Hc & _).
    rewrite Hc, tick_history_length, tick_last, Hlen. repeat split; [assumption | lia].
  - cbn. auto.
  - cbn. auto.
Qed.

(** X4.  From the initial state, after any sequence of period boundaries,
    clicks on the power button and moves of the slider (to any text at
    all): the unit is still connected (no handler ever clears the flag),
    the history still has exactly 60 entries, and its last entry is the
    current sample. *)
Theorem every_reachable_state (es : list event) (loaded_at : number) (w : World number) :
  let s := fst (run es (initialState loaded_at) w) in
  isConnected s = true /\
  List.length (history s) = 60%nat /\
  last (history s) (MOCK_INITIAL_DATA loaded_at) = data s.
Proof.
  cbn zeta.
  assert (Hgen : forall (s : SystemState number) (w : World number),
            isConnected s = true -> List.length (history s) = 60%nat ->
            last (history s) (MOCK_INITIAL_DATA loaded_at) = data s ->
            isConnected (fst (run es s w)) = true /\
            List.length (history (fst (run es s w))) = 60%nat /\
            last (history (fst (run es s w))) (MOCK_INITIAL_DATA loaded_at)
            = data (fst (run es s w))).
  { induction es as [|e es IH]; intros s w0 Hc Hl Hd; [cbn; auto|].
    rewrite run_cons.
    destruct (dispatch_keeps e s w0 60 (MOCK_INITIAL_DATA loaded_at)
                ltac:(lia) Hc Hl Hd) as (Hc' & Hl' & Hd').
    apply IH; assumption. }
  apply Hgen; reflexivity.
Qed.

(** ** A target load that is not a number *)

Lemma add_nan_r (x : number) : add x NaN = NaN.
Proof. destruct x; reflexivity. Qed.

Lemma stepWithNoise_nan_load (noise now : number) (prev : TelemetryData number) :
  let sample := stepWithNoise noise now prev NaN in
  voltage sample = NaN /\ current sample = NaN /\ power sample = NaN /\
  temperature sample = NaN /\ efficiency sample = NaN /\ status sample = NOMINAL.
Proof.
  cbn zeta. unfold stepWithNoise.
  cbn [voltage current power temperature efficiency status
       of_Z dec nadd nsub nmul ndiv Math_abs Math_max ngt binary64].
  change (div NaN (ofZ 100)) with NaN.
  change (mul NaN (ofZ 5)) with NaN.
  change (mul (ofZ 30) NaN) with NaN.
  change (mul NaN (ofZ 60)) with NaN.
  change (sub NaN (ofDec 5 10)) with NaN.
  change (sub NOMINAL_VOLTAGE NaN) with NaN.
  change (add (ofZ 25) NaN) with NaN.
  change (add NaN (mul noise (ofDec 15 10))) with NaN.
  change (add NaN (mul noise (ofDec 2 10))) with NaN.
  change (sub NaN (temperature prev)) with NaN.
  change (mul NaN (ofDec 5 100)) with NaN.
  change (abs NaN) with NaN.
  change (mul NaN (ofZ 10)) with NaN.
  change (sub (ofZ 95) NaN) with NaN.
  change (add NaN (mul noise (ofDec 5 10))) with NaN.
  change (mul NaN NaN) with NaN.
  rewrite add_nan_r.
  change (add NaN (mul noise (ofDec 1 10))) with NaN.
  repeat split.
Qed.

(** X5.  A text of ASCII characters for which [parseInt] gives NaN (the
    empty text, a text that does not start with a number) is stored as the
    target load, and the next tick of a running simulation returns a
    sample whose voltage, current, power, temperature and efficiency are
    all NaN, with the status NOMINAL. *)
Theorem unparsable_load_gives_nan_sample
    (v : string) (s : SystemState number) (w : World number) :
  ParseInt.asciiText v = true ->
  ParseInt.parseInt v = NaN ->
  simulationActive s = true -> isConnected s = true ->
  let s' := fst (run [LoadChanged v; IntervalFires] s w) in
  isNaN (targetLoad s') = true /\
  voltage (data s') = NaN /\ current (data s') = NaN /\ power (data s') = NaN /\
  temperature (data s') = NaN /\ efficiency (data s') = NaN /\
  status (data s') = NOMINAL.
Proof.
  intros Hascii Hv Hact Hcon. cbn zeta.
  rewrite !run_cons. cbn [run ret fst snd dispatch].
  unfold onInterval. cbn [handleLoadChange simulationActive isConnected].
  rewrite Hact, Hcon. cbn [andb].
  rewrite tick_run. cbn [fst data targetLoad handleLoadChange].
  rewrite simulateStep_run. cbn [fst]. rewrite Hv.
  split; [reflexivity|]. apply stepWithNoise_nan_load.
Qed.

Lemma unparsable_load_gives_nan_sample_example :
  let s' := fst (run [LoadChanged ""; IntervalFires] (initialState (ofZ 0))
                   (constantWorld (ofDec 5 10) (ofZ 7))) in
  isNaN (targetLoad s') = true /\
  voltage (data s') = NaN /\ current (data s') = NaN /\ power (data s') = NaN /\
  temperature (data s') = NaN /\ efficiency (data s') = NaN /\
  status (data s') = NOMINAL.
Proof.
  exact (unparsable_load_gives_nan_sample "" (initialState (ofZ 0))
           (constantWorld (ofDec 5 10) (ofZ 7)) eq_refl eq_refl eq_refl eq_refl).
Defined.

(** ** A temperature that is not a number *)

Lemma stepWithNoise_nan_temperature
    (noise now load : number) (prev : TelemetryData number) :
  isNaN (temperature prev) = true ->
  isNaN (temperature (stepWithNoise noise now prev load)) = true.
Proof.
  intros Hnan. unfold stepWithNoise.
  cbn [temperature of_Z dec nadd nsub nmul ndiv binary64].
  destruct (temperature prev); try discriminate. reflexivity.
Qed.

Lemma dispatch_nan_temperature (e : event) (s : SystemState number) (w : World number) :
  isNaN (temperature (data s)) = true ->
  isNaN (temperature (data (fst (dispatch e s w)))) = true.
Proof.
  intros Hnan. destruct e as [| |v]; cbn [dispatch]; try exact Hnan.
  destruct (onInterval_cases s w) as [-> | ->]; [|exact Hnan].
  rewrite tick_run. cbn [fst data]. rewrite simulateStep_run. cbn [fst].
  apply stepWithNoise_nan_temperature. exact Hnan.
Qed.

(** X6.  A temperature that is NaN stays NaN: whatever happens next
    (ticks at any load and any noise, clicks, moves of the slider back
    to a valid load), the temperature of the current sample is NaN. *)
Theorem nan_temperature_is_permanent
    (es : list event) (s : SystemState number) (w : World number) :
  isNaN (temperature (data s)) = true ->
  isNaN (temperature (data (fst (run es s w)))) = true.
Proof.
  revert s w. induction es as [|e es IH]; intros s w Hnan; [exact Hnan|].
  rewrite run_cons. apply IH. apply dispatch_nan_temperature. exact Hnan.
Qed.
End Events.

(** The temperature is lost by one tick at an unparsable load, and a valid
    load afterwards does not bring it back. *)
Lemma nan_temperature_is_permanent_example :
  let s := fst (run [LoadChanged "abc"; IntervalFires] (initialState (B64.ofZ 0))
                  (constantWorld (B64.ofDec 5 10) (B64.ofZ 7))) in
  B64.isNaN (temperature (data (fst
    (run [LoadChanged "40"; IntervalFires; IntervalFires] s
       (constantWorld (B64.ofDec 5 10) (B64.ofZ 8)))))) = true.
Proof.
  intros s.
  exact (nan_temperature_is_permanent [LoadChanged "40"; IntervalFires; IntervalFires] s
           (constantWorld (B64.ofDec 5 10) (B64.ofZ 8)) eq_refl).
Defined.

(** ** The slider *)

Section Slider.
Import B64.

Lemma slider_value_parses (n : nat) :
  (n <= 120)%nat ->
  ParseInt.parseInt (sliderValue n) = ofZ (Z.of_nat n) /\
  inLoadRange (ParseInt.parseInt (sliderValue n)) = true.
Proof.
  intros Hn.
  do 121 (destruct n as [|n]; [vm_compute; split; reflexivity|]).
  lia.
Qed.

(** X7.  Every position of the slider, 0 to 120, is parsed back to that
    very number and stored; the next tick of a running simulation, with a
    value of [0, 1) from [Math.random], then returns a sample with
    voltage, current and power [>= 0] and efficiency [<= 100]. *)
Theorem slider_move_then_tick
    (n : nat) (s : SystemState number) (w : World number) :
  (n <= 120)%nat ->
  simulationActive s = true -> isConnected s = true ->
  inUnitInterval (random_draws w (draws_used w)) = true ->
  let s' := fst (run [LoadChanged (sliderValue n); IntervalFires] s w) in
  targetLoad s' = ofZ (Z.of_nat n) /\
  geb (voltage (data s')) (ofZ 0) = true /\
  geb (current (data s')) (ofZ 0) = true /\
  geb (power (data s')) (ofZ 0) = true /\
  leb (efficiency (data s')) (ofZ 100) = true.
Proof.
  intros Hn Hact Hcon Hr. cbn zeta.
  destruct (slider_value_parses n Hn) as [Hparse Hrange].
  rewrite !run_cons. cbn [run ret fst snd dispatch].
  unfold onInterval. cbn [handleLoadChange simulationActive isConnected].
  rewrite Hact, Hcon. cbn [andb].
  rewrite tick_run. cbn [fst data targetLoad handleLoadChange].
  split; [exact Hparse|].
  apply (simulateStep_outputs_in_range _ (data s) w Hrange Hr).
Qed.
End Slider.

Lemma slider_move_then_tick_example :
  let s' := fst (run [LoadChanged (sliderValue 120); IntervalFires]
                   (initialState (B64.ofZ 0))
                   (constantWorld (B64.ofDec 5 10) (B64.ofZ 7))) in
  targetLoad s' = B64.ofZ 120 /\
  B64.geb (voltage (data s')) (B64.ofZ 0) = true /\
  B64.geb (current (data s')) (B64.ofZ 0) = true /\
  B64.geb (power (data s')) (B64.ofZ 0) = true /\
  B64.leb (efficiency (data s')) (B64.ofZ 100) = true.
Proof.
  apply (slider_move_then_tick 120 (initialState (B64.ofZ 0))
           (constantWorld (B64.ofDec 5 10) (B64.ofZ 7)));
    [lia | reflexivity | reflexivity | vm_compute; reflexivity].
Defined.

(** ** The diagnostics call and its handler *)

Module DiagnosticsFacts.
Import GeminiService Diagnostics GeminiFacts.
Local Open Scope string_scope.

Section Handler.
Variable API_KEY : option string.
Variable toFixed : B64.number -> nat -> string.
Variable generateContent : string -> attempt (option string).
Variable JSON_parse : string -> option json.

(** X8.  A payload that parses is passed on unchecked.  With a
    credential, a non-empty response text and a payload that is a JSON
    object, the report holds the four members as they were found: a
    missing member is [undefined], and the status is whatever value the
    payload gave, valid or not.  A payload that is a number, a string, a
    boolean or an array gives a report of four [undefined] members.  In
    neither case is the fallback report substituted. *)
Theorem generateDiagnostics_passes_payload
    (telemetry : TelemetryData B64.number) (text : string) (payload : json) :
  truthy API_KEY = true ->
  generateContent (prompt toFixed telemetry) = inr (Some text) ->
  text <> "" ->
  JSON_parse text = Some payload ->
  payload <> JNull ->
  generateDiagnostics API_KEY toFixed generateContent JSON_parse telemetry
  = Fulfilled
      (match payload with
       | JObject members =>
           {| status := lookup "status" members;
              analysis := lookup "analysis" members;
              recommendation := lookup "recommendation" members;
              estimatedTimeUntilFailure := lookup "estimatedTimeUntilFailure" members |}
       | _ => {| status := None; analysis := None; recommendation := None;
                 estimatedTimeUntilFailure := None |}
       end).
Proof.
  intros Hkey Hcall Htext Hparse Hnull.
  unfold generateDiagnostics, requestReport. rewrite Hkey, Hcall. cbn [negb andThen truthy].
  assert (Hne : String.eqb text "" = false) by (apply String.eqb_neq; exact Htext).
  rewrite Hne. cbn [negb andThen]. rewrite Hparse. cbn [andThen].
  destruct payload; try contradiction; reflexivity.
Qed.

(** X9.  With a credential the handler always ends with the loading flag
    cleared, a report in place and its promise fulfilled; when the request
    fails in one of the four ways, the report is the fallback one. *)
Theorem handleDiagnostics_settles
    (systemState : SystemState B64.number) (panel : Panel) :
  truthy API_KEY = true ->
  let after := handleDiagnostics API_KEY toFixed generateContent JSON_parse
                 systemState panel in
  aiLoading (fst after) = false /\
  snd after = Fulfilled tt /\
  (exists report, aiReport (fst after) = Some report) /\
  (requestFails toFixed generateContent JSON_parse (data systemState) ->
   aiReport (fst after) = Some fallbackReport).
Proof.
  intros Hkey. cbn zeta. unfold handleDiagnostics, generateDiagnostics.
  rewrite Hkey. cbn [negb fst snd aiLoading aiReport].
  repeat split; [eauto|].
  intros Hfail. destruct (requestFails_throws _ _ _ _ Hfail) as (e & ->).
  reflexivity.
Qed.

(** X10.  Without a credential the handler never comes back: the call
    throws, the two setters after the [await] do not run, so the loading
    flag stays set and the report shown is the one from before; the
    promise of the handler is rejected with the error of the missing key. *)
Theorem handleDiagnostics_without_key
    (systemState : SystemState B64.number) (panel : Panel) :
  truthy API_KEY = false ->
  let after := handleDiagnostics API_KEY toFixed generateContent JSON_parse
                 systemState panel in
  aiLoading (fst after) = true /\
  aiReport (fst after) = aiReport panel /\
  snd after
  = Rejected (Error "API Key is missing. Please check your environment configuration.").
Proof.
  intros Hkey. cbn zeta. unfold handleDiagnostics, generateDiagnostics.
  rewrite Hkey. cbn. auto.
Qed.

(** X22.  Only the six readings leave the page: the prompt is built from
    the voltage, current, power, temperature, frequency and efficiency
    alone, so two samples that agree on them get the same prompt and the
    same settled call, whatever their timestamp and their status. *)
Theorem prompt_sends_readings_only (t1 t2 : TelemetryData B64.number) :
  voltage t1 = voltage t2 -> current t1 = current t2 -> power t1 = power t2 ->
  temperature t1 = temperature t2 -> frequency t1 = frequency t2 ->
  efficiency t1 = efficiency t2 ->
  prompt toFixed t1 = prompt toFixed t2 /\
  generateDiagnostics API_KEY toFixed generateContent JSON_parse t1
  = generateDiagnostics API_KEY toFixed generateContent JSON_parse t2.
Proof.
  intros Hv Hc Hp Ht Hf He.
  assert (Hprompt : prompt toFixed t1 = prompt toFixed t2).
  { unfold prompt. rewrite Hv, Hc, Hp, Ht, Hf, He. reflexivity. }
  split; [exact Hprompt|].
  unfold generateDiagnostics, requestReport. rewrite Hprompt. reflexivity.
Qed.
End Handler.

(** A service that answers with an object of two members, one of them a
    status that is no status. *)
Lemma generateDiagnostics_passes_payload_example :
  generateDiagnostics (Some "key") (fun _ _ => "0.00") (fun _ => inr (Some "{...}"))
    (fun _ => Some (JObject [("status", JString "BANANA"); ("analysis", JNumber (B64.ofZ 3))]))
    (MOCK_INITIAL_DATA (B64.ofZ 0))
  = Fulfilled {| status := Some (JString "BANANA");
                 analysis := Some (JNumber (B64.ofZ 3));
                 recommendation := None;
                 estimatedTimeUntilFailure := None |}.
Proof.
  exact (generateDiagnostics_passes_payload (Some "key") (fun _ _ => "0.00")
           (fun _ => inr (Some "{...}"))
           (fun _ => Some (JObject [("status", JString "BANANA");
                                    ("analysis", JNumber (B64.ofZ 3))]))
           (MOCK_INITIAL_DATA (B64.ofZ 0)) "{...}"
           (JObject [("status", JString "BANANA"); ("analysis", JNumber (B64.ofZ 3))])
           eq_refl eq_refl ltac:(discriminate) eq_refl ltac:(discriminate)).
Defined.

Lemma handleDiagnostics_settles_example :
  aiLoading (fst (handleDiagnostics (Some "key") (fun _ _ => "0.00")
                    (fun _ => inl ApiFailure) (fun _ => None)
                    (initialState (B64.ofZ 0))
                    {| aiReport := None; aiLoading := false |})) = false.
Proof.
  exact (proj1 (handleDiagnostics_settles (Some "key") (fun _ _ => "0.00")
                  (fun _ => inl ApiFailure) (fun _ => None)
                  (initialState (B64.ofZ 0))
                  {| aiReport := None; aiLoading := false |} eq_refl)).
Defined.

Lemma handleDiagnostics_without_key_example :
  aiLoading (fst (handleDiagnostics None (fun _ _ => "0.00")
                    (fun _ => inl ApiFailure) (fun _ => None)
                    (initialState (B64.ofZ 0))
                    {| aiReport := None; aiLoading := false |})) = true.
Proof.
  exact (proj1 (handleDiagnostics_without_key None (fun _ _ => "0.00")
                  (fun _ => inl ApiFailure) (fun _ => None)
                  (initialState (B64.ofZ 0))
                  {| aiReport := None; aiLoading := false |} eq_refl)).
Defined.
End DiagnosticsFacts.

Lemma prompt_sends_readings_only_example :
  let t1 := MOCK_INITIAL_DATA (B64.ofZ 0) in
  let t2 := {| timestamp := B64.ofZ 99; voltage := B64.ofZ 240; current := B64.ofZ 0;
               power := B64.ofZ 0; temperature := B64.ofZ 25; frequency := B64.ofZ 60;
               efficiency := B64.ofZ 100; status := CRITICAL |} in
  GeminiService.prompt (fun _ _ => "0.00"%string) t1
  = GeminiService.prompt (fun _ _ => "0.00"%string) t2.
Proof.
  intros t1 t2.
  exact (proj1 (DiagnosticsFacts.prompt_sends_readings_only (Some "key"%string)
                  (fun _ _ => "0.00"%string)
                  (fun _ => inl GeminiService.ApiFailure) (fun _ => None) t1 t2
                  eq_refl eq_refl eq_refl eq_refl eq_refl eq_refl)).
Defined.

(** ** Quotients, in values *)

Module Division.
Import B64 B64Facts StepBounds Faithful.
Local Open Scope Z_scope.

(** One scaling step from any location. *)
Lemma shr_fexp_quotient (M E : Z) (l : location) :
  0 <= M ->
  let e1 := Z.max E (fexp prec emax (Zdigits2 M + E)) in
  let r := shr_fexp prec emax M E l in
  snd r = e1 /\
  shr_m (fst r) = M / 2 ^ (e1 - E) /\
  (l = loc_Exact -> M = 2 ^ (e1 - E) * (M / 2 ^ (e1 - E)) -> inexact (fst r) = false).
Proof.
  intros HM e1 r. subst r. unfold shr_fexp, shr.
  destruct (fexp prec emax (Zdigits2 M + E) - E) as [|p|p] eqn:En; cbn [fst snd].
  - replace (e1 - E) with 0 by lia. rewrite Z.pow_0_r, Z.div_1_r.
    split; [lia | split; [apply shr_record_of_loc_m | intros -> _; reflexivity]].
  - replace (e1 - E) with (Zpos p) by lia.
    destruct (iter_shr_1_value p (shr_record_of_loc M l)) as [Hv Hx];
      [rewrite shr_record_of_loc_m; exact HM|].
    rewrite shr_record_of_loc_m in Hv, Hx. split; [lia | split; [exact Hv|]].
    intros -> Hex. apply Hx. split; [reflexivity | exact Hex].
  - replace (e1 - E) with 0 by lia. rewrite Z.pow_0_r, Z.div_1_r.
    split; [lia | split; [apply shr_record_of_loc_m | intros -> _; reflexivity]].
Qed.

(** Rounding a mantissa that carries a location: as for an exact one, the
    result is the quotient [q] by the unit of the binade or [q + 1], and
    [q] when the location is exact and nothing is lost. *)
Lemma binary_round_aux_located (s : bool) (M E : Z) (l : location) :
  0 <= M ->
  let D := Zdigits2 M + E in
  let e1 := fexp prec emax D in
  E <= e1 -> D <= 1000 ->
  let q := M / 2 ^ (e1 - E) in
  exists m2 : Z,
    (m2 = q \/ m2 = q + 1) /\
    (l = loc_Exact -> M = 2 ^ (e1 - E) * q -> m2 = q) /\
    Zdigits2 q = Z.max 0 (D - e1) /\
    match binary_round_aux prec emax s M E l with
    | S754_zero s' => s' = s /\ m2 = 0
    | S754_finite s' m3 e3 =>
        s' = s /\ e1 <= e3 /\ Zpos m3 * 2 ^ (e3 - e1) = m2 /\
        valid (S754_finite s' m3 e3) = true
    | _ => False
    end.
Proof.
  intros HM0 D e1 HE HD q. unfold binary_round_aux.
  pose proof (shr_fexp_quotient M E l HM0) as Hv1. cbn zeta in Hv1.
  pose proof (shr_fexp_digits prec emax M E l HM0) as Hd1. cbn zeta in Hd1.
  fold D in Hv1, Hd1. fold e1 in Hv1, Hd1.
  replace (Z.max E e1) with e1 in Hv1 by lia. fold q in Hv1.
  destruct (shr_fexp prec emax M E l) as [mrs1 e1']. cbn [fst snd] in Hv1, Hd1.
  destruct Hv1 as (-> & Hq & Hex). destruct Hd1 as (Hm1 & _ & Hdq).
  set (m2 := round_nearest_even (shr_m mrs1) (loc_of_shr_record mrs1)).
  exists m2.
  pose proof (round_nearest_even_bounds (shr_m mrs1) (loc_of_shr_record mrs1)) as Hr.
  fold m2 in Hr. rewrite Hq in Hr, Hdq, Hm1.
  assert (Hm2 : 0 <= m2) by lia.
  assert (Hexact : l = loc_Exact -> M = 2 ^ (e1 - E) * q -> m2 = q).
  { intros Hl Hx. unfold m2. rewrite (loc_exact_iff mrs1 (Hex Hl Hx)). cbn. exact Hq. }
  assert (Hcases : m2 = q \/ m2 = q + 1).
  { unfold m2 in *. destruct (loc_of_shr_record mrs1) as [|[]];
      cbn [round_nearest_even] in *; try (left; lia); try (right; lia).
    destruct (Z.even (shr_m mrs1)); [left | right]; lia. }
  pose proof (shr_fexp_value m2 e1 Hm2) as Hv2. cbn zeta in Hv2.
  pose proof (shr_fexp_digits prec emax m2 e1 loc_Exact Hm2) as Hd2. cbn zeta in Hd2.
  destruct (shr_fexp prec emax m2 e1 loc_Exact) as [mrs2 e2]. cbn [fst snd] in Hv2, Hd2.
  destruct Hv2 as (He2 & Hm3 & _). destruct Hd2 as (Hm3' & _ & Hd3).
  assert (Hlo : Zdigits2 q <= Zdigits2 m2) by (apply Zdigits2_mono; lia).
  assert (Hhi : Zdigits2 m2 <= Zdigits2 q + 1).
  { transitivity (Zdigits2 (q + 1)); [apply Zdigits2_mono; lia | apply Zdigits2_succ; lia]. }
  pose proof (Zdigits2_nonneg M) as Hdpos.
  repeat split; try assumption.
  assert (He1 : e1 = Z.max (D - 53) (-1074)) by reflexivity.
  assert (HDdef : D = Zdigits2 M + E) by reflexivity.
  clearbody e1 D. clear Hex Hr Hexact Hq HM0.
  unfold fexp, SpecFloat.emin, prec, emax in *.
  assert (Hshift : e2 = e1 \/ (e2 = e1 + 1 /\ m2 = 2 ^ 53)).
  { destruct (Z.eq_dec e2 e1) as [|Hne]; [left; assumption|]. right.
    assert (Hd54 : Zdigits2 m2 = 54) by lia.
    split; [lia|].
    assert (Hq53 : q < 2 ^ 53).
    { destruct (Z.eq_dec q 0) as [->|Hq0]; [reflexivity|].
      apply (Zdigits2_le_iff q 53); lia. }
    assert (Hm54 : 2 ^ 53 <= m2).
    { apply (Zdigits2_ge_iff m2 54); try lia.
      destruct (Z.eq_dec m2 0) as [E0|]; [rewrite E0 in Hd54; cbn in Hd54; lia | lia]. }
    lia. }
  assert (Hval : shr_m mrs2 * 2 ^ (e2 - e1) = m2).
  { rewrite <- He2 in Hm3. rewrite Hm3. destruct Hshift as [Hs | [Hs Hp]]; rewrite Hs.
    - rewrite !Z.sub_diag, Z.pow_0_r, Z.div_1_r. lia.
    - replace (e1 + 1 - e1) with 1 by lia. rewrite Hp. reflexivity. }
  destruct (shr_m mrs2) as [|m3|m3] eqn:Em3; [| |lia].
  - split; [reflexivity | lia].
  - cbn [Zdigits2] in Hd3.
    destruct (Z.leb_spec e2 (1024 - 53)) as [Hle|Hgt]; [|lia].
    repeat split; try lia.
    unfold valid, valid_binary, bounded, canonical_mantissa, fexp, SpecFloat.emin, prec, emax.
    apply andb_true_intro. split; [apply Z.eqb_eq | apply Z.leb_le]; lia.
Qed.

(** The same in values. *)
Lemma binary_round_aux_located_value (s : bool) (M E : Z) (l : location) :
  0 <= M -> -2148 <= E ->
  let D := Zdigits2 M + E in
  let e1 := fexp prec emax D in
  E <= e1 -> D <= 1000 ->
  let X := units M E in
  let G := 2 ^ (e1 + 2148) in
  let q := X / G in
  let r := binary_round_aux prec emax s M E l in
  valid r = true /\ (finiteBelow 1001 r) /\ (hasSign s r) /\
  (absUnits r = q * G \/ absUnits r = (q + 1) * G) /\
  (l = loc_Exact -> X = q * G -> absUnits r = X) /\
  Zdigits2 q = Z.max 0 (D - e1).
Proof.
  intros HM HE D e1 HEe HD X G q r.
  destruct (binary_round_aux_located s M E l HM HEe HD)
    as (m2 & Hcases & Hexact & Hdq & Hres).
  fold D e1 in Hcases, Hexact, Hdq, Hres.
  assert (He1 : -1074 <= e1) by (unfold e1, fexp, SpecFloat.emin, prec, emax; lia).
  assert (Hq : q = M / 2 ^ (e1 - E)).
  { unfold q, X, G, units. rewrite (pow2_split (e1 + 2148) (E + 2148)) by lia.
    replace (e1 + 2148 - (E + 2148)) with (e1 - E) by lia.
    rewrite Z.div_mul_cancel_r; try reflexivity;
      apply Z.pow_nonzero; lia. }
  rewrite <- Hq in Hcases, Hexact, Hdq.
  assert (HXG : X = q * G <-> M = 2 ^ (e1 - E) * q).
  { unfold X, G, units. rewrite (pow2_split (e1 + 2148) (E + 2148)) by lia.
    replace (e1 + 2148 - (E + 2148)) with (e1 - E) by lia.
    assert (0 < 2 ^ (E + 2148)) by (apply Z.pow_pos_nonneg; lia).
    split; intros H1; nia. }
  assert (Hq0 : 0 <= q).
  { rewrite Hq. apply Z.div_pos; [lia | apply Z.pow_pos_nonneg; lia]. }
  assert (Hres' : valid r = true /\ finiteBelow 1001 r /\ hasSign s r /\ absUnits r = m2 * G).
  { fold r in Hres. destruct r as [s' | s' | | s' m3 e3]; try contradiction.
    - destruct Hres as [-> ->]. repeat split.
    - destruct Hres as (-> & He3 & Hv & Hvalid).
      split; [exact Hvalid|]. split; [|split; [reflexivity|]].
      + destruct (valid_finite s m3 e3 Hvalid) as [Hd _].
        unfold valid, valid_binary, bounded, canonical_mantissa, fexp, SpecFloat.emin,
          prec, emax in Hvalid.
        apply andb_prop in Hvalid. destruct Hvalid as [Hc _]. apply Z.eqb_eq in Hc.
        cbn [finiteBelow]. unfold magnitude.
        assert (He1' : e1 = Z.max (D - 53) (-1074)) by reflexivity.
        assert (Zpos (digits2_pos m3) + e3 <= Z.max D (-1074) + 1); [|lia].
        assert (Hm2d : Zdigits2 m2 <= Zdigits2 q + 1).
        { destruct Hcases as [->| ->]; [lia|]. apply Zdigits2_succ. exact Hq0. }
        assert (Hm3d : Zdigits2 (Zpos m3 * 2 ^ (e3 - e1)) = Zpos (digits2_pos m3) + (e3 - e1))
          by (apply (Zdigits2_mul_pow2 (Zpos m3)); lia).
        rewrite Hv in Hm3d. lia.
      + cbn [absUnits]. unfold units, G. rewrite <- Hv.
        rewrite (pow2_split (e3 + 2148) (e1 + 2148)) by lia.
        replace (e3 + 2148 - (e1 + 2148)) with (e3 - e1) by lia. ring. }
  destruct Hres' as (Hvalid & Hfin & Hsign & Habs).
  repeat split; try assumption.
  - rewrite Habs. destruct Hcases as [-> | ->]; [left | right]; reflexivity.
  - intros Hl HX. rewrite Habs, (Hexact Hl (proj1 HXG HX)). symmetry. exact HX.
Qed.

(** Rounding a value [A / B] known through its quotient [X] by the step
    [W]: there is no double between the value and the result. *)
Lemma rounding_monotone_fraction (A B X W c D R : Z) (y0 : number) :
  0 < B -> 0 <= X -> 0 < W -> 0 <= c ->
  let e1 := fexp prec emax D in
  let G := 2 ^ (e1 + 2148) in
  let q := X / G in
  G = W * 2 ^ c -> (exists a : Z, X = a * W) ->
  X * B <= A < (X + W) * B ->
  (R = q * G \/ R = (q + 1) * G) -> (A = X * B -> X = q * G -> R = X) ->
  Zdigits2 q = Z.max 0 (D - e1) ->
  valid y0 = true -> finiteBelow 1001 y0 ->
  (absUnits y0 * B <= A -> absUnits y0 <= R) /\ (A <= absUnits y0 * B -> R <= absUnits y0).
Proof.
  intros HB HX HW Hc e1 G q HGW [a Ha] HA HR Hexact Hdq Hv Hfin.
  assert (He1 : e1 = Z.max (D - 53) (-1074)) by reflexivity.
  assert (HG : 0 < G) by (unfold G; apply Z.pow_pos_nonneg; lia).
  assert (Hq0 : 0 <= q) by (apply Z.div_pos; lia).
  assert (HqG : q * G <= X < (q + 1) * G).
  { pose proof (Z.div_mod X G ltac:(lia)) as Hdm.
    pose proof (Z.mod_pos_bound X G HG) as Hmod. fold q in Hdm. nia. }
  assert (Hc2 : 0 < 2 ^ c) by (apply Z.pow_pos_nonneg; lia).
  assert (Hnext : X + W <= (q + 1) * G).
  { rewrite HGW, Ha in *. set (k := 2 ^ c) in *.
    assert (a < (q + 1) * k) by nia. nia. }
  assert (Hlow : q * G * B <= A) by nia.
  assert (Hhigh : A < (q + 1) * G * B) by nia.
  assert (Hexact' : A <= q * G * B -> R = q * G).
  { intros Hle. assert (HXq : X = q * G) by nia.
    rewrite <- HXq. apply Hexact; [nia | exact HXq]. }
  clear Hexact Hnext HA Ha HGW Hc2.
  destruct y0 as [s0 | s0 | | s0 m0 e0]; try contradiction.
  - cbn [absUnits]. split; intros H; [nia|].
    rewrite Hexact' by nia. nia.
  - destruct (valid_finite s0 m0 e0 Hv) as [Hd0 He0].
    cbn [absUnits finiteBelow] in *. unfold magnitude in Hfin.
    set (Y := units (Zpos m0) e0).
    destruct (Z_le_gt_dec e1 e0) as [Hge | Hlt].
    + set (k := Zpos m0 * 2 ^ (e0 - e1)).
      assert (HY : Y = k * G).
      { unfold Y, k, G, units. rewrite (pow2_split (e0 + 2148) (e1 + 2148)) by lia.
        replace (e0 + 2148 - (e1 + 2148)) with (e0 - e1) by lia. ring. }
      split; intros H.
      * assert (k < q + 1) by nia. nia.
      * destruct (Z_le_gt_dec k q) as [Hkq | Hkq].
        -- rewrite Hexact' by nia. nia.
        -- nia.
    + assert (Hq52 : 2 ^ 52 <= q).
      { apply (Zdigits2_ge_iff q 53); try lia.
        destruct (Z.eq_dec q 0) as [E0|]; [|lia].
        rewrite E0 in Hdq. cbn [Zdigits2] in Hdq. lia. }
      assert (HYlt : Y < 2 ^ 52 * G).
      { unfold Y, units, G. rewrite <- Z.pow_add_r by lia.
        apply Z.lt_le_trans with (2 ^ (Zpos (digits2_pos m0) + (e0 + 2148)));
          [apply scaled_lt; lia | apply Z.pow_le_mono_r; lia]. }
      split; intros H; nia.
Qed.
Lemma new_location_exact (nb k : Z) : new_location nb k = loc_Exact -> k = 0.
Proof.
  unfold new_location, new_location_even, new_location_odd.
  destruct (Z.even nb); destruct (Z.eqb_spec k 0); try discriminate; auto.
Qed.

Lemma new_location_zero (nb : Z) : new_location nb 0 = loc_Exact.
Proof. unfold new_location, new_location_even, new_location_odd. now destruct (Z.even nb). Qed.

Lemma valZ_nonneg_abs (x : number) : valid x = true -> 0 <= valZ x -> valZ x = absUnits x.
Proof.
  intros Hv Hx. pose proof (absUnits_nonneg x Hv). destruct (valZ_abs x); lia.
Qed.

(** The quotient of a double that is not negative by a positive one is
    rounded to a double with no other double in between. *)
Lemma div_monotone (x y : number) :
  real x -> real y -> 0 <= valZ x -> 0 < valZ y ->
  finiteBelow 400 x -> finiteAbove (-400) y ->
  real (div x y) /\ 0 <= valZ (div x y) /\
  forall y0 : number, real y0 -> 0 <= valZ y0 ->
    (valZ y0 * valZ y <= valZ x * 2 ^ 2148 -> valZ y0 <= valZ (div x y)) /\
    (valZ x * 2 ^ 2148 <= valZ y0 * valZ y -> valZ (div x y) <= valZ y0).
Proof.
  intros [Hvx Hfx] [Hvy Hfy] Hx0 Hy0 Hbx Hby.
  assert (HP : 0 < 2 ^ 2148) by (apply Z.pow_pos_nonneg; lia).
  destruct y as [sy | sy | | sy my ey]; try contradiction.
  destruct (valid_canonical sy my ey Hvy) as [Hcy Hey].
  destruct (valid_finite sy my ey Hvy) as [Hdy Hey'].
  pose proof (units_pos (Zpos my) ey eq_refl ltac:(lia)) as HYpos.
  destruct sy; [cbn [valZ cond_Zopp] in Hy0; lia|].
  destruct x as [sx | sx | | sx mx ex]; try contradiction.
  { split; [split; reflexivity|]. split; [cbn; lia|].
    intros y0 _ Hy00. cbn [valZ div SFdiv xorb cond_Zopp] in *. rewrite Z.mul_0_l.
    set (Y := units (Zpos my) ey) in *. split; nia. }
  destruct (valid_canonical sx mx ex Hvx) as [Hcx Hex].
  destruct (valid_finite sx mx ex Hvx) as [Hdx Hex'].
  pose proof (units_pos (Zpos mx) ex eq_refl ltac:(lia)) as HXpos.
  destruct sx; [cbn [valZ cond_Zopp] in Hx0; lia|].
  cbn [finiteBelow finiteAbove] in Hbx, Hby. unfold magnitude in Hbx, Hby.
  cbn [valZ cond_Zopp] in *.
  unfold div, SFdiv. cbn [xorb].
  pose proof (SFdiv_core_binary_below mx my ex ey) as Hcore.
  unfold SFdiv_core_binary in *. cbn [Zdigits2] in *.
  set (d1 := Zpos (digits2_pos mx)) in *. set (d2 := Zpos (digits2_pos my)) in *.
  set (e' := Z.min (fexp prec emax (d1 + ex - (d2 + ey))) (ex - ey)) in *.
  set (sh := ex - ey - e') in *.
  set (m' := match sh with Z.pos _ => Z.shiftl (Zpos mx) sh | 0 => Zpos mx | Z.neg _ => 0 end)
    in *.
  assert (Hsh : 0 <= sh) by (unfold sh, e'; lia).
  assert (Hm' : m' = Zpos mx * 2 ^ sh).
  { unfold m'. destruct sh as [|p|p]; [cbn; lia | | lia].
    rewrite Z.shiftl_mul_pow2 by lia. reflexivity. }
  pose proof (Z_div_mod m' (Zpos my) eq_refl) as Hdiv.
  destruct (Z.div_eucl m' (Zpos my)) as [q r] eqn:Hde.
  destruct Hcore as [Hq0 HqD]. destruct Hdiv as [Hqr Hr].
  assert (Hq : q = m' / Zpos my) by (unfold Z.div; rewrite Hde; reflexivity).
  assert (He'def : e' = Z.min (Z.max (d1 + ex - (d2 + ey) - 53) (-1074)) (ex - ey))
    by reflexivity.
  assert (HE : -2148 <= e') by lia.
  assert (HD : Zdigits2 q + e' <= 1000) by (unfold magnitude in HqD; fold d1 d2 in HqD; lia).
  assert (HEe : e' <= fexp prec emax (Zdigits2 q + e')).
  { unfold fexp, SpecFloat.emin, prec, emax.
    destruct (Z_le_gt_dec e' (-1074)) as [Hlow | Hhigh]; [lia|].
    assert (He'eq : e' = d1 + ex - (d2 + ey) - 53) by lia.
    assert (Hsheq : sh = 53 - d1 + d2) by (unfold sh; lia).
    assert (Hq52 : 2 ^ 52 <= q).
    { rewrite Hq. apply Z.div_le_lower_bound; [lia|].
      rewrite Hm', Hsheq.
      assert (Hmx : 2 ^ (d1 - 1) <= Zpos mx)
        by (apply (Zdigits2_ge_iff (Zpos mx) d1); unfold d1; cbn [Zdigits2]; lia).
      assert (Hmy : Zpos my < 2 ^ d2)
        by (apply (Zdigits2_le_iff (Zpos my) d2); unfold d2; cbn [Zdigits2]; lia).
      assert (Hd1 : 1 <= d1) by (unfold d1; lia).
      assert (Hd2 : 1 <= d2) by (unfold d2; lia).
      assert (Hpw : 2 ^ (d1 - 1) * 2 ^ (53 - d1 + d2) = 2 ^ 52 * 2 ^ d2)
        by (rewrite <- !Z.pow_add_r by lia; f_equal; lia).
      assert (Hp1 : 0 < 2 ^ (53 - d1 + d2)) by (apply Z.pow_pos_nonneg; lia).
      assert (Hp2 : 0 < 2 ^ 52) by reflexivity.
      set (A := 2 ^ (d1 - 1)) in *. set (B := 2 ^ (53 - d1 + d2)) in *.
      set (C := 2 ^ d2) in *. set (P := 2 ^ 52) in *.
      nia. }
    assert (53 <= Zdigits2 q) by (apply (Zdigits2_ge_iff q 53); lia).
    lia. }
  destruct (binary_round_aux_located_value false q e' (new_location (Zpos my) r)
              Hq0 HE HEe HD) as (Hv & Hf & Hs & Hcases & Hexact & Hdq).
  set (res := binary_round_aux prec emax false q e' (new_location (Zpos my) r)) in *.
  assert (Hval : valZ res = absUnits res) by (apply (valZ_signed false); exact Hs).
  pose proof (absUnits_nonneg res Hv) as Hres0.
  split; [split; assumption|]. split; [rewrite Hval; exact Hres0|].
  intros y0 [Hv0 Hf0] Hy00.
  rewrite Hval, (valZ_nonneg_abs y0 Hv0 Hy00).
  set (W := 2 ^ (e' + 2148)).
  set (C := W * 2 ^ (ey + 2148)).
  assert (HW : 0 < W) by (unfold W; apply Z.pow_pos_nonneg; lia).
  assert (HC : 0 < C).
  { unfold C. apply Z.mul_pos_pos; [exact HW | apply Z.pow_pos_nonneg; lia]. }
  assert (HA : units (Zpos mx) ex * 2 ^ 2148 = m' * C).
  { unfold units, C, W. rewrite Hm'. rewrite <- !Z.mul_assoc, <- !Z.pow_add_r by lia.
    f_equal. f_equal. unfold sh. lia. }
  assert (HXB : units q e' * units (Zpos my) ey = q * Zpos my * C).
  { unfold units, C, W. ring. }
  assert (HXWB : (units q e' + W) * units (Zpos my) ey = (q + 1) * Zpos my * C).
  { unfold units, C, W. ring. }
  set (e1 := fexp prec emax (Zdigits2 q + e')) in *.
  assert (He1 : e' <= e1) by exact HEe.
  assert (H0X : 0 <= units q e').
  { unfold units. apply Z.mul_nonneg_nonneg; [exact Hq0 | apply Z.pow_nonneg; lia]. }
  assert (HGW : 2 ^ (e1 + 2148) = W * 2 ^ (e1 - e')).
  { unfold W. rewrite <- Z.pow_add_r by lia. f_equal. lia. }
  assert (Hmult : exists a : Z, units q e' = a * W) by (exists q; reflexivity).
  assert (Hbr : units q e' * units (Zpos my) ey <= units (Zpos mx) ex * 2 ^ 2148
                < (units q e' + W) * units (Zpos my) ey).
  { rewrite HA, HXB, HXWB. clear - Hqr Hr HC. split; nia. }
  assert (Hexq : units (Zpos mx) ex * 2 ^ 2148 = units q e' * units (Zpos my) ey ->
                 units q e' = units q e' / 2 ^ (e1 + 2148) * 2 ^ (e1 + 2148) ->
                 absUnits res = units q e').
  { intros HAX HXq. apply Hexact; [|exact HXq].
    rewrite HA, HXB in HAX.
    assert (Hr0 : r = 0) by (clear - HAX Hqr Hr HC; nia).
    rewrite Hr0. apply new_location_zero. }
  exact (rounding_monotone_fraction _ _ _ W (e1 - e') _ _ y0
           HYpos H0X HW ltac:(lia) HGW Hmult Hbr Hcases Hexq Hdq Hv0 Hf0).
Qed.
End Division.

(** ** Intervals of doubles *)

Module IntervalFacts.
Import B64 B64Facts StepBounds Faithful Division Interval.
Local Open Scope Z_scope.

Lemma small_real (a : number) : small a = true -> real a /\ finiteBelow 300 a.
Proof.
  unfold small. rewrite andb_true_iff. intros [Hv Hf].
  apply finiteBelowb_spec in Hf.
  split; [split; [exact Hv | apply finiteBelow_mono with 300; [lia | exact Hf]] | exact Hf].
Qed.

Lemma within_small (a b x : number) :
  small a = true -> small b = true -> within a b x -> finiteBelow 300 x.
Proof.
  intros Ha Hb [Hx Hab].
  exact (between_finiteBelow 300 a b x ltac:(lia) (proj2 (small_real a Ha))
           (proj2 (small_real b Hb)) Hx (or_introl Hab)).
Qed.

Lemma within_inside (a b lo hi x : number) :
  insideOk a b lo hi = true -> within a b x -> within lo hi x.
Proof.
  unfold insideOk. rewrite !andb_true_iff, !Z.leb_le. intros [[_ Hlo] Hhi] [Hx Hab].
  split; [exact Hx | lia].
Qed.

Lemma within_add (a b c d lo hi x y : number) :
  addOk a b c d lo hi = true -> within a b x -> within c d y -> within lo hi (add x y).
Proof.
  unfold addOk, ends. cbn [forallb]. rewrite !andb_true_iff, !Z.leb_le.
  intros [[(Ha & Hb & Hc & Hd & Hlo & Hhi & _) Hl] Hh] Hx Hy.
  pose proof (within_small a b x Ha Hb Hx) as Hfx.
  pose proof (within_small c d y Hc Hd Hy) as Hfy.
  destruct Hx as [Hx Hxab]. destruct Hy as [Hy Hycd].
  destruct (add_monotone x y Hx Hy (finiteBelow_mono 300 999 x ltac:(lia) Hfx)
              (finiteBelow_mono 300 999 y ltac:(lia) Hfy)) as [Hr Hm].
  split; [exact Hr|]. split.
  - apply (proj1 (Hm lo (proj1 (small_real lo Hlo)))). lia.
  - apply (proj2 (Hm hi (proj1 (small_real hi Hhi)))). lia.
Qed.

Lemma within_sub (a b c d lo hi x y : number) :
  subOk a b c d lo hi = true -> within a b x -> within c d y -> within lo hi (sub x y).
Proof.
  unfold subOk, ends. cbn [forallb]. rewrite !andb_true_iff, !Z.leb_le.
  intros [[(Ha & Hb & Hc & Hd & Hlo & Hhi & _) Hl] Hh] Hx Hy.
  pose proof (within_small a b x Ha Hb Hx) as Hfx.
  pose proof (within_small c d y Hc Hd Hy) as Hfy.
  destruct Hx as [Hx Hxab]. destruct Hy as [Hy Hycd].
  rewrite sub_add_opp.
  destruct (add_monotone x (SFopp y) Hx (opp_real y Hy)
              (finiteBelow_mono 300 999 x ltac:(lia) Hfx)
              (finiteBelow_mono 300 999 _ ltac:(lia) (opp_finiteBelow 300 y Hfy)))
    as [Hr Hm].
  rewrite valZ_opp in Hm.
  split; [exact Hr|]. split.
  - apply (proj1 (Hm lo (proj1 (small_real lo Hlo)))). lia.
  - apply (proj2 (Hm hi (proj1 (small_real hi Hhi)))). lia.
Qed.

(** A product of two bounded integers lies between the products of the
    bounds. *)
Lemma product_between (a b c d x y L U : Z) :
  a <= x <= b -> c <= y <= d ->
  L <= a * c -> L <= a * d -> L <= b * c -> L <= b * d ->
  a * c <= U -> a * d <= U -> b * c <= U -> b * d <= U ->
  L <= x * y <= U.
Proof.
  intros Hx Hy L1 L2 L3 L4 U1 U2 U3 U4.
  destruct (Z_le_gt_dec 0 y) as [Hy0 | Hy0].
  - assert (a * y <= x * y <= b * y) by nia.
    destruct (Z_le_gt_dec 0 a) as [Ha | Ha]; destruct (Z_le_gt_dec 0 b) as [Hb | Hb];
      split; nia.
  - assert (b * y <= x * y <= a * y) by nia.
    destruct (Z_le_gt_dec 0 a) as [Ha | Ha]; destruct (Z_le_gt_dec 0 b) as [Hb | Hb];
      split; nia.
Qed.

Lemma within_mul (a b c d lo hi x y : number) :
  mulOk a b c d lo hi = true -> within a b x -> within c d y -> within lo hi (mul x y).
Proof.
  unfold mulOk, ends. cbn [forallb]. rewrite !andb_true_iff, !Z.leb_le.
  intros [(Ha & Hb & Hc & Hd & Hlo & Hhi & _)
          ([L1 U1] & [L2 U2] & [L3 U3] & [L4 U4] & _)] Hx Hy.
  pose proof (within_small a b x Ha Hb Hx) as Hfx.
  pose proof (within_small c d y Hc Hd Hy) as Hfy.
  destruct Hx as [Hx Hxab]. destruct Hy as [Hy Hycd].
  destruct (mul_monotone 300 300 x y Hx Hy Hfx Hfy ltac:(lia)) as [Hr Hm].
  set (P := 2 ^ 2148) in *.
  pose proof (product_between _ _ _ _ (valZ x) (valZ y) (valZ lo * P) (valZ hi * P)
                Hxab Hycd L1 L2 L3 L4 U1 U2 U3 U4) as [HL HU].
  split; [exact Hr|]. split.
  - apply (proj1 (Hm lo (proj1 (small_real lo Hlo)))). exact HL.
  - apply (proj2 (Hm hi (proj1 (small_real hi Hhi)))). exact HU.
Qed.

Lemma finiteAbove_mono_spec (x : number) :
  finiteAboveb (-300) x = true -> finiteAbove (-400) x.
Proof.
  destruct x; cbn; try discriminate. intros H. apply Z.leb_le in H. lia.
Qed.

Lemma within_div (a b y lo hi x : number) :
  divOk a b y lo hi = true -> within a b x -> within lo hi (div x y).
Proof.
  unfold divOk, ends. cbn [forallb].
  rewrite !andb_true_iff, !Z.leb_le, Z.ltb_lt.
  intros [[[[[[(Ha & Hb & Hy & Hlo & Hhi & _) Ha0] Hy0] Hfa] Hlo0] Hl] Hh] Hx.
  pose proof (within_small a b x Ha Hb Hx) as Hfx.
  destruct Hx as [Hx Hxab].
  destruct (small_real y Hy) as [Hry Hfy].
  assert (HP : 0 < 2 ^ 2148) by (apply Z.pow_pos_nonneg; lia).
  destruct (div_monotone x y Hx Hry ltac:(lia) Hy0
              (finiteBelow_mono 300 400 x ltac:(lia) Hfx)
              (finiteAbove_mono_spec y Hfa)) as (Hr & Hr0 & Hm).
  pose proof (small_real hi Hhi) as [Hrhi _].
  assert (Hhi0 : 0 <= valZ hi).
  { set (P := 2 ^ 2148) in *. nia. }
  set (P := 2 ^ 2148) in *.
  split; [exact Hr|]. split.
  - apply (proj1 (Hm lo (proj1 (small_real lo Hlo)) Hlo0)). nia.
  - apply (proj2 (Hm hi Hrhi Hhi0)). nia.
Qed.
End IntervalFacts.

Module IntervalFacts2.
Import B64 B64Facts StepBounds Faithful Division Interval IntervalFacts.
Local Open Scope Z_scope.

Lemma within_self (c : number) : small c = true -> within c c c.
Proof. intros Hc. split; [apply small_real; exact Hc | lia]. Qed.

Lemma within_abs (a b hi x : number) :
  absOk a b hi = true -> within a b x -> within (S754_zero false) hi (abs x).
Proof.
  unfold absOk, ends. cbn [forallb]. rewrite !andb_true_iff, !Z.leb_le.
  intros [[_ Hl] Hh] [Hx Hab].
  destruct (abs_real x Hx) as [Hr Hv].
  split; [exact Hr|]. rewrite Hv. cbn [valZ]. lia.
Qed.

Lemma within_leb (a b x : number) :
  small a = true -> small b = true -> within a b x ->
  leb a x = true /\ leb x b = true.
Proof.
  intros Ha Hb [Hx Hab].
  split; [apply (leb_valZ a x) | apply (leb_valZ x b)];
    try assumption; try (apply small_real; assumption); lia.
Qed.

Lemma leb_within (a b x : number) :
  real a -> real b -> real x -> leb a x = true -> leb x b = true -> within a b x.
Proof.
  intros Ha Hb Hx Hlo Hhi. split; [exact Hx|].
  split; [apply (leb_valZ a x) | apply (leb_valZ x b)]; assumption.
Qed.

Lemma ltb_leb (x y : number) : ltb x y = true -> leb x y = true.
Proof. unfold ltb, leb, SFltb, SFleb. destruct (SFcompare x y) as [[]|]; congruence. Qed.

(** A double at or below [c] is not above it. *)
Lemma not_gtb (x c : number) :
  real x -> real c -> valZ x <= valZ c -> gtb x c = false.
Proof.
  intros Hx Hc Hle. apply (leb_valZ x c Hx Hc) in Hle.
  unfold gtb, leb, SFltb, SFleb in *. rewrite (SFcompare_antisym x c).
  destruct (SFcompare x c) as [[]|]; cbn in *; congruence.
Qed.

Lemma not_ltb (x c : number) :
  real x -> real c -> valZ c <= valZ x -> ltb x c = false.
Proof. intros Hx Hc Hle. exact (not_gtb c x Hc Hx Hle). Qed.

(** Flooring at zero. *)
Lemma within_max0 (a b x : number) :
  within a b x -> 0 <= valZ b -> within (S754_zero false) b (max (S754_zero false) x).
Proof.
  intros [[Hv Hf] Hab] Hb.
  destruct x as [s | s | | s m e]; try contradiction.
  - rewrite max_zero_zero. split; [split; reflexivity | cbn [valZ]; lia].
  - destruct (valid_finite s m e Hv) as [_ He].
    pose proof (units_pos (Zpos m) e eq_refl ltac:(lia)) as Hp.
    destruct s.
    + change (max (S754_zero false) (S754_finite true m e)) with (S754_zero false).
      split; [split; reflexivity | cbn [valZ]; lia].
    + change (max (S754_zero false) (S754_finite false m e)) with (S754_finite false m e).
      split; [split; assumption|]. cbn [valZ cond_Zopp] in *. lia.
Qed.

Lemma positive_max0 (a b x : number) :
  within a b x -> 0 < valZ a -> max (S754_zero false) x = x.
Proof.
  intros [[Hv Hf] Hab] Ha.
  destruct x as [s | s | | s m e]; try contradiction.
  - cbn [valZ] in Hab. lia.
  - destruct (valid_finite s m e Hv) as [_ He].
    pose proof (units_pos (Zpos m) e eq_refl ltac:(lia)) as Hp.
    destruct s; [cbn [valZ cond_Zopp] in Hab; lia | reflexivity].
Qed.

(** *** The inputs of a step *)

Lemma load_within (load : number) :
  inLoadRange load = true -> within (S754_zero false) (ofZ 120) load.
Proof.
  intros Hload. pose proof (load_finiteBelow load Hload) as Hf.
  unfold inLoadRange in Hload. rewrite !andb_true_iff in Hload.
  destruct Hload as [[Hv Hlo] Hhi].
  apply leb_within; try assumption.
  - apply zero_real.
  - split; vm_compute; [reflexivity | discriminate].
  - split; [exact Hv | apply finiteBelow_mono with 7; [lia | exact Hf]].
Qed.

Lemma noise_within (n : number) :
  inNoiseRange n = true -> within (SFopp half) half n.
Proof.
  intros Hn. pose proof (noise_finiteBelow n Hn) as Hf.
  unfold inNoiseRange in Hn. rewrite !andb_true_iff in Hn.
  destruct Hn as [[Hv Hlo] Hhi].
  apply leb_within; try assumption.
  - split; vm_compute; [reflexivity | discriminate].
  - split; vm_compute; [reflexivity | discriminate].
  - split; [exact Hv | apply finiteBelow_mono with 0; [lia | exact Hf]].
  - apply ltb_leb. exact Hhi.
Qed.

Lemma drawn_noise_within (r : number) :
  inUnitInterval r = true -> within (SFopp half) half (sub r half).
Proof.
  intros Hr. pose proof (unit_finiteBelow r Hr) as Hf.
  unfold inUnitInterval in Hr. rewrite !andb_true_iff in Hr.
  destruct Hr as [[Hv Hlo] Hhi].
  assert (Hw : within (S754_zero false) (ofZ 1) r).
  { apply leb_within; try assumption.
    - apply zero_real.
    - split; vm_compute; [reflexivity | discriminate].
    - split; [exact Hv | apply finiteBelow_mono with 0; [lia | exact Hf]].
    - apply ltb_leb. exact Hhi. }
  apply (within_sub (S754_zero false) (ofZ 1) half half (SFopp half) half r half);
    [vm_compute; reflexivity | exact Hw | apply within_self; vm_compute; reflexivity].
Qed.

(** *** The quantities of a step *)

Section Quantities.
Variables load n : number.
Hypothesis Hload : within (S754_zero false) (ofZ 120) load.
Hypothesis Hn : within (SFopp half) half n.

Ltac checked := vm_compute; reflexivity.
Ltac constant := apply within_self; vm_compute; reflexivity.

Lemma loadFactor_within : within (S754_zero false) (ofDec 77 64) (loadFactor load).
Proof.
  apply (within_div (S754_zero false) (ofZ 120) (ofZ 100) (S754_zero false) (ofDec 77 64));
    [checked | exact Hload].
Qed.

Lemma voltageBase_within :
  within (ofDec 14927 64) (ofDec 963 4) (voltageBase load n).
Proof.
  unfold voltageBase.
  apply (within_add (ofDec 14975 64) (ofZ 240) (ofDec (-3) 4) (ofDec 3 4)); [checked | |].
  - apply (within_sub (ofZ 240) (ofZ 240) (S754_zero false) (ofDec 385 64));
      [checked | constant |].
    apply (within_mul (S754_zero false) (ofDec 77 64) (ofZ 5) (ofZ 5));
      [checked | exact loadFactor_within | constant].
  - apply (within_mul (SFopp half) half (ofDec 15 10) (ofDec 15 10));
      [checked | exact Hn | constant].
Qed.

Lemma currentBase_within :
  within (ofDec (-1) 8) (ofDec 1159 32) (currentBase load n).
Proof.
  unfold currentBase.
  apply (within_add (S754_zero false) (ofDec 2310 64) (ofDec (-1) 8) (ofDec 1 8));
    [checked | |].
  - apply (within_mul (ofZ 30) (ofZ 30) (S754_zero false) (ofDec 77 64));
      [checked | constant | exact loadFactor_within].
  - apply (within_mul (SFopp half) half (ofDec 2 10) (ofDec 2 10));
      [checked | exact Hn | constant].
Qed.

Lemma power_within :
  within (ofZ (-31)) (ofZ 8720) (mul (voltageBase load n) (currentBase load n)).
Proof.
  apply (within_mul (ofDec 14927 64) (ofDec 963 4) (ofDec (-1) 8) (ofDec 1159 32));
    [checked | exact voltageBase_within | exact currentBase_within].
Qed.

Lemma efficiencyBase_within :
  within (ofDec 5614 64) (ofDec 381 4) (efficiencyBase load n).
Proof.
  unfold efficiencyBase.
  apply (within_add (ofDec 5630 64) (ofZ 95) (ofDec (-1) 4) (ofDec 1 4)); [checked | |].
  - apply (within_sub (ofZ 95) (ofZ 95) (S754_zero false) (ofDec 450 64));
      [checked | constant |].
    apply (within_mul (S754_zero false) (ofDec 45 64) (ofZ 10) (ofZ 10));
      [checked | | constant].
    apply (within_abs (SFopp half) (ofDec 45 64)); [checked|].
    apply (within_sub (S754_zero false) (ofDec 77 64) half half);
      [checked | exact loadFactor_within | constant].
  - apply (within_mul (SFopp half) half (ofDec 5 10) (ofDec 5 10));
      [checked | exact Hn | constant].
Qed.

Lemma frequency_within :
  within (ofDec 599 10) (ofDec 601 10) (add (ofZ 60) (mul n (ofDec 1 10))).
Proof.
  apply (within_add (ofZ 60) (ofZ 60) (ofDec (-1) 16) (ofDec 1 16)); [checked | constant |].
  apply (within_mul (SFopp half) half (ofDec 1 10) (ofDec 1 10));
    [checked | exact Hn | constant].
Qed.

Lemma targetTemp_within : within (ofZ 25) (ofDec 1555 16) (targetTemp load).
Proof.
  unfold targetTemp.
  apply (within_add (ofZ 25) (ofZ 25) (S754_zero false) (ofDec 1155 16));
    [checked | constant |].
  apply (within_mul (S754_zero false) (ofDec 77 64) (ofZ 60) (ofZ 60));
    [checked | exact loadFactor_within | constant].
Qed.
End Quantities.
End IntervalFacts2.

Module TemperatureFacts.
Import B64 B64Facts StepBounds Faithful Division Interval IntervalFacts IntervalFacts2.
Import Enclosure.
Local Open Scope Z_scope.

(** The temperature after a step, enclosed. *)
Lemma next_temperature_within (Tl Th p q T temp n : number) :
  nextOk Tl Th p q = true ->
  within Tl Th T -> within p q temp -> within (SFopp half) half n ->
  within (nextLo Tl Th p q) (nextHi Tl Th p q)
    (add (add temp (mul (sub T temp) (ofDec 5 100))) (mul n (ofDec 1 10))).
Proof.
  intros Hok HT Htemp Hn. unfold nextOk in Hok.
  apply andb_prop in Hok. destruct Hok as [Hgap Hok].
  apply andb_prop in Hok. destruct Hok as [Hchange Hok].
  apply andb_prop in Hok. destruct Hok as [Hmoved Hok].
  apply andb_prop in Hok. destruct Hok as [Hjitter Hnext].
  apply (within_add _ _ _ _ _ _ _ _ Hnext).
  - apply (within_add _ _ _ _ _ _ _ _ Hmoved); [exact Htemp|].
    apply (within_mul _ _ _ _ _ _ _ _ Hchange).
    + apply (within_sub _ _ _ _ _ _ _ _ Hgap); assumption.
    + apply within_self. vm_compute. reflexivity.
  - apply (within_mul _ _ _ _ _ _ _ _ Hjitter); [exact Hn|].
    apply within_self. vm_compute. reflexivity.
Qed.

Lemma within_split (a b c x : number) :
  within a b x -> within a c x \/ within c b x.
Proof.
  intros [Hx Hab]. destruct (Z_le_gt_dec (valZ x) (valZ c)); [left | right];
    (split; [exact Hx | lia]).
Qed.

Ltac case_within H c H1 H2 := destruct (within_split _ _ c _ H) as [H1 | H2].

Ltac stays Hn HT Htemp :=
  refine (within_inside _ _ _ _ _ _
            (next_temperature_within _ _ _ _ _ _ _ _ HT Htemp Hn));
  vm_compute; reflexivity.

(** For a steady state between 25 and 97.1875, that is for every load
    of [0, 120], a temperature of [20, 100] stays there. *)
Lemma temperature_stays (T temp n : number) :
  within (ofZ 25) (ofDec 1555 16) T ->
  within (ofZ 20) (ofZ 100) temp ->
  within (SFopp half) half n ->
  within (ofZ 20) (ofZ 100)
    (add (add temp (mul (sub T temp) (ofDec 5 100))) (mul n (ofDec 1 10))).
Proof.
  intros HT Htemp Hn.
  case_within Htemp (ofZ 23) H1 H2; [stays Hn HT H1|].
  case_within H2 (ofZ 40) H3 H4; [stays Hn HT H3|].
  case_within H4 (ofZ 90) H5 H6; [stays Hn HT H5|].
  case_within H6 (ofZ 99) H7 H8; [stays Hn HT H7 | stays Hn HT H8].
Qed.
End TemperatureFacts.

(** ** The ranges of a sample *)

Module SampleRanges.
Import B64 B64Facts StepBounds Faithful Division Interval IntervalFacts IntervalFacts2.
Import TemperatureFacts.
Local Open Scope Z_scope.

Ltac checked := vm_compute; reflexivity.

Lemma gtb_of_lt (x c : number) :
  real x -> real c -> valZ c < valZ x -> gtb x c = true.
Proof.
  intros Hx Hc Hlt.
  assert (Hnle : leb x c = false).
  { destruct (leb x c) eqn:E; [|reflexivity].
    apply (leb_valZ x c Hx Hc) in E. lia. }
  assert (Hle : leb c x = true) by (apply (leb_valZ c x Hc Hx); lia).
  unfold gtb, leb, SFltb, SFleb in *. rewrite (SFcompare_antisym x c) in Hle |- *.
  destruct (SFcompare x c) as [[]|]; cbn in *; congruence.
Qed.

Section Sample.
Variables load noise now : number.
Variable prev : TelemetryData number.
Hypothesis Hload : within (S754_zero false) (ofZ 120) load.
Hypothesis Hnoise : within (SFopp half) half noise.

Lemma sample_voltage :
  voltage (stepWithNoise noise now prev load) = voltageBase load noise.
Proof.
  change (voltage (stepWithNoise noise now prev load))
    with (max (ofZ 0) (voltageBase load noise)).
  rewrite ofZ_0.
  apply (positive_max0 _ _ _ (voltageBase_within load noise Hload Hnoise)).
  vm_compute. reflexivity.
Qed.

Lemma sample_efficiency :
  efficiency (stepWithNoise noise now prev load) = efficiencyBase load noise.
Proof.
  change (efficiency (stepWithNoise noise now prev load)) with
    (if gtb (efficiencyBase load noise) (ofZ 100) then ofZ 100
     else efficiencyBase load noise).
  destruct (efficiencyBase_within load noise Hload Hnoise) as [Hr [_ Hhi]].
  rewrite (not_gtb (efficiencyBase load noise) (ofZ 100) Hr);
    [reflexivity | split; vm_compute; [reflexivity | discriminate] |].
  apply Z.le_trans with (valZ (ofDec 381 4)); [exact Hhi|].
  vm_compute. discriminate.
Qed.

Lemma sample_voltage_within :
  within (ofZ 233) (ofZ 241) (voltage (stepWithNoise noise now prev load)).
Proof.
  rewrite sample_voltage.
  apply (within_inside (ofDec 14927 64) (ofDec 963 4)); [checked|].
  apply voltageBase_within; assumption.
Qed.

Lemma sample_current_within :
  within (S754_zero false) (ofZ 37) (current (stepWithNoise noise now prev load)).
Proof.
  change (current (stepWithNoise noise now prev load))
    with (max (ofZ 0) (currentBase load noise)).
  rewrite ofZ_0.
  apply (within_inside (S754_zero false) (ofDec 1159 32)); [checked|].
  apply (within_max0 (ofDec (-1) 8)); [|vm_compute; discriminate].
  apply currentBase_within; assumption.
Qed.

Lemma sample_power_within :
  within (S754_zero false) (ofZ 8720) (power (stepWithNoise noise now prev load)).
Proof.
  change (power (stepWithNoise noise now prev load))
    with (max (ofZ 0) (mul (voltageBase load noise) (currentBase load noise))).
  rewrite ofZ_0.
  apply (within_max0 (ofZ (-31))); [|vm_compute; discriminate].
  apply power_within; assumption.
Qed.

Lemma sample_frequency_within :
  within (ofDec 599 10) (ofDec 601 10) (frequency (stepWithNoise noise now prev load)).
Proof.
  change (frequency (stepWithNoise noise now prev load))
    with (add (ofZ 60) (mul noise (ofDec 1 10))).
  apply frequency_within. assumption.
Qed.

Lemma sample_efficiency_within :
  within (ofZ 87) (ofZ 96) (efficiency (stepWithNoise noise now prev load)).
Proof.
  rewrite sample_efficiency.
  apply (within_inside (ofDec 5614 64) (ofDec 381 4)); [checked|].
  apply efficiencyBase_within; assumption.
Qed.

Lemma sample_temperature_within :
  within (ofZ 20) (ofZ 100) (temperature prev) ->
  within (ofZ 20) (ofZ 100) (temperature (stepWithNoise noise now prev load)).
Proof.
  intros Htemp.
  change (temperature (stepWithNoise noise now prev load))
    with (add (add (temperature prev)
                 (mul (sub (targetTemp load) (temperature prev)) (ofDec 5 100)))
            (mul noise (ofDec 1 10))).
  apply temperature_stays; [apply targetTemp_within | |]; assumption.
Qed.
End Sample.

(** X11.  For every target load in [0, 120], every previous sample and
    every noise in [-0.5, 0.5), the sample of the step has a voltage
    between 233 and 241, a current of at most 37, a power of at most 8720,
    a frequency between 59.9 and 60.1 and an efficiency between 87 and
    96. *)
Theorem step_readings_in_band
    (load noise now : number) (prev : TelemetryData number) :
  inLoadRange load = true -> inNoiseRange noise = true ->
  let sample := stepWithNoise noise now prev load in
  leb (ofZ 233) (voltage sample) = true /\ leb (voltage sample) (ofZ 241) = true /\
  leb (current sample) (ofZ 37) = true /\
  leb (power sample) (ofZ 8720) = true /\
  leb (ofDec 599 10) (frequency sample) = true /\
  leb (frequency sample) (ofDec 601 10) = true /\
  leb (ofZ 87) (efficiency sample) = true /\ leb (efficiency sample) (ofZ 96) = true.
Proof.
  intros Hload Hnoise. cbn zeta.
  pose proof (load_within load Hload) as Hl. pose proof (noise_within noise Hnoise) as Hn.
  destruct (within_leb (ofZ 233) (ofZ 241) _ ltac:(checked) ltac:(checked)
              (sample_voltage_within load noise now prev Hl Hn)) as [Hv1 Hv2].
  destruct (within_leb (S754_zero false) (ofZ 37) _ ltac:(checked) ltac:(checked)
              (sample_current_within load noise now prev Hl Hn)) as [_ Hc].
  destruct (within_leb (S754_zero false) (ofZ 8720) _ ltac:(checked) ltac:(checked)
              (sample_power_within load noise now prev Hl Hn)) as [_ Hp].
  destruct (within_leb (ofDec 599 10) (ofDec 601 10) _ ltac:(checked) ltac:(checked)
              (sample_frequency_within load noise now prev Hn)) as [Hf1 Hf2].
  destruct (within_leb (ofZ 87) (ofZ 96) _ ltac:(checked) ltac:(checked)
              (sample_efficiency_within load noise now prev Hl Hn)) as [He1 He2].
  repeat split; assumption.
Qed.

(** X12.  On that range the floor of the voltage and the cap of the
    efficiency never act: the voltage returned is the computed one, not
    0, and the efficiency is the computed one, not 100. *)
Theorem voltage_floor_and_efficiency_cap_idle
    (load noise now : number) (prev : TelemetryData number) :
  inLoadRange load = true -> inNoiseRange noise = true ->
  let sample := stepWithNoise noise now prev load in
  voltage sample = voltageBase load noise /\
  efficiency sample = efficiencyBase load noise.
Proof.
  intros Hload Hnoise. cbn zeta.
  pose proof (load_within load Hload) as Hl. pose proof (noise_within noise Hnoise) as Hn.
  split; [apply sample_voltage | apply sample_efficiency]; assumption.
Qed.

(** X13.  The voltage gauge of the page is never amber for such a
    sample: its voltage is neither above 260 nor below 220. *)
Theorem voltage_gauge_never_amber
    (load noise now : number) (prev : TelemetryData number) :
  inLoadRange load = true -> inNoiseRange noise = true ->
  voltageGaugeColor (stepWithNoise noise now prev load) = "#22d3ee"%string.
Proof.
  intros Hload Hnoise.
  destruct (sample_voltage_within load noise now prev (load_within load Hload)
              (noise_within noise Hnoise)) as [Hr [Hlo Hhi]].
  unfold voltageGaugeColor.
  rewrite (not_gtb _ THRESHOLDS_voltage_max Hr);
    [|split; vm_compute; [reflexivity | discriminate]|].
  - rewrite (not_ltb _ THRESHOLDS_voltage_min Hr); [reflexivity | |].
    + split; vm_compute; [reflexivity | discriminate].
    + apply Z.le_trans with (valZ (ofZ 233)); [vm_compute; discriminate | exact Hlo].
  - apply Z.le_trans with (valZ (ofZ 241)); [exact Hhi | vm_compute; discriminate].
Qed.

Lemma step_readings_in_band_example :
  let sample := stepWithNoise (ofDec (-5) 10) (ofZ 0) (MOCK_INITIAL_DATA (ofZ 0)) (ofZ 120) in
  leb (ofZ 233) (voltage sample) = true /\ leb (voltage sample) (ofZ 241) = true /\
  leb (current sample) (ofZ 37) = true /\
  leb (power sample) (ofZ 8720) = true /\
  leb (ofDec 599 10) (frequency sample) = true /\
  leb (frequency sample) (ofDec 601 10) = true /\
  leb (ofZ 87) (efficiency sample) = true /\ leb (efficiency sample) (ofZ 96) = true.
Proof.
  apply (step_readings_in_band (ofZ 120) (ofDec (-5) 10) (ofZ 0) (MOCK_INITIAL_DATA (ofZ 0)));
    vm_compute; reflexivity.
Defined.

Lemma voltage_floor_and_efficiency_cap_idle_example :
  let sample := stepWithNoise (ofDec (-5) 10) (ofZ 0) (MOCK_INITIAL_DATA (ofZ 0)) (ofZ 120) in
  voltage sample = voltageBase (ofZ 120) (ofDec (-5) 10) /\
  efficiency sample = efficiencyBase (ofZ 120) (ofDec (-5) 10).
Proof.
  apply (voltage_floor_and_efficiency_cap_idle (ofZ 120) (ofDec (-5) 10) (ofZ 0)
           (MOCK_INITIAL_DATA (ofZ 0)));
    vm_compute; reflexivity.
Defined.

Lemma voltage_gauge_never_amber_example :
  voltageGaugeColor
    (stepWithNoise (ofDec (-5) 10) (ofZ 0) (MOCK_INITIAL_DATA (ofZ 0)) (ofZ 120))
  = "#22d3ee"%string.
Proof.
  apply (voltage_gauge_never_amber (ofZ 120) (ofDec (-5) 10) (ofZ 0)
           (MOCK_INITIAL_DATA (ofZ 0)));
    vm_compute; reflexivity.
Defined.

(** *** Loads that decide the status *)

Lemma heavy_load_within (load : number) :
  valid load && leb (ofZ 88) load && leb load (ofZ 120) = true ->
  inLoadRange load = true /\ within (ofZ 88) (ofZ 120) load.
Proof.
  rewrite !andb_true_iff. intros [[Hv Hlo] Hhi].
  assert (Hin : inLoadRange load = true).
  { unfold inLoadRange. rewrite Hv, Hhi, andb_true_r. cbn [andb].
    destruct load as [s | [] | | [] m e]; try reflexivity;
      vm_compute in Hlo; discriminate. }
  split; [exact Hin|].
  destruct (load_within load Hin) as [Hr _].
  apply leb_within; try assumption; split; vm_compute; try reflexivity; discriminate.
Qed.

Section Heavy.
Variables load n : number.
Hypothesis Hload : within (ofZ 88) (ofZ 120) load.
Hypothesis Hn : within (SFopp half) half n.

Ltac constant := apply within_self; vm_compute; reflexivity.

Lemma heavy_power_within :
  within (ofZ 6090) (ofZ 8720) (mul (voltageBase load n) (currentBase load n)).
Proof.
  assert (Hlf : within (ofDec 7 8) (ofDec 77 64) (loadFactor load)).
  { apply (within_div (ofZ 88) (ofZ 120) (ofZ 100) (ofDec 7 8) (ofDec 77 64));
      [checked | exact Hload]. }
  assert (Hwide : within (S754_zero false) (ofZ 120) load).
  { apply (within_inside (ofZ 88) (ofZ 120)); [checked | exact Hload]. }
  apply (within_mul (ofDec 14927 64) (ofDec 963 4) (ofDec 209 8) (ofDec 1159 32));
    [checked | exact (voltageBase_within load n Hwide Hn) |].
  unfold currentBase.
  apply (within_add (ofDec 210 8) (ofDec 2310 64) (ofDec (-1) 8) (ofDec 1 8));
    [checked | |].
  - apply (within_mul (ofZ 30) (ofZ 30) (ofDec 7 8) (ofDec 77 64));
      [checked | constant | exact Hlf].
  - apply (within_mul (SFopp half) half (ofDec 2 10) (ofDec 2 10));
      [checked | exact Hn | constant].
Qed.
End Heavy.

(** X14.  With the slider at 88 or more the status of every sample is
    CRITICAL, whatever the noise and the temperature: the power alone is
    above 6000. *)
Theorem heavy_load_is_critical
    (load noise now : number) (prev : TelemetryData number) :
  valid load && leb (ofZ 88) load && leb load (ofZ 120) = true ->
  inNoiseRange noise = true ->
  status (stepWithNoise noise now prev load) = CRITICAL.
Proof.
  intros Hload Hnoise.
  destruct (heavy_load_within load Hload) as [_ Hw].
  destruct (heavy_power_within load noise Hw (noise_within noise Hnoise)) as [Hr [Hlo _]].
  change (status (stepWithNoise noise now prev load))
    with (classify (mul (voltageBase load noise) (currentBase load noise))
            (temperature (stepWithNoise noise now prev load))).
  unfold classify. cbn [ngt binary64].
  rewrite (gtb_of_lt _ (THRESHOLDS_power_critical (N := number)) Hr); [reflexivity | |].
  - split; vm_compute; [reflexivity | discriminate].
  - apply Z.lt_le_trans with (valZ (ofZ 6090)); [vm_compute; reflexivity | exact Hlo].
Qed.

Lemma heavy_load_is_critical_example :
  status (stepWithNoise (ofDec (-5) 10) (ofZ 0) (MOCK_INITIAL_DATA (ofZ 0)) (ofZ 88))
  = CRITICAL.
Proof.
  apply (heavy_load_is_critical (ofZ 88) (ofDec (-5) 10) (ofZ 0) (MOCK_INITIAL_DATA (ofZ 0)));
    vm_compute; reflexivity.
Defined.
End SampleRanges.

(** ** Every state the page can reach *)

Module Reachable.
Import B64 B64Facts StepBounds Faithful Division Interval IntervalFacts IntervalFacts2.
Import TemperatureFacts SampleRanges.
Local Open Scope Z_scope.

Ltac checked := vm_compute; reflexivity.

Lemma scaled_onScale (d : TelemetryData number) : scaled d -> onScale d = true.
Proof.
  intros (Ht & Hv & Hc & Hp & Hf & He). unfold onScale. rewrite ofZ_0.
  destruct (within_leb (ofZ 20) (ofZ 100) _ ltac:(checked) ltac:(checked) Ht) as [-> ->].
  destruct (within_leb (ofZ 233) (ofZ 241) _ ltac:(checked) ltac:(checked) Hv) as [-> ->].
  destruct (within_leb (S754_zero false) (ofZ 37) _ ltac:(checked) ltac:(checked) Hc)
    as [-> ->].
  destruct (within_leb (S754_zero false) (ofZ 8720) _ ltac:(checked) ltac:(checked) Hp)
    as [-> ->].
  destruct (within_leb (ofDec 599 10) (ofDec 601 10) _ ltac:(checked) ltac:(checked) Hf)
    as [-> ->].
  destruct (within_leb (ofZ 87) (ofZ 100) _ ltac:(checked) ltac:(checked) He) as [-> ->].
  reflexivity.
Qed.

Lemma within_constant (a b c : number) :
  insideOk c c a b = true -> within a b c.
Proof.
  intros Hok. apply (within_inside c c a b c Hok). apply within_self.
  unfold insideOk, ends in Hok. cbn [forallb] in Hok.
  rewrite !andb_true_iff in Hok. tauto.
Qed.

Lemma seed_scaled (loaded_at : number) : scaled (MOCK_INITIAL_DATA loaded_at).
Proof. repeat split; try (vm_compute; reflexivity); vm_compute; discriminate. Qed.

Lemma step_scaled (load noise now : number) (prev : TelemetryData number) :
  within (S754_zero false) (ofZ 120) load -> within (SFopp half) half noise ->
  scaled prev -> scaled (stepWithNoise noise now prev load).
Proof.
  intros Hl Hn (Ht & _). unfold scaled.
  split; [apply sample_temperature_within; assumption|].
  split; [apply sample_voltage_within; assumption|].
  split; [apply sample_current_within; assumption|].
  split; [apply sample_power_within; assumption|].
  split; [apply sample_frequency_within; assumption|].
  apply (within_inside (ofZ 87) (ofZ 96)); [checked|].
  apply sample_efficiency_within; assumption.
Qed.

Lemma dispatch_draws (e : event) (s : SystemState number) (w : World number) :
  random_draws (snd (dispatch e s w)) = random_draws w.
Proof.
  destruct e as [| |v]; cbn [dispatch]; try reflexivity.
  destruct (onInterval_cases s w) as [-> | ->]; [|reflexivity].
  rewrite tick_world. reflexivity.
Qed.

Lemma onSlider_parses (top : nat) (v : string) :
  (top <= 120)%nat -> onSlider top (LoadChanged v) = true ->
  exists n : nat, (n <= top)%nat /\ ParseInt.parseInt v = ofZ (Z.of_nat n) /\
                  inLoadRange (ParseInt.parseInt v) = true.
Proof.
  intros Htop Hon. cbn [onSlider] in Hon. apply existsb_exists in Hon.
  destruct Hon as (n & Hin & Heq). apply in_seq in Hin. apply String.eqb_eq in Heq.
  subst v. exists n. destruct (slider_value_parses n ltac:(lia)) as [Hp Hr].
  split; [lia | split; assumption].
Qed.

Lemma Forall_tl (A : Type) (P : A -> Prop) (l : list A) : Forall P l -> Forall P (tl l).
Proof. intros H. destruct H; [constructor | assumption]. Qed.

(** What every event of the page keeps. *)
Lemma dispatch_scaled (e : event) (s : SystemState number) (w : World number) :
  onSlider 120 e = true ->
  inUnitInterval (random_draws w (draws_used w)) = true ->
  inLoadRange (targetLoad s) = true -> scaled (data s) -> Forall scaled (history s) ->
  inLoadRange (targetLoad (fst (dispatch e s w))) = true /\
  scaled (data (fst (dispatch e s w))) /\
  Forall scaled (history (fst (dispatch e s w))).
Proof.
  intros Hon Hr Hload Hd Hh. destruct e as [| |v]; cbn [dispatch].
  - destruct (onInterval_cases s w) as [-> | ->]; [|cbn [fst]; auto].
    rewrite tick_run. cbn [fst targetLoad data history]. rewrite simulateStep_run.
    cbn [fst].
    assert (Hnew : scaled (stepWithNoise
                             (sub (random_draws w (draws_used w)) half)
                             (clock_readings w (clock_reads w)) (data s) (targetLoad s))).
    { apply step_scaled; [apply load_within | apply drawn_noise_within |]; assumption. }
    split; [exact Hload|]. split; [exact Hnew|].
    apply Forall_app. split; [apply Forall_tl; exact Hh | constructor; [exact Hnew | constructor]].
  - cbn. auto.
  - destruct (onSlider_parses 120 v ltac:(lia) Hon) as (n & _ & _ & Hrange).
    cbn. auto.
Qed.

(** X15.  From the initial state, with a source of random values that
    keeps to [0, 1) and a slider that keeps to its positions 0 to 120,
    after any sequence of ticks, clicks and moves of the slider the
    current sample and all 60 samples of the history are on the scales of
    the page: temperature in [20, 100], voltage in [233, 241], current in
    [0, 37], power in [0, 8720], frequency in [59.9, 60.1], efficiency in
    [87, 100]. *)
Theorem readings_stay_on_scale
    (es : list event) (loaded_at : number) (w : World number) :
  forallb (onSlider 120) es = true ->
  (forall i : nat, inUnitInterval (random_draws w i) = true) ->
  let s := fst (run es (initialState loaded_at) w) in
  onScale (data s) = true /\ forallb onScale (history s) = true.
Proof.
  intros Hon Hdraws. cbn zeta.
  assert (Hgen : forall (s : SystemState number) (w0 : World number),
            random_draws w0 = random_draws w ->
            inLoadRange (targetLoad s) = true -> scaled (data s) ->
            Forall scaled (history s) ->
            scaled (data (fst (run es s w0))) /\
            Forall scaled (history (fst (run es s w0)))).
  { induction es as [|e es IH]; intros s w0 Hw Hl Hd Hh; [cbn; auto|].
    cbn [forallb] in Hon. apply andb_prop in Hon. destruct Hon as [He Hes].
    rewrite run_cons.
    destruct (dispatch_scaled e s w0 He ltac:(rewrite Hw; apply Hdraws) Hl Hd Hh)
      as (Hl' & Hd' & Hh').
    apply (IH Hes); try assumption.
    rewrite dispatch_draws. exact Hw. }
  destruct (Hgen (initialState loaded_at) w eq_refl) as [Hd Hh].
  - vm_compute. reflexivity.
  - apply seed_scaled.
  - cbn [initialState history]. apply Forall_forall. intros d Hin.
    apply repeat_spec in Hin. subst d. apply seed_scaled.
  - split; [apply scaled_onScale; exact Hd|].
    apply forallb_forall. intros d Hin. apply scaled_onScale.
    rewrite Forall_forall in Hh. apply Hh. exact Hin.
Qed.

Lemma readings_stay_on_scale_example :
  let s := fst (run [LoadChanged (sliderValue 120); IntervalFires; PowerClicked;
                     IntervalFires; PowerClicked; IntervalFires]
                  (initialState (ofZ 0)) (constantWorld (ofDec 9 10) (ofZ 7))) in
  onScale (data s) = true /\ forallb onScale (history s) = true.
Proof.
  apply (readings_stay_on_scale
           [LoadChanged (sliderValue 120); IntervalFires; PowerClicked;
            IntervalFires; PowerClicked; IntervalFires]
           (ofZ 0) (constantWorld (ofDec 9 10) (ofZ 7)));
    [vm_compute; reflexivity | intros i; vm_compute; reflexivity].
Defined.
End Reachable.

(** ** Light loads *)

Module LightLoad.
Import B64 B64Facts StepBounds Faithful Division Interval IntervalFacts IntervalFacts2.
Import TemperatureFacts SampleRanges Reachable.
Local Open Scope Z_scope.

Ltac checked := vm_compute; reflexivity.
Ltac constant := apply within_self; vm_compute; reflexivity.

Section Light.
Variables load n : number.
Hypothesis Hload : within (S754_zero false) (ofZ 45) load.
Hypothesis Hn : within (SFopp half) half n.

Lemma light_loadFactor : within (S754_zero false) (ofDec 29 64) (loadFactor load).
Proof.
  apply (within_div (S754_zero false) (ofZ 45) (ofZ 100) (S754_zero false) (ofDec 29 64));
    [checked | exact Hload].
Qed.

Lemma light_currentBase_within :
  within (ofDec (-1) 8) (ofDec 439 32) (currentBase load n).
Proof.
  unfold currentBase.
  apply (within_add (S754_zero false) (ofDec 870 64) (ofDec (-1) 8) (ofDec 1 8));
    [checked | |].
  - apply (within_mul (ofZ 30) (ofZ 30) (S754_zero false) (ofDec 29 64));
      [checked | constant | exact light_loadFactor].
  - apply (within_mul (SFopp half) half (ofDec 2 10) (ofDec 2 10));
      [checked | exact Hn | constant].
Qed.

Lemma light_power_within :
  within (ofZ (-31)) (ofZ 3400) (mul (voltageBase load n) (currentBase load n)).
Proof.
  assert (Hwide : within (S754_zero false) (ofZ 120) load).
  { apply (within_inside (S754_zero false) (ofZ 45)); [checked | exact Hload]. }
  apply (within_mul (ofDec 14927 64) (ofDec 963 4) (ofDec (-1) 8) (ofDec 439 32));
    [checked | exact (voltageBase_within load n Hwide Hn) | exact light_currentBase_within].
Qed.

Lemma light_targetTemp_within : within (ofZ 25) (ofDec 835 16) (targetTemp load).
Proof.
  unfold targetTemp.
  apply (within_add (ofZ 25) (ofZ 25) (S754_zero false) (ofDec 435 16));
    [checked | constant |].
  apply (within_mul (S754_zero false) (ofDec 29 64) (ofZ 60) (ofZ 60));
    [checked | exact light_loadFactor | constant].
Qed.
End Light.

(** For a steady state between 25 and 52.1875, that is for every load
    of [0, 45], a temperature of [20, 60] stays there. *)
Lemma temperature_stays_cool (T temp n : number) :
  within (ofZ 25) (ofDec 835 16) T ->
  within (ofZ 20) (ofZ 60) temp ->
  within (SFopp half) half n ->
  within (ofZ 20) (ofZ 60)
    (add (add temp (mul (sub T temp) (ofDec 5 100))) (mul n (ofDec 1 10))).
Proof.
  intros HT Htemp Hn.
  destruct (within_split _ _ (ofZ 23) _ Htemp) as [H1 | H2].
  { refine (within_inside _ _ _ _ _ _
              (next_temperature_within _ _ _ _ _ _ _ _ HT H1 Hn)); checked. }
  destruct (within_split _ _ (ofZ 55) _ H2) as [H3 | H4].
  { refine (within_inside _ _ _ _ _ _
              (next_temperature_within _ _ _ _ _ _ _ _ HT H3 Hn)); checked. }
  refine (within_inside _ _ _ _ _ _
            (next_temperature_within _ _ _ _ _ _ _ _ HT H4 Hn)); checked.
Qed.

(** One step at a light load from a temperature of [20, 60]. *)
Lemma light_step (load noise now : number) (prev : TelemetryData number) :
  within (S754_zero false) (ofZ 45) load -> within (SFopp half) half noise ->
  within (ofZ 20) (ofZ 60) (temperature prev) ->
  within (ofZ 20) (ofZ 60) (temperature (stepWithNoise noise now prev load)) /\
  status (stepWithNoise noise now prev load) = NOMINAL.
Proof.
  intros Hl Hn Ht.
  assert (Htemp : within (ofZ 20) (ofZ 60)
                    (temperature (stepWithNoise noise now prev load))).
  { change (temperature (stepWithNoise noise now prev load))
      with (add (add (temperature prev)
                   (mul (sub (targetTemp load) (temperature prev)) (ofDec 5 100)))
              (mul noise (ofDec 1 10))).
    apply temperature_stays_cool; [apply light_targetTemp_within | |]; assumption. }
  split; [exact Htemp|].
  destruct (light_power_within load noise Hl Hn) as [Hpr [_ Hp]].
  destruct Htemp as [Htr [_ Hth]].
  change (status (stepWithNoise noise now prev load))
    with (classify (mul (voltageBase load noise) (currentBase load noise))
            (temperature (stepWithNoise noise now prev load))).
  unfold classify. cbn [ngt binary64].
  assert (Hc : forall c : number, real c -> valZ (ofZ 3400) <= valZ c ->
               gtb (mul (voltageBase load noise) (currentBase load noise)) c = false).
  { intros c Hrc Hle. apply not_gtb; [exact Hpr | exact Hrc | lia]. }
  assert (Hd : forall c : number, real c -> valZ (ofZ 60) <= valZ c ->
               gtb (temperature (stepWithNoise noise now prev load)) c = false).
  { intros c Hrc Hle. apply not_gtb; [exact Htr | exact Hrc | lia]. }
  rewrite (Hc THRESHOLDS_power_critical), (Hc THRESHOLDS_power_warning),
    (Hd THRESHOLDS_temperature_critical), (Hd THRESHOLDS_temperature_warning);
    try reflexivity;
    try (split; vm_compute; [reflexivity | discriminate]);
    vm_compute; discriminate.
Qed.

Lemma light_slider_value (n : nat) :
  (n <= 45)%nat -> within (S754_zero false) (ofZ 45) (ofZ (Z.of_nat n)).
Proof.
  intros Hn.
  do 46 (destruct n as [|n];
         [apply within_constant; vm_compute; reflexivity|]).
  lia.
Qed.

Lemma dispatch_light (e : event) (s : SystemState number) (w : World number) :
  onSlider 45 e = true ->
  inUnitInterval (random_draws w (draws_used w)) = true ->
  within (S754_zero false) (ofZ 45) (targetLoad s) ->
  within (ofZ 20) (ofZ 60) (temperature (data s)) ->
  status (data s) = NOMINAL ->
  Forall (fun d => status d = NOMINAL) (history s) ->
  within (S754_zero false) (ofZ 45) (targetLoad (fst (dispatch e s w))) /\
  within (ofZ 20) (ofZ 60) (temperature (data (fst (dispatch e s w)))) /\
  status (data (fst (dispatch e s w))) = NOMINAL /\
  Forall (fun d => status d = NOMINAL) (history (fst (dispatch e s w))).
Proof.
  intros Hon Hr Hload Ht Hst Hh. destruct e as [| |v]; cbn [dispatch].
  - destruct (onInterval_cases s w) as [-> | ->]; [|cbn [fst]; auto].
    rewrite tick_run. cbn [fst targetLoad data history]. rewrite simulateStep_run.
    cbn [fst].
    destruct (light_step (targetLoad s) (sub (random_draws w (draws_used w)) half)
                (clock_readings w (clock_reads w)) (data s) Hload
                (drawn_noise_within _ Hr) Ht) as [Ht' Hst'].
    split; [exact Hload|]. split; [exact Ht'|]. split; [exact Hst'|].
    apply Forall_app. split; [apply Forall_tl; exact Hh | constructor; [exact Hst' | constructor]].
  - cbn. auto.
  - destruct (onSlider_parses 45 v ltac:(lia) Hon) as (n & Hn & Hp & _).
    cbn [fst ret handleLoadChange targetLoad data history]. rewrite Hp.
    split; [apply light_slider_value; exact Hn|]. auto.
Qed.

(** X16.  As long as the slider stays at 45 or below (it starts at 40),
    the status of every sample is NOMINAL: from the initial state, with
    random values of [0, 1), after any sequence of ticks, clicks and
    moves of the slider within 0..45 the current sample and every sample
    of the history are NOMINAL. *)
Theorem light_load_is_nominal
    (es : list event) (loaded_at : number) (w : World number) :
  forallb (onSlider 45) es = true ->
  (forall i : nat, inUnitInterval (random_draws w i) = true) ->
  let s := fst (run es (initialState loaded_at) w) in
  status (data s) = NOMINAL /\
  forallb (fun d => match status d with NOMINAL => true | _ => false end) (history s)
  = true.
Proof.
  intros Hon Hdraws. cbn zeta.
  assert (Hgen : forall (s : SystemState number) (w0 : World number),
            random_draws w0 = random_draws w ->
            within (S754_zero false) (ofZ 45) (targetLoad s) ->
            within (ofZ 20) (ofZ 60) (temperature (data s)) ->
            status (data s) = NOMINAL ->
            Forall (fun d => status d = NOMINAL) (history s) ->
            status (data (fst (run es s w0))) = NOMINAL /\
            Forall (fun d => status d = NOMINAL) (history (fst (run es s w0)))).
  { induction es as [|e es IH]; intros s w0 Hw Hl Ht Hst Hh; [cbn; auto|].
    cbn [forallb] in Hon. apply andb_prop in Hon. destruct Hon as [He Hes].
    rewrite run_cons.
    destruct (dispatch_light e s w0 He ltac:(rewrite Hw; apply Hdraws) Hl Ht Hst Hh)
      as (Hl' & Ht' & Hst' & Hh').
    apply (IH Hes); try assumption.
    rewrite dispatch_draws. exact Hw. }
  destruct (Hgen (initialState loaded_at) w eq_refl) as [Hst Hh].
  - apply within_constant. vm_compute. reflexivity.
  - apply within_constant. vm_compute. reflexivity.
  - reflexivity.
  - cbn [initialState history]. apply Forall_forall. intros d Hin.
    apply repeat_spec in Hin. subst d. reflexivity.
  - split; [exact Hst|].
    apply forallb_forall. intros d Hin.
    rewrite Forall_forall in Hh. rewrite (Hh d Hin). reflexivity.
Qed.

Lemma light_load_is_nominal_example :
  let s := fst (run [IntervalFires; LoadChanged (sliderValue 45); IntervalFires;
                     IntervalFires]
                  (initialState (ofZ 0)) (constantWorld (ofDec 9 10) (ofZ 7))) in
  status (data s) = NOMINAL /\
  forallb (fun d => match status d with NOMINAL => true | _ => false end) (history s)
  = true.
Proof.
  apply (light_load_is_nominal
           [IntervalFires; LoadChanged (sliderValue 45); IntervalFires; IntervalFires]
           (ofZ 0) (constantWorld (ofDec 9 10) (ofZ 7)));
    [vm_compute; reflexivity | intros i; vm_compute; reflexivity].
Defined.
End LightLoad.

(** ** The gauge *)

Module GaugeFacts.
Import B64 B64Facts StepBounds Faithful Division Interval IntervalFacts IntervalFacts2.
Import Gauge.
Local Open Scope Z_scope.

Ltac checked := vm_compute; reflexivity.
Ltac constant := apply within_self; vm_compute; reflexivity.

(** On doubles the comparison is the comparison of the values. *)
Lemma compare_valZ (x y : number) :
  real x -> real y -> SFcompare x y = Some (valZ x ?= valZ y).
Proof.
  intros Hx Hy.
  pose proof (leb_valZ x y Hx Hy) as H1. pose proof (leb_valZ y x Hy Hx) as H2.
  unfold leb, SFleb in H1, H2. rewrite (SFcompare_antisym x y) in H2.
  destruct (SFcompare x y) as [c|] eqn:E.
  - f_equal. destruct (Z.compare_spec (valZ x) (valZ y)) as [Heq | Hlt | Hgt];
      destruct c; cbn [option_map CompOpp] in H2; try reflexivity; exfalso.
    + assert (true = true) by reflexivity.
      destruct H1 as [H1 _]. specialize (H1 eq_refl).
      destruct H2 as [_ H2]. specialize (H2 ltac:(lia)). discriminate.
    + destruct H1 as [_ H1]. specialize (H1 ltac:(lia)). discriminate.
    + destruct H2 as [H2 _]. specialize (H2 eq_refl). lia.
    + destruct H1 as [_ H1]. specialize (H1 ltac:(lia)). discriminate.
    + destruct H2 as [H2 _]. specialize (H2 eq_refl). lia.
    + destruct H1 as [H1 _]. specialize (H1 eq_refl). lia.
  - destruct Hx as [_ Hx], Hy as [_ Hy].
    destruct x as [| | |]; try contradiction; destruct y as [| | |]; try contradiction;
      cbn in E; discriminate.
Qed.

Lemma max_value (x y : number) :
  real x -> real y ->
  real (B64.max x y) /\ valZ (B64.max x y) = Z.max (valZ x) (valZ y).
Proof.
  intros Hx Hy. unfold B64.max. rewrite (compare_valZ x y Hx Hy).
  destruct (Z.compare_spec (valZ x) (valZ y)) as [Heq | Hlt | Hgt].
  - destruct x as [[]| | |]; (split; [assumption | lia]).
  - split; [assumption | lia].
  - split; [assumption | lia].
Qed.

Lemma min_value (x y : number) :
  real x -> real y ->
  real (Math_min x y) /\ valZ (Math_min x y) = Z.min (valZ x) (valZ y).
Proof.
  intros Hx Hy. unfold Math_min. rewrite (compare_valZ x y Hx Hy).
  destruct (Z.compare_spec (valZ x) (valZ y)) as [Heq | Hlt | Hgt].
  - destruct x as [[]| | |]; (split; [assumption | lia]).
  - split; [assumption | lia].
  - split; [assumption | lia].
Qed.

(** A double that is not NaN is below [2^1001] in absolute value, or so
    large that it compares to every end point by its sign alone. *)
Lemma real_or_huge (x : number) :
  valid x = true -> isNaN x = false ->
  real x \/
  exists s : bool, forall y : number, small y = true ->
    SFcompare x y = Some (if s then Lt else Gt).
Proof.
  intros Hv Hn. destruct x as [s | s | | s m e]; try discriminate.
  - left. split; reflexivity.
  - right. exists s. intros y Hy. destruct (small_real y Hy) as [[_ Hf] _].
    destruct y; try contradiction; destruct s; reflexivity.
  - destruct (Z_le_gt_dec (magnitude m e) 1001) as [Hle | Hgt].
    + left. split; assumption.
    + right. exists s. intros y Hy. destruct (small_real y Hy) as [[Hvy _] Hfy].
      destruct y as [sy | sy | | sy my ey]; try contradiction; [reflexivity|].
      destruct (valid_canonical s m e Hv) as [Hc _].
      destruct (valid_canonical sy my ey Hvy) as [Hcy _].
      cbn [finiteBelow] in Hfy. unfold magnitude in *.
      assert (Hee : ey < e) by lia.
      unfold SFcompare.
      destruct s, sy; try reflexivity;
        rewrite (proj2 (Z.compare_gt_iff e ey) Hee); reflexivity.
Qed.

(** The clamped value lies on the scale, whatever the value. *)
Lemma clamped_within (value min max : number) :
  small min = true -> small max = true -> valZ min <= valZ max ->
  valid value = true -> isNaN value = false ->
  within min max (clampedValue value min max).
Proof.
  intros Hmin Hmax Hle Hv Hn.
  destruct (small_real min Hmin) as [Hrmin _]. destruct (small_real max Hmax) as [Hrmax _].
  unfold clampedValue.
  destruct (real_or_huge value Hv Hn) as [Hr | (s & Hbig)].
  - destruct (max_value value min Hr Hrmin) as [Hu Hvu].
    destruct (min_value _ max Hu Hrmax) as [Hc Hvc].
    split; [exact Hc | rewrite Hvc, Hvu; lia].
  - unfold B64.max at 1. rewrite (Hbig min Hmin). destruct s.
    + destruct (min_value min max Hrmin Hrmax) as [Hc Hvc].
      split; [exact Hc | rewrite Hvc; lia].
    + unfold Math_min. rewrite (Hbig max Hmax).
      split; [exact Hrmax | lia].
Qed.





Lemma sub_nan_r (x : number) : sub x NaN = NaN.
Proof. destruct x; reflexivity. Qed.

(** X18.  A value that is NaN is not clamped: on every scale the
    clamped value, the fraction, the rotation of the needle and the dash
    offset are all NaN. *)
Theorem gauge_of_nan (min max : number) :
  clampedValue NaN min max = NaN /\ percentage NaN min max = NaN /\
  rotation NaN min max = NaN /\ offset NaN min max = NaN.
Proof.
  assert (Hc : clampedValue NaN min max = NaN) by reflexivity.
  assert (Hp : percentage NaN min max = NaN) by reflexivity.
  split; [exact Hc|]. split; [exact Hp|].
  unfold rotation, offset. rewrite Hp.
  change (mul NaN (ofZ 270)) with NaN.
  change (mul NaN (mul circumference (ofDec 75 100))) with NaN.
  rewrite add_nan_r, sub_nan_r. split; reflexivity.
Qed.

Lemma zero_of_value (x : number) : real x -> valZ x = 0 -> exists s, x = S754_zero s.
Proof.
  intros [Hv Hf] H0. destruct x as [s | s | | s m e]; try contradiction; [eauto|].
  destruct (valid_finite s m e Hv) as [_ He].
  pose proof (units_pos (Zpos m) e eq_refl ltac:(lia)).
  destruct s; cbn [valZ cond_Zopp] in H0; lia.
Qed.

(** X19.  A scale whose two ends are the same finite number shows
    nothing: for every value that is not NaN the fraction is 0/0, so the
    fraction, the rotation and the dash offset are NaN. *)
Theorem gauge_of_empty_scale (value m : number) :
  small m = true -> valid value = true -> isNaN value = false ->
  isNaN (percentage value m m) = true /\
  isNaN (rotation value m m) = true /\
  isNaN (offset value m m) = true.
Proof.
  intros Hm Hv Hn.
  destruct (small_real m Hm) as [Hrm Hfm].
  destruct (clamped_within value m m Hm Hm ltac:(lia) Hv Hn) as [Hc Hcb].
  pose proof (within_small m m _ Hm Hm (conj Hc Hcb)) as Hfc.
  assert (Hzero : forall c : number, real c -> finiteBelow 300 c -> valZ c = valZ m ->
                  exists s, sub c m = S754_zero s).
  { intros c Hcr Hcf Hcv. rewrite sub_add_opp.
    destruct (add_monotone c (SFopp m) Hcr (opp_real m Hrm)
                (finiteBelow_mono 300 999 c ltac:(lia) Hcf)
                (finiteBelow_mono 300 999 _ ltac:(lia) (opp_finiteBelow 300 m Hfm)))
      as [Hr Hmono].
    rewrite valZ_opp in Hmono.
    destruct (Hmono (S754_zero false) (zero_real false)) as [Hlo Hhi].
    cbn [valZ] in Hlo, Hhi.
    apply zero_of_value; [exact Hr|].
    assert (0 <= valZ (add c (SFopp m))) by (apply Hlo; lia).
    assert (valZ (add c (SFopp m)) <= 0) by (apply Hhi; lia).
    lia. }
  destruct (Hzero _ Hc Hfc ltac:(lia)) as [s1 H1].
  destruct (Hzero m Hrm Hfm eq_refl) as [s2 H2].
  assert (Hp : percentage value m m = NaN).
  { unfold percentage. rewrite H1, H2. reflexivity. }
  unfold rotation, offset. rewrite Hp.
  change (mul NaN (ofZ 270)) with NaN.
  change (mul NaN (mul circumference (ofDec 75 100))) with NaN.
  rewrite add_nan_r, sub_nan_r. repeat split.
Qed.

Lemma gauge_of_empty_scale_example :
  isNaN (percentage (ofZ 5) (ofZ 40) (ofZ 40)) = true /\
  isNaN (rotation (ofZ 5) (ofZ 40) (ofZ 40)) = true /\
  isNaN (offset (ofZ 5) (ofZ 40) (ofZ 40)) = true.
Proof.
  apply (gauge_of_empty_scale (ofZ 5) (ofZ 40)); vm_compute; reflexivity.
Defined.
End GaugeFacts.

(** ** The gauges of the page *)

Module PageGauges.
Import B64 B64Facts StepBounds Faithful Division Interval IntervalFacts IntervalFacts2.
Import TemperatureFacts SampleRanges Reachable LightLoad Gauge GaugeFacts.
Local Open Scope Z_scope.

Ltac checked := vm_compute; reflexivity.

(** A valid double between two end points is one of the interval. *)
Lemma banded_within (a b x : number) :
  small a = true -> small b = true ->
  valid x && leb a x && leb x b = true -> within a b x.
Proof.
  intros Ha Hb Hx. rewrite !andb_true_iff in Hx. destruct Hx as [[Hv Hlo] Hhi].
  destruct (small_real a Ha) as [Hra _]. destruct (small_real b Hb) as [Hrb _].
  assert (Hn : isNaN x = false) by (destruct x; try reflexivity; discriminate).
  destruct (real_or_huge x Hv Hn) as [Hr | (s & Hbig)].
  - apply leb_within; assumption.
  - exfalso. unfold leb, SFleb in Hlo, Hhi.
    rewrite (SFcompare_antisym x a), (Hbig a Ha) in Hlo. rewrite (Hbig b Hb) in Hhi.
    destruct s; cbn in Hlo, Hhi; discriminate.
Qed.

(** Inside the scale, clamping does nothing. *)
Lemma clamp_identity (x lo hi : number) :
  real x -> real lo -> real hi ->
  valZ lo <= valZ x -> valZ x < valZ hi -> x <> S754_zero true ->
  clampedValue x lo hi = x.
Proof.
  intros Hx Hlo Hhi Hle Hlt Hnz. unfold clampedValue.
  assert (Hmax : B64.max x lo = x).
  { unfold B64.max. rewrite (compare_valZ x lo Hx Hlo).
    destruct (Z.compare_spec (valZ x) (valZ lo)) as [Heq | Hl | Hg]; try reflexivity; [|lia].
    destruct x as [[]| | |]; try reflexivity. contradiction. }
  rewrite Hmax. unfold Math_min. rewrite (compare_valZ x hi Hx Hhi).
  rewrite (proj2 (Z.compare_lt_iff _ _) Hlt). reflexivity.
Qed.

Lemma max_zero_not_negative_zero (y : number) :
  B64.max (S754_zero false) y <> S754_zero true.
Proof. destruct y as [[]|[]| |[] m e]; cbn; discriminate. Qed.

(** X20.  The three gauges of the page show a sample as it is.  For
    every target load in [0, 120], every noise in [-0.5, 0.5) and a
    previous temperature in [20, 100], the voltage of the sample lies
    on the scale 200..280, its current on 0..40 and its temperature on
    0..100, so that the value each gauge clamps is the value itself. *)
Theorem gauges_show_the_sample
    (load noise now : number) (prev : TelemetryData number) :
  inLoadRange load = true -> inNoiseRange noise = true ->
  valid (temperature prev) && leb (ofZ 20) (temperature prev)
    && leb (temperature prev) (ofZ 100) = true ->
  let d := stepWithNoise noise now prev load in
  clampedValue (voltage d) (ofZ 200) (ofZ 280) = voltage d /\
  clampedValue (current d) (ofZ 0) (ofZ 40) = current d /\
  clampedValue (temperature d) (ofZ 0) (ofZ 100) = temperature d.
Proof.
  intros Hload Hnoise Hprev. cbn zeta.
  pose proof (load_within load Hload) as Hl. pose proof (noise_within noise Hnoise) as Hn.
  pose proof (banded_within (ofZ 20) (ofZ 100) _ ltac:(checked) ltac:(checked) Hprev) as Ht.
  destruct (sample_voltage_within load noise now prev Hl Hn) as [Hvr [Hv1 Hv2]].
  destruct (sample_current_within load noise now prev Hl Hn) as [Hcr [Hc1 Hc2]].
  destruct (sample_temperature_within load noise now prev Hl Hn Ht) as [Htr [Ht1 Ht2]].
  assert (Hreal : forall z : Z, small (ofZ z) = true -> real (ofZ z))
    by (intros z Hz; apply small_real; exact Hz).
  split; [|split].
  - apply clamp_identity; try assumption; try (apply Hreal; checked).
    + apply Z.le_trans with (valZ (ofZ 233)); [vm_compute; discriminate | exact Hv1].
    + apply Z.le_lt_trans with (valZ (ofZ 241)); [exact Hv2 | vm_compute; reflexivity].
    + intros E. rewrite E in Hv1. vm_compute in Hv1. apply Hv1. reflexivity.
  - apply clamp_identity; try assumption; try (apply Hreal; checked).
    + apply Z.le_lt_trans with (valZ (ofZ 37)); [exact Hc2 | vm_compute; reflexivity].
    + change (current (stepWithNoise noise now prev load))
        with (B64.max (ofZ 0) (currentBase load noise)).
      rewrite ofZ_0. apply max_zero_not_negative_zero.
  - assert (Hpos : 0 < valZ (temperature (stepWithNoise noise now prev load))).
    { apply Z.lt_le_trans with (valZ (ofZ 20)); [vm_compute; reflexivity | exact Ht1]. }
    unfold clampedValue.
    destruct (max_value _ (ofZ 0) Htr (Hreal 0 ltac:(checked))) as [_ Hmv].
    assert (Hmax : B64.max (temperature (stepWithNoise noise now prev load)) (ofZ 0)
                   = temperature (stepWithNoise noise now prev load)).
    { unfold B64.max. rewrite (compare_valZ _ (ofZ 0) Htr (Hreal 0 ltac:(checked))).
      change (valZ (ofZ 0)) with 0.
      rewrite (proj2 (Z.compare_gt_iff _ _) Hpos). reflexivity. }
    rewrite Hmax. unfold Math_min.
    rewrite (compare_valZ _ (ofZ 100) Htr (Hreal 100 ltac:(checked))).
    destruct (Z.compare_spec (valZ (temperature (stepWithNoise noise now prev load)))
                (valZ (ofZ 100))) as [Heq | Hlt | Hgt]; try reflexivity; [|lia].
    destruct (temperature (stepWithNoise noise now prev load)) as [[]| | |];
      try reflexivity; cbn [valZ] in Hpos; lia.
Qed.

Lemma gauges_show_the_sample_example :
  let d := stepWithNoise (ofDec (-5) 10) (ofZ 0) (MOCK_INITIAL_DATA (ofZ 0)) (ofZ 120) in
  clampedValue (voltage d) (ofZ 200) (ofZ 280) = voltage d /\
  clampedValue (current d) (ofZ 0) (ofZ 40) = current d /\
  clampedValue (temperature d) (ofZ 0) (ofZ 100) = temperature d.
Proof.
  apply (gauges_show_the_sample (ofZ 120) (ofDec (-5) 10) (ofZ 0)
           (MOCK_INITIAL_DATA (ofZ 0)));
    vm_compute; reflexivity.
Defined.

(** X21.  At a light load nothing on the page changes colour.  For a
    target load in [0, 45], a noise in [-0.5, 0.5) and a previous
    temperature in [20, 60], the three gauges keep their normal colours
    (the current stays at or below 15, the temperature at or below 60) and
    the next temperature is in [20, 60] again. *)
Theorem light_load_keeps_colours
    (load noise now : number) (prev : TelemetryData number) :
  valid load && leb (ofZ 0) load && leb load (ofZ 45) = true ->
  inNoiseRange noise = true ->
  valid (temperature prev) && leb (ofZ 20) (temperature prev)
    && leb (temperature prev) (ofZ 60) = true ->
  let d := stepWithNoise noise now prev load in
  voltageGaugeColor d = "#22d3ee"%string /\
  currentGaugeColor d = "#34d399"%string /\
  temperatureGaugeColor d = "#fbbf24"%string /\
  leb (ofZ 20) (temperature d) = true /\ leb (temperature d) (ofZ 60) = true.
Proof.
  intros Hload Hnoise Hprev. cbn zeta.
  rewrite ofZ_0 in Hload.
  pose proof (banded_within (S754_zero false) (ofZ 45) _ ltac:(checked) ltac:(checked) Hload)
    as Hl.
  pose proof (noise_within noise Hnoise) as Hn.
  pose proof (banded_within (ofZ 20) (ofZ 60) _ ltac:(checked) ltac:(checked) Hprev) as Ht.
  assert (Hwide : within (S754_zero false) (ofZ 120) load).
  { apply (within_inside (S754_zero false) (ofZ 45)); [checked | exact Hl]. }
  destruct (sample_voltage_within load noise now prev Hwide Hn) as [Hvr [Hv1 Hv2]].
  destruct (light_step load noise now prev Hl Hn Ht) as [Htemp _].
  assert (Hcur : within (S754_zero false) (ofDec 439 32)
                   (current (stepWithNoise noise now prev load))).
  { change (current (stepWithNoise noise now prev load))
      with (B64.max (ofZ 0) (currentBase load noise)).
    rewrite ofZ_0.
    apply (within_max0 (ofDec (-1) 8)); [|vm_compute; discriminate].
    apply light_currentBase_within; assumption. }
  assert (Hreal : forall c : number, small c = true -> real c)
    by (intros c Hc; apply small_real; exact Hc).
  split; [|split; [|split]].
  - unfold voltageGaugeColor.
    rewrite (not_gtb _ THRESHOLDS_voltage_max Hvr
               (Hreal THRESHOLDS_voltage_max ltac:(checked)));
      [|apply Z.le_trans with (valZ (ofZ 241)); [exact Hv2 | vm_compute; discriminate]].
    rewrite (not_ltb _ THRESHOLDS_voltage_min Hvr
               (Hreal THRESHOLDS_voltage_min ltac:(checked)));
      [reflexivity|].
    apply Z.le_trans with (valZ (ofZ 233)); [vm_compute; discriminate | exact Hv1].
  - unfold currentGaugeColor. destruct Hcur as [Hcr [_ Hc2]].
    rewrite (not_gtb _ THRESHOLDS_current_warning Hcr
               (Hreal THRESHOLDS_current_warning ltac:(checked)));
      [reflexivity|].
    apply Z.le_trans with (valZ (ofDec 439 32)); [exact Hc2 | vm_compute; discriminate].
  - unfold temperatureGaugeColor. destruct Htemp as [Htr [_ Ht2]].
    change (THRESHOLDS_temperature_warning (N := number)) with (ofZ 60).
    rewrite (not_gtb _ (ofZ 60) Htr (Hreal (ofZ 60) ltac:(checked)));
      [reflexivity|].
    apply Z.le_trans with (valZ (ofZ 60)); [exact Ht2 | vm_compute; discriminate].
  - exact (within_leb (ofZ 20) (ofZ 60) _ ltac:(checked) ltac:(checked) Htemp).
Qed.

Lemma light_load_keeps_colours_example :
  let d := stepWithNoise (ofDec 4 10) (ofZ 0) (MOCK_INITIAL_DATA (ofZ 0)) (ofZ 40) in
  voltageGaugeColor d = "#22d3ee"%string /\
  currentGaugeColor d = "#34d399"%string /\
  temperatureGaugeColor d = "#fbbf24"%string /\
  leb (ofZ 20) (temperature d) = true /\ leb (temperature d) (ofZ 60) = true.
Proof.
  apply (light_load_keeps_colours (ofZ 40) (ofDec 4 10) (ofZ 0) (MOCK_INITIAL_DATA (ofZ 0)));
    vm_compute; reflexivity.
Defined.
End PageGauges.
